(** * input-device-manager: the device tree and its refresh, in Rocq

    A shallow embedding of [src/main.c].  The source file holds two
    versions of the program:

    - lines 1-807, the current one, where every drag-and-drop is sent to
      the X server at once (module [Immediate]);
    - lines 808-1582, the older one, where drops are meant to be collected
      in [gds->changes] and sent by "apply" (module [Staged]).

    Both keep the device hierarchy in a [GtkTreeStore] of depth two that
    [query_devices] refreshes with a generation-stamped mark and sweep.

    What the model takes for granted:

    - Device ids, uses and generations are integers in [Z].  The store
      keeps them in unsigned 32-bit columns and the program reads them
      back into [int] variables, which returns what was stored, -1
      included; the generation counter is an [int] that is incremented
      once per refresh and is taken not to overflow.
    - The X server and GTK are not part of the program.  The server is a
      parameter of the display connection; the store is a list of rows,
      each with the node that a [GtkTreeIter] points to.
    - Requests sent outside an error trap are taken to return: GDK's
      handling of an X error that nobody traps is not represented.
    - The call [gtk_tree_model_get (model, &child, COL_ID, &id)] of the
      second loop, which lacks the closing -1, reads the id like the
      others. *)

From Stdlib Require Import ZArith List Bool Lia String Permutation.
Import ListNotations.
Open Scope Z_scope.

(** ** XInput 2 *)

Module XI.

(** Device uses, as numbered in [X11/extensions/XInput2.h]. *)
Definition XIMasterPointer : Z := 1.
Definition XIMasterKeyboard : Z := 2.
Definition XISlavePointer : Z := 3.
Definition XISlaveKeyboard : Z := 4.
Definition XIFloatingSlave : Z := 5.

(** Return modes of [XIRemoveMasterInfo]. *)
Definition XIAttachToMaster : Z := 1.
Definition XIFloating : Z := 2.

(** Xlib's [Success]. *)
Definition Success : Z := 0.

(** The fields of [XIDeviceInfo] the program reads. *)
Record XIDeviceInfo := {
  deviceid : Z;
  name : string;
  use : Z;
  attachment : Z
}.

(** [XIAnyHierarchyChangeInfo], a tagged union.  A field the program
    leaves unset is [None]. *)
Inductive XIAnyHierarchyChangeInfo :=
| XIAddMaster (name : string) (send_core enable : bool)
| XIRemoveMaster (deviceid return_mode : Z)
                 (return_pointer return_keyboard : option Z)
| XIAttachSlave (deviceid new_master : Z)
| XIDetachSlave (deviceid : Z).

(** The display connection.  The X server is not part of the program:
    it is represented by what it answers, as a function of the hierarchy
    requests it has received so far ([requests], oldest first).
    [x_error h] tells whether the last request of history [h] raised an
    X error. *)
Record Display := {
  XIQueryDevice_reply : list (list XIAnyHierarchyChangeInfo) -> list XIDeviceInfo;
  x_error : list (list XIAnyHierarchyChangeInfo) -> bool;
  requests : list (list XIAnyHierarchyChangeInfo)
}.

Definition XIChangeHierarchy (dpy : Display)
    (changes : list XIAnyHierarchyChangeInfo) : Display :=
  {| XIQueryDevice_reply := XIQueryDevice_reply dpy;
     x_error := x_error dpy;
     requests := requests dpy ++ [changes] |}.

Definition XIQueryDevice (dpy : Display) : list XIDeviceInfo :=
  XIQueryDevice_reply dpy (requests dpy).

Definition is_master (dev : XIDeviceInfo) : bool :=
  (use dev =? XIMasterPointer) || (use dev =? XIMasterKeyboard).

End XI.

(** ** The tree store *)

Module Gtk.

Inductive Icon := ICON_MOUSE | ICON_KEYBOARD | ICON_FLOATING.

(** One row of the store.  [node] stands for the address of the row's
    node: it is what a [GtkTreeIter] points to, it is chosen when the row
    is appended and never changes.  The other fields are the columns
    [COL_ID .. COL_GENERATION]; a column that was never set holds 0 or
    [None]. *)
Record Row := {
  node : nat;
  COL_ID : Z;
  COL_NAME : string;
  COL_USE : Z;
  COL_ICON : option Icon;
  COL_GENERATION : Z
}.

(** A top-level row with the rows below it.  The program only ever
    inserts below a top-level row, so two levels are all there is. *)
Record Root := {
  root_row : Row;
  children : list Row
}.

(** The store: the top-level rows in display order, and the next unused
    node. *)
Record GtkTreeStore := {
  rows : list Root;
  next_node : nat
}.

Definition gtk_tree_store_new : GtkTreeStore :=
  {| rows := []; next_node := 0 |}.

Definition root_id (r : Root) : Z := COL_ID (root_row r).
Definition root_gen (r : Root) : Z := COL_GENERATION (root_row r).

(** [gtk_tree_store_set (..., COL_GENERATION, gen, -1)]. *)
Definition set_generation (gen : Z) (r : Row) : Row :=
  {| node := node r; COL_ID := COL_ID r; COL_NAME := COL_NAME r;
     COL_USE := COL_USE r; COL_ICON := COL_ICON r;
     COL_GENERATION := gen |}.

Definition set_root_generation (gen : Z) (r : Root) : Root :=
  {| root_row := set_generation gen (root_row r); children := children r |}.

Definition set_children (cs : list Row) (r : Root) : Root :=
  {| root_row := root_row r; children := cs |}.

(** The walk [while (valid) { if (p row) { update; break; } next }] over
    one level: the first row satisfying [p] is updated in place.  [None]
    when the walk runs off the end. *)
Fixpoint update_first {A : Type} (p : A -> bool) (f : A -> A) (l : list A)
    : option (list A) :=
  match l with
  | [] => None
  | x :: l' =>
      if p x then Some (f x :: l')
      else match update_first p f l' with
           | Some l'' => Some (x :: l'')
           | None => None
           end
  end.

(** [gtk_tree_store_append (store, &iter, NULL)] followed by the
    [gtk_tree_store_set] that fills the new row. *)
Definition append_root (id : Z) (nm : string) (u : Z) (icon : option Icon)
    (gen : Z) (ts : GtkTreeStore) : GtkTreeStore :=
  {| rows := rows ts ++
             [ {| root_row := {| node := next_node ts; COL_ID := id;
                                 COL_NAME := nm; COL_USE := u;
                                 COL_ICON := icon; COL_GENERATION := gen |};
                  children := [] |} ];
     next_node := S (next_node ts) |}.

(** Splits the top level at the first row whose id is [id]. *)
Fixpoint find_root (id : Z) (rs : list Root)
    : option (list Root * Root * list Root) :=
  match rs with
  | [] => None
  | r :: rs' =>
      if root_id r =? id then Some ([], r, rs')
      else match find_root id rs' with
           | Some (before, f, after) => Some (r :: before, f, after)
           | None => None
           end
  end.

(** Every row of a level list, each top-level row followed by the rows
    below it. *)
Definition all_rows (rs : list Root) : list Row :=
  flat_map (fun r => root_row r :: children r) rs.

(** A [GtkTreeIter] is represented by the node it points to.
    [gtk_tree_model_get] at that row: *)
Definition row_at (ts : GtkTreeStore) (n : nat) : option Row :=
  find (fun c => Nat.eqb (node c) n) (all_rows (rows ts)).

(** [gtk_tree_model_iter_parent], then the choice the drop handler makes:
    the top-level row the node [n] is or lies below. *)
Definition top_level_of (ts : GtkTreeStore) (n : nat) : option Root :=
  find (fun r => Nat.eqb (node (root_row r)) n
                 || existsb (fun c => Nat.eqb (node c) n) (children r))
       (rows ts).

Definition is_top_level (ts : GtkTreeStore) (n : nat) : bool :=
  existsb (fun r => Nat.eqb (node (root_row r)) n) (rows ts).

(** [gtk_tree_store_remove]: the row goes, with the rows below it. *)
Definition gtk_tree_store_remove (n : nat) (ts : GtkTreeStore) : GtkTreeStore :=
  {| rows :=
       map (fun r =>
              set_children
                (filter (fun c => negb (Nat.eqb (node c) n)) (children r)) r)
           (filter (fun r => negb (Nat.eqb (node (root_row r)) n)) (rows ts));
     next_node := next_node ts |}.

(** The new row [x] goes right before, or right after, the sibling whose
    node is [sib]. *)
Fixpoint insert_before (sib : nat) (x : Row) (cs : list Row) : list Row :=
  match cs with
  | [] => []
  | c :: cs' =>
      if Nat.eqb (node c) sib then x :: c :: cs'
      else c :: insert_before sib x cs'
  end.

Fixpoint insert_after (sib : nat) (x : Row) (cs : list Row) : list Row :=
  match cs with
  | [] => []
  | c :: cs' =>
      if Nat.eqb (node c) sib then c :: x :: cs'
      else c :: insert_after sib x cs'
  end.

(** A row none of whose columns has been set. *)
Definition empty_row (n : nat) : Row :=
  {| node := n; COL_ID := 0; COL_NAME := EmptyString; COL_USE := 0;
     COL_ICON := None; COL_GENERATION := 0 |}.

(** [gtk_tree_store_insert_before (store, &iter, parent, sibling)] and
    [gtk_tree_store_insert_after], for a top-level [parent]: without a
    sibling the first appends below the parent and the second prepends.
    The new row is empty; its node is returned with the store. *)

Definition gtk_tree_store_insert (after : bool) (parent : nat)
    (sibling : option nat) (ts : GtkTreeStore) : nat * GtkTreeStore :=
  let x := empty_row (next_node ts) in
  let place cs :=
    match sibling, after with
    | None, false => cs ++ [x]
    | None, true => x :: cs
    | Some s, false => insert_before s x cs
    | Some s, true => insert_after s x cs
    end in
  (next_node ts,
   {| rows := map (fun r => if Nat.eqb (node (root_row r)) parent
                            then set_children (place (children r)) r
                            else r) (rows ts);
      next_node := S (next_node ts) |}).

(** [gtk_tree_store_set (store, &iter, COL_ID, id, COL_NAME, name,
    COL_USE, use, -1)] on a row below the top level. *)
Definition set_id_name_use (n : nat) (id : Z) (nm : string) (u : Z)
    (ts : GtkTreeStore) : GtkTreeStore :=
  let upd c :=
    if Nat.eqb (node c) n
    then {| node := node c; COL_ID := id; COL_NAME := nm; COL_USE := u;
            COL_ICON := COL_ICON c; COL_GENERATION := COL_GENERATION c |}
    else c in
  {| rows := map (fun r => set_children (map upd (children r)) r) (rows ts);
     next_node := next_node ts |}.

Inductive GtkTreeViewDropPosition :=
| GTK_TREE_VIEW_DROP_BEFORE
| GTK_TREE_VIEW_DROP_AFTER
| GTK_TREE_VIEW_DROP_INTO_OR_BEFORE
| GTK_TREE_VIEW_DROP_INTO_OR_AFTER.

Inductive GtkResponse :=
| GTK_RESPONSE_HELP
| GTK_RESPONSE_APPLY
| GTK_RESPONSE_CANCEL
| GTK_RESPONSE_CLOSE
| GTK_RESPONSE_DELETE_EVENT.

(** Which of the dialog's responses can be clicked. *)
Record Window := {
  apply_sensitive : bool;
  cancel_sensitive : bool
}.

(** The popup menu's only item.  GTK does not let the user activate an
    item that is not sensitive. *)
Record MenuItem := {
  label : string;
  sensitive : bool
}.

End Gtk.

Import XI Gtk.

(** ** The session data *)

(** What an element of [gds->changes] holds in its [data] field: the
    address of a change, or an integer stored in place of an address. *)
Inductive gpointer :=
| ChangePtr (c : XIAnyHierarchyChangeInfo)
| IntPtr (z : Z).

(** [GDeviceSetup].  [treeview] is the model behind the tree view, [None]
    until [get_tree_view] has built the view. *)
Record GDeviceSetup := {
  dpy : Display;
  changes : list gpointer;
  treeview : option GtkTreeStore;
  window : Window;
  generation : Z
}.

Definition set_dpy (d : Display) (gds : GDeviceSetup) : GDeviceSetup :=
  {| dpy := d; changes := changes gds; treeview := treeview gds;
     window := window gds; generation := generation gds |}.

Definition set_changes (l : list gpointer) (gds : GDeviceSetup) : GDeviceSetup :=
  {| dpy := dpy gds; changes := l; treeview := treeview gds;
     window := window gds; generation := generation gds |}.

Definition set_treeview (tv : option GtkTreeStore) (gds : GDeviceSetup)
    : GDeviceSetup :=
  {| dpy := dpy gds; changes := changes gds; treeview := tv;
     window := window gds; generation := generation gds |}.

Definition set_window (w : Window) (gds : GDeviceSetup) : GDeviceSetup :=
  {| dpy := dpy gds; changes := changes gds; treeview := treeview gds;
     window := w; generation := generation gds |}.

(** [main]'s initialiser [{ NULL, NULL, NULL, NULL, 0 }], on a display
    that [dpy_init] has opened; the dialog's buttons start sensitive. *)
Definition gds_init (d : Display) : GDeviceSetup :=
  {| dpy := d; changes := []; treeview := None;
     window := {| apply_sensitive := true; cancel_sensitive := true |};
     generation := 0 |}.

(** The uninterrupted copy loop of [apply]: every element is read as a
    change.  [None] when an element is not the address of one. *)
Fixpoint gather (l : list gpointer) : option (list XIAnyHierarchyChangeInfo) :=
  match l with
  | [] => Some []
  | ChangePtr c :: l' =>
      match gather l' with
      | Some cs => Some (c :: cs)
      | None => None
      end
  | IntPtr _ :: _ => None
  end.

(** ** The refresh, as both versions have it *)

Module Refresh.

(** First loop of [query_devices]: one master device. *)
Definition master_step (gen : Z) (ts : GtkTreeStore) (dev : XIDeviceInfo)
    : GtkTreeStore :=
  if is_master dev then
    match update_first (fun r => root_id r =? deviceid dev)
                       (set_root_generation gen) (rows ts) with
    | Some rs => {| rows := rs; next_node := next_node ts |}
    | None =>
        append_root (deviceid dev) (name dev) (use dev)
          (Some (if use dev =? XIMasterPointer then ICON_MOUSE
                 else ICON_KEYBOARD))
          gen ts
    end
  else ts.

Definition master_pass (gen : Z) (devices : list XIDeviceInfo)
    (ts : GtkTreeStore) : GtkTreeStore :=
  fold_left (master_step gen) devices ts.

(** The search for the "Floating" row, whose id and use are [fid]: it is
    appended when missing, and otherwise moved behind the last top-level
    row ([gtk_tree_store_move_after (store, &pos, &prev)], which does
    nothing when it is the last one already) and stamped. *)
Definition floating_pass (fid : Z) (gen : Z) (ts : GtkTreeStore)
    : GtkTreeStore :=
  match find_root fid (rows ts) with
  | None => append_root fid "Floating" fid (Some ICON_FLOATING) gen ts
  | Some (before, f, after) =>
      {| rows := before ++ after ++ [set_root_generation gen f];
         next_node := next_node ts |}
  end.

(** The inner walk of the second loop, below the master that was found:
    the child with the device's id is stamped, or a new child is
    appended (with no icon). *)
Definition attach (n : nat) (gen : Z) (dev : XIDeviceInfo) (r : Root)
    : Root * nat :=
  match update_first (fun c => COL_ID c =? deviceid dev)
                     (set_generation gen) (children r) with
  | Some cs => (set_children cs r, n)
  | None =>
      (set_children
         (children r ++
          [ {| node := n; COL_ID := deviceid dev; COL_NAME := name dev;
               COL_USE := use dev; COL_ICON := None;
               COL_GENERATION := gen |} ]) r,
       S n)
  end.

(** The outer walk of the second loop: the first top-level row that
    [found] accepts takes the device; when none does, nothing happens. *)
Fixpoint slave_walk (found : Z -> bool) (n : nat) (gen : Z)
    (dev : XIDeviceInfo) (rs : list Root) : list Root * nat :=
  match rs with
  | [] => ([], n)
  | r :: rs' =>
      if found (root_id r) then
        let (r', n') := attach n gen dev r in (r' :: rs', n')
      else
        let (rs'', n') := slave_walk found n gen dev rs' in (r :: rs'', n')
  end.

(** The sweep: below every top-level row the stale children go first,
    then the row itself (and with it whatever is below it). *)
Fixpoint sweep_children (gen : Z) (cs : list Row) : list Row :=
  match cs with
  | [] => []
  | c :: cs' =>
      if COL_GENERATION c <? gen then sweep_children gen cs'
      else c :: sweep_children gen cs'
  end.

Fixpoint sweep (gen : Z) (rs : list Root) : list Root :=
  match rs with
  | [] => []
  | r :: rs' =>
      let r' := set_children (sweep_children gen (children r)) r in
      if root_gen r <? gen then sweep gen rs'
      else r' :: sweep gen rs'
  end.

Definition sweep_store (gen : Z) (ts : GtkTreeStore) : GtkTreeStore :=
  {| rows := sweep gen (rows ts); next_node := next_node ts |}.

End Refresh.

Import Refresh.

(** ** The current version (lines 1-807) *)

Module Immediate.

Definition ID_FLOATING : Z := -1.

(** Test of the second loop: is the top-level row [masterid] the master
    of [dev]? *)
Definition found_master (dev : XIDeviceInfo) (masterid : Z) : bool :=
  (attachment dev =? masterid)
  || ((use dev =? XIFloatingSlave) && (masterid =? ID_FLOATING)).

Definition slave_step (gen : Z) (ts : GtkTreeStore) (dev : XIDeviceInfo)
    : GtkTreeStore :=
  if is_master dev then ts
  else
    let (rs, n) :=
      slave_walk (found_master dev) (next_node ts) gen dev (rows ts) in
    {| rows := rs; next_node := n |}.

Definition slave_pass (gen : Z) (devices : list XIDeviceInfo)
    (ts : GtkTreeStore) : GtkTreeStore :=
  fold_left (slave_step gen) devices ts.

(** The body of [query_devices] once the generation is incremented and
    the devices are known: [reconcile gen devices ts] is the store
    afterwards. *)
Definition reconcile (gen : Z) (devices : list XIDeviceInfo)
    (ts : GtkTreeStore) : GtkTreeStore :=
  sweep_store gen
    (slave_pass gen devices
       (floating_pass ID_FLOATING gen
          (master_pass gen devices ts))).

(** [query_devices]: the store is the view's model, or a new one while
    there is no view; it is updated in place and returned. *)
Definition query_devices (gds : GDeviceSetup) : GtkTreeStore * GDeviceSetup :=
  let treestore := match treeview gds with
                   | Some ts => ts
                   | None => gtk_tree_store_new
                   end in
  let gen := generation gds + 1 in
  let ts' := reconcile gen (XIQueryDevice (dpy gds)) treestore in
  (ts',
   {| dpy := dpy gds; changes := changes gds;
      treeview := match treeview gds with
                  | Some _ => Some ts'
                  | None => None
                  end;
      window := window gds; generation := gen |}).

(** [get_tree_view], with the assignment [gds.treeview = ...] that [main]
    makes of its result. *)
Definition get_tree_view (gds : GDeviceSetup) : GDeviceSetup :=
  let (ts, gds') := query_devices gds in set_treeview (Some ts) gds'.

(** The four hierarchy changes.  Each is sent inside an error trap; the
    result is [True] when the server raised no error. *)
Definition send (c : XIAnyHierarchyChangeInfo) (gds : GDeviceSetup)
    : bool * GDeviceSetup :=
  let d := XIChangeHierarchy (dpy gds) [c] in
  (negb (x_error d (requests d)), set_dpy d gds).

Definition change_attachment (gds : GDeviceSetup) (id id_to : Z)
    : bool * GDeviceSetup :=
  send (XIAttachSlave id id_to) gds.

Definition float_device (gds : GDeviceSetup) (id : Z) : bool * GDeviceSetup :=
  send (XIDetachSlave id) gds.

Definition remove_master (gds : GDeviceSetup) (id : Z) : bool * GDeviceSetup :=
  send (XIRemoveMaster id XIAttachToMaster (Some 2) (Some 3)) gds.

Definition create_master (gds : GDeviceSetup) (nm : string)
    : bool * GDeviceSetup :=
  send (XIAddMaster nm true true) gds.

Definition toggle_undo_button (enable : bool) (gds : GDeviceSetup)
    : GDeviceSetup :=
  set_window {| apply_sensitive := apply_sensitive (window gds);
                cancel_sensitive := enable |} gds.

(** [signal_dnd_recv].  [sel] is the selected row, if any; [dest] is the
    row under the drop and the drop position, if there is a row. *)
Definition signal_dnd_recv (sel : option nat)
    (dest : option (nat * GtkTreeViewDropPosition)) (gds : GDeviceSetup)
    : GDeviceSetup :=
  match treeview gds with
  | None => gds
  | Some model =>
      match sel with
      | None => gds
      | Some sel_iter =>
          match row_at model sel_iter with
          | None => gds
          | Some s =>
              let id := COL_ID s in
              let use := COL_USE s in
              if (use =? XIMasterPointer) || (use =? XIMasterKeyboard)
              then gds
              else
                match dest with
                | None => gds
                | Some (dest_iter, _) =>
                    match top_level_of model dest_iter with
                    | None => gds
                    | Some final_parent =>
                        let md_id := root_id final_parent in
                        let (status, gds1) :=
                          if md_id =? ID_FLOATING then float_device gds id
                          else change_attachment gds id md_id in
                        if status
                        then toggle_undo_button true (snd (query_devices gds1))
                        else gds1
                    end
                end
          end
      end
  end.

(** [apply].  [malloc_ok] tells whether the array could be allocated.
    The result is [None] when the copy loop reads an element that is not
    a change. *)
Definition apply (malloc_ok : bool) (gds : GDeviceSetup)
    : option GDeviceSetup :=
  match changes gds with
  | [] => Some gds
  | _ :: _ =>
      if negb malloc_ok then Some gds
      else
        match gather (changes gds) with
        | None => None
        | Some all_changes =>
            let d := XIChangeHierarchy (dpy gds) all_changes in
            Some (snd (query_devices (set_changes [] (set_dpy d gds))))
        end
  end.

(** [signal_new_md], once the dialog has answered: [Some nm] for "ok"
    with the name typed in. *)
Definition signal_new_md (answer : option string) (gds : GDeviceSetup)
    : GDeviceSetup :=
  match answer with
  | Some nm => snd (query_devices (snd (create_master gds nm)))
  | None => gds
  end.

(** [signal_popup_activate]: the selected master is removed. *)
Definition signal_popup_activate (sel : option nat) (gds : GDeviceSetup)
    : GDeviceSetup :=
  match treeview gds with
  | None => gds
  | Some model =>
      match sel with
      | None => gds
      | Some iter =>
          match row_at model iter with
          | None => gds
          | Some s =>
              snd (query_devices (snd (remove_master gds (COL_ID s))))
          end
      end
  end.

(** [signal_button_press] for a press of button [button] over the row
    [at_pos]: whether the event was handled, the row it selected and the
    popup menu it opened. *)
Definition signal_button_press (is_press : bool) (button : Z)
    (at_pos : option nat) (gds : GDeviceSetup)
    : bool * option nat * option MenuItem :=
  if is_press && (button =? 3) then
    match at_pos, treeview gds with
    | Some iter, Some model =>
        match row_at model iter with
        | Some s =>
            let id := COL_ID s in
            let use := COL_USE s in
            if (use =? XIMasterPointer) || (use =? XIMasterKeyboard) then
              (true, Some iter,
               Some {| label := "Remove";
                       sensitive := negb ((id =? 2) || (id =? 3)) |})
            else (true, Some iter, None)
        | None => (true, None, None)
        end
    | _, _ => (true, None, None)
    end
  else (false, None, None).

(** A right click on the row [iter] followed by a click on the menu's
    "Remove": the item's "activate" handler runs only if the item is
    sensitive. *)
Definition request_remove_master (iter : nat) (gds : GDeviceSetup)
    : GDeviceSetup :=
  match signal_button_press true 3 (Some iter) gds with
  | (_, sel, Some item) =>
      if sensitive item then signal_popup_activate sel gds else gds
  | (_, _, None) => gds
  end.

(** One turn of [main]'s loop: the dialog's response, and for "close"
    with unapplied changes whether the user answered "no" to quitting.
    The result holds the value of [loop]. *)
Definition main_response (response : GtkResponse) (answer_no : bool)
    (gds : GDeviceSetup) : GDeviceSetup * bool :=
  match response with
  | GTK_RESPONSE_HELP => (gds, true)
  | GTK_RESPONSE_CANCEL => (toggle_undo_button false gds, true)
  | GTK_RESPONSE_CLOSE =>
      match changes gds with
      | [] => (gds, false)
      | _ :: _ => (gds, answer_no)
      end
  | GTK_RESPONSE_DELETE_EVENT => (gds, false)
  | GTK_RESPONSE_APPLY => (gds, true)
  end.

(** [main] up to its loop. *)
Definition main_start (d : Display) : GDeviceSetup :=
  get_tree_view (toggle_undo_button false (gds_init d)).

(** What can happen while the dialog runs: a drop, the "create" button
    with the name dialog's answer, a right click with "Remove", a response
    of the dialog. *)
Inductive Event :=
| Drop (sel : option nat) (dest : option (nat * GtkTreeViewDropPosition))
| NewMaster (answer : option string)
| RemoveMaster (iter : nat)
| Respond (response : GtkResponse) (answer_no : bool).

Definition handle (gds : GDeviceSetup) (e : Event) : GDeviceSetup :=
  match e with
  | Drop sel dest => signal_dnd_recv sel dest gds
  | NewMaster answer => signal_new_md answer gds
  | RemoveMaster iter => request_remove_master iter gds
  | Respond response answer_no => fst (main_response response answer_no gds)
  end.

Definition run (d : Display) (events : list Event) : GDeviceSetup :=
  fold_left handle events (main_start d).

End Immediate.

(** ** The older version (lines 808-1582) *)

Module Staged.

(** The second loop here compares the top-level row's id with the
    device's own id, and leaves after the first slave device. *)
Fixpoint slave_pass (gen : Z) (devices : list XIDeviceInfo)
    (ts : GtkTreeStore) : GtkTreeStore :=
  match devices with
  | [] => ts
  | dev :: devices' =>
      if is_master dev then slave_pass gen devices' ts
      else
        let (rs, n) :=
          slave_walk (fun masterid => masterid =? deviceid dev)
                     (next_node ts) gen dev (rows ts) in
        {| rows := rs; next_node := n |}
  end.

(** The "Floating" row carries [XIFloatingSlave] as id and use. *)
Definition reconcile (gen : Z) (devices : list XIDeviceInfo)
    (ts : GtkTreeStore) : GtkTreeStore :=
  sweep_store gen
    (slave_pass gen devices
       (floating_pass XIFloatingSlave gen
          (master_pass gen devices ts))).

Definition query_devices (gds : GDeviceSetup) : GtkTreeStore * GDeviceSetup :=
  let treestore := match treeview gds with
                   | Some ts => ts
                   | None => gtk_tree_store_new
                   end in
  let gen := generation gds + 1 in
  let ts' := reconcile gen (XIQueryDevice (dpy gds)) treestore in
  (ts',
   {| dpy := dpy gds; changes := changes gds;
      treeview := match treeview gds with
                  | Some _ => Some ts'
                  | None => None
                  end;
      window := window gds; generation := gen |}).

Definition get_tree_view (gds : GDeviceSetup) : GDeviceSetup :=
  let (ts, gds') := query_devices gds in set_treeview (Some ts) gds'.

(** [change_attachment] sends the change itself and returns what
    [XIChangeHierarchy] returned. *)
Definition change_attachment (gds : GDeviceSetup) (id id_to : Z)
    : Z * GDeviceSetup :=
  (Success, set_dpy (XIChangeHierarchy (dpy gds) [XIAttachSlave id id_to]) gds).

Definition remove_master (gds : GDeviceSetup) (id : Z) : GDeviceSetup :=
  set_dpy (XIChangeHierarchy (dpy gds) [XIRemoveMaster id XIFloating None None])
          gds.

Definition create_master (gds : GDeviceSetup) (nm : string) : GDeviceSetup :=
  set_dpy (XIChangeHierarchy (dpy gds) [XIAddMaster nm true true]) gds.

Definition toggle_cancelapply_buttons (enable : bool) (gds : GDeviceSetup)
    : GDeviceSetup :=
  set_window {| apply_sensitive := enable; cancel_sensitive := enable |} gds.

(** The test on the uses of the dragged row and of its new parent:
    [true] when the handler returns. *)
Definition role_mismatch (use md_use : Z) : bool :=
  negb (md_use =? XIFloatingSlave)
  && (((use =? XISlavePointer) && negb (md_use =? XIMasterPointer))
      || ((use =? XISlaveKeyboard) && negb (md_use =? XIMasterKeyboard))).

Definition signal_dnd_recv (sel : option nat)
    (dest : option (nat * GtkTreeViewDropPosition)) (gds : GDeviceSetup)
    : GDeviceSetup :=
  match treeview gds with
  | None => gds
  | Some model =>
      match sel with
      | None => gds
      | Some sel_iter =>
          match row_at model sel_iter with
          | None => gds
          | Some s =>
              let nm := COL_NAME s in
              let id := COL_ID s in
              let use := COL_USE s in
              if (use =? XIMasterPointer) || (use =? XIMasterKeyboard)
              then gds
              else
                match dest with
                | None => gds
                | Some (dest_iter, pos) =>
                    match top_level_of model dest_iter with
                    | None => gds
                    | Some final_parent =>
                        let final_sib :=
                          if is_top_level model dest_iter then None
                          else Some dest_iter in
                        let md_id := root_id final_parent in
                        let md_use := COL_USE (root_row final_parent) in
                        if role_mismatch use md_use then gds
                        else
                          let after :=
                            match pos with
                            | GTK_TREE_VIEW_DROP_BEFORE
                            | GTK_TREE_VIEW_DROP_INTO_OR_BEFORE => false
                            | GTK_TREE_VIEW_DROP_AFTER
                            | GTK_TREE_VIEW_DROP_INTO_OR_AFTER => true
                            end in
                          let (ins_iter, m1) :=
                            gtk_tree_store_insert after
                              (node (root_row final_parent)) final_sib model in
                          let m2 := set_id_name_use ins_iter id nm use m1 in
                          let m3 := gtk_tree_store_remove sel_iter m2 in
                          let (ret, gds1) := change_attachment gds id md_id in
                          toggle_cancelapply_buttons true
                            (set_changes (changes gds1 ++ [IntPtr ret])
                               (set_treeview (Some m3) gds1))
                    end
                end
          end
      end
  end.

Definition apply (malloc_ok : bool) (gds : GDeviceSetup)
    : option GDeviceSetup :=
  match changes gds with
  | [] => Some gds
  | _ :: _ =>
      if negb malloc_ok then Some gds
      else
        match gather (changes gds) with
        | None => None
        | Some all_changes =>
            let d := XIChangeHierarchy (dpy gds) all_changes in
            Some (snd (query_devices (set_changes [] (set_dpy d gds))))
        end
  end.

Definition signal_new_md (answer : option string) (gds : GDeviceSetup)
    : GDeviceSetup :=
  match answer with
  | Some nm => snd (query_devices (create_master gds nm))
  | None => gds
  end.

Definition signal_popup_activate (sel : option nat) (gds : GDeviceSetup)
    : GDeviceSetup :=
  match treeview gds with
  | None => gds
  | Some model =>
      match sel with
      | None => gds
      | Some iter =>
          match row_at model iter with
          | None => gds
          | Some s => snd (query_devices (remove_master gds (COL_ID s)))
          end
      end
  end.

Definition signal_button_press (is_press : bool) (button : Z)
    (at_pos : option nat) (gds : GDeviceSetup)
    : bool * option nat * option MenuItem :=
  if is_press && (button =? 3) then
    match at_pos, treeview gds with
    | Some iter, Some model =>
        match row_at model iter with
        | Some s =>
            let id := COL_ID s in
            let use := COL_USE s in
            if (use =? XIMasterPointer) || (use =? XIMasterKeyboard)
               || (use =? XIFloatingSlave) then
              (true, Some iter,
               Some {| label := "Remove";
                       sensitive :=
                         negb ((id <? 2) || (use =? XIFloatingSlave)) |})
            else (true, Some iter, None)
        | None => (true, None, None)
        end
    | _, _ => (true, None, None)
    end
  else (false, None, None).

Definition request_remove_master (iter : nat) (gds : GDeviceSetup)
    : GDeviceSetup :=
  match signal_button_press true 3 (Some iter) gds with
  | (_, sel, Some item) =>
      if sensitive item then signal_popup_activate sel gds else gds
  | (_, _, None) => gds
  end.

(** One turn of [main]'s loop.  [malloc_ok] is for the "apply" turn; the
    result is [None] when [apply] reads an element that is not a
    change. *)
Definition main_response (response : GtkResponse) (answer_no : bool)
    (malloc_ok : bool) (gds : GDeviceSetup) : option (GDeviceSetup * bool) :=
  match response with
  | GTK_RESPONSE_HELP => Some (gds, true)
  | GTK_RESPONSE_CANCEL =>
      Some (toggle_cancelapply_buttons false
              (set_changes [] (snd (query_devices gds))), true)
  | GTK_RESPONSE_CLOSE =>
      match changes gds with
      | [] => Some (gds, false)
      | _ :: _ => Some (gds, answer_no)
      end
  | GTK_RESPONSE_APPLY =>
      match apply malloc_ok gds with
      | Some gds' => Some (toggle_cancelapply_buttons false gds', true)
      | None => None
      end
  | GTK_RESPONSE_DELETE_EVENT => Some (gds, false)
  end.

Definition main_start (d : Display) : GDeviceSetup :=
  get_tree_view (toggle_cancelapply_buttons false (gds_init d)).

End Staged.

(** ** The vocabulary of the statements *)

Module Tree.

Import Immediate.

(** Ids of the master devices of a device list. *)
Definition master_ids (devices : list XIDeviceInfo) : list Z :=
  map deviceid (filter is_master devices).

(** The top-level row a slave device belongs below, by the server's
    report: the "Floating" row for a floating slave, its master
    otherwise. *)
Definition parent_id (dev : XIDeviceInfo) : Z :=
  if use dev =? XIFloatingSlave then ID_FLOATING else attachment dev.

(** A device list as the server reports one: ids are positive, a
    floating slave has attachment 0 and any other slave is attached to a
    master of the list. *)
Definition well_formed_device (devices : list XIDeviceInfo)
    (dev : XIDeviceInfo) : bool :=
  (0 <? deviceid dev)
  && (is_master dev
      || (if use dev =? XIFloatingSlave then attachment dev =? 0
          else existsb (fun m => is_master m && (deviceid m =? attachment dev))
                       devices)).

Definition well_formed (devices : list XIDeviceInfo) : bool :=
  forallb (well_formed_device devices) devices.

Fixpoint distinct (l : list Z) : bool :=
  match l with
  | [] => true
  | x :: l' => negb (existsb (Z.eqb x) l') && distinct l'
  end.

(** What holds of the store between two refreshes when [gen] is the
    session's generation: no stamp is ahead of [gen], no top-level id is
    0 or repeated, and no id is repeated below one top-level row. *)
Definition root_ok (gen : Z) (r : Root) : bool :=
  (root_gen r <=? gen)
  && negb (root_id r =? 0)
  && distinct (map COL_ID (children r))
  && forallb (fun c => COL_GENERATION c <=? gen) (children r).

Definition store_ok (gen : Z) (ts : GtkTreeStore) : bool :=
  distinct (map root_id (rows ts)) && forallb (root_ok gen) (rows ts).

(** The device ids the tree shows: every row's id, the top-level
    "Floating" row apart. *)
Definition device_ids (ts : GtkTreeStore) : list Z :=
  flat_map (fun r => (if root_id r =? ID_FLOATING then [] else [root_id r])
                     ++ map COL_ID (children r))
           (rows ts).

Definition root_ids (ts : GtkTreeStore) : list Z := map root_id (rows ts).

(** The pairs (id of a top-level row, id of a row below it). *)
Definition edges (ts : GtkTreeStore) : list (Z * Z) :=
  flat_map (fun r => map (fun c => (root_id r, COL_ID c)) (children r))
           (rows ts).

(** Every stamp in the store. *)
Definition generations (ts : GtkTreeStore) : list Z :=
  flat_map (fun r => root_gen r :: map COL_GENERATION (children r)) (rows ts).

(** The same store with every stamp replaced by [gen]. *)
Definition restamp_root (gen : Z) (r : Root) : Root :=
  {| root_row := set_generation gen (root_row r);
     children := map (set_generation gen) (children r) |}.

Definition restamp (gen : Z) (ts : GtkTreeStore) : GtkTreeStore :=
  {| rows := map (restamp_root gen) (rows ts); next_node := next_node ts |}.

(** The store and generation after a series of refreshes of a new
    store, one per device list. *)
Definition refresh (s : Z * GtkTreeStore) (devices : list XIDeviceInfo)
    : Z * GtkTreeStore :=
  (fst s + 1, reconcile (fst s + 1) devices (snd s)).

Definition refreshes (lists : list (list XIDeviceInfo)) : Z * GtkTreeStore :=
  fold_left refresh lists (0, gtk_tree_store_new).

(** The invariant of one top-level row in the middle of a refresh with
    generation [gen]: [idr] holds of its id, and a row stamped [gen] has
    an id accepted by [okr] (top level) or [okc] (below). *)
Definition child_inv (gen : Z) (okc : Z -> Z -> Prop) (p : Z) (c : Row) : Prop :=
  COL_GENERATION c <= gen /\ (COL_GENERATION c = gen -> okc p (COL_ID c)).

Definition root_inv (gen : Z) (idr okr : Z -> Prop) (okc : Z -> Z -> Prop)
    (r : Root) : Prop :=
  idr (root_id r)
  /\ root_gen r <= gen
  /\ (root_gen r = gen -> okr (root_id r))
  /\ NoDup (map COL_ID (children r))
  /\ Forall (child_inv gen okc (root_id r)) (children r).

Definition rows_inv (gen : Z) (idr okr : Z -> Prop) (okc : Z -> Z -> Prop)
    (rs : list Root) : Prop :=
  NoDup (map root_id rs) /\ Forall (root_inv gen idr okr okc) rs.

(** A top-level row with id [x], or a row with id [x] below the
    top-level row [p], that this refresh has stamped. *)
Definition has_root (gen : Z) (x : Z) (rs : list Root) : Prop :=
  exists r, In r rs /\ root_id r = x /\ root_gen r = gen.

Definition has_child (gen : Z) (p x : Z) (rs : list Root) : Prop :=
  exists r, In r rs /\ root_id r = p /\ root_gen r = gen
            /\ exists c, In c (children r) /\ COL_ID c = x
                         /\ COL_GENERATION c = gen.

(** The "Floating" row is the last top-level row and carries [gen]. *)
Definition floating_last (gen : Z) (rs : list Root) : Prop :=
  exists l f, rs = l ++ [f] /\ root_id f = ID_FLOATING /\ root_gen f = gen.

(** The ids this refresh may stamp. *)
Definition okr_of (devices : list XIDeviceInfo) (x : Z) : Prop :=
  x = ID_FLOATING \/ In x (master_ids devices).

Definition okc_of (devices : list XIDeviceInfo) (p c : Z) : Prop :=
  exists d, In d devices /\ is_master d = false /\ deviceid d = c
            /\ found_master d p = true.

(** The top-level row [r0] of the store before the pass is still there:
    some top-level row has its columns, but for the stamp, and below it
    every row that was below [r0], but for the stamp. *)
Definition kept (gen : Z) (r0 : Root) (rs : list Root) : Prop :=
  exists r, In r rs
            /\ (root_row r = root_row r0
                \/ root_row r = set_generation gen (root_row r0))
            /\ forall c, In c (children r0) ->
                 In c (children r) \/ In (set_generation gen c) (children r).

(** The nodes of the rows, at either level, whose id is [id]. *)
Definition nodes_of (id : Z) (ts : GtkTreeStore) : list nat :=
  map node (filter (fun c => COL_ID c =? id) (all_rows (rows ts))).

(** Nodes tell rows apart: no two rows of the store share one, and the
    store has not handed out [next_node] or anything above yet. *)
Definition nodes (rs : list Root) : list nat := map node (all_rows rs).

Definition nodes_ok (rs : list Root) (n : nat) : Prop :=
  NoDup (nodes rs) /\ Forall (fun m => (m < n)%nat) (nodes rs).

(** What holds of the current version's session while the dialog runs:
    nothing is queued, and the tree behind the view has distinct top-level
    ids, distinct ids below each top-level row, distinct nodes, no stamp
    ahead of the session's generation, and the "Floating" row last. *)
Definition session_ok (gds : GDeviceSetup) : Prop :=
  changes gds = []
  /\ exists ts,
       treeview gds = Some ts
       /\ rows_inv (generation gds) (fun _ => True) (fun _ => True)
                   (fun _ _ => True) (rows ts)
       /\ floating_last (generation gds) (rows ts)
       /\ nodes_ok (rows ts) (next_node ts).

(** The ids of a store, level by level. *)
Definition skeleton (rs : list Root) : list (Z * list Z) :=
  map (fun r => (root_id r, map COL_ID (children r))) rs.

(** The store shows exactly [devices]. *)
Definition synced (devices : list XIDeviceInfo) (rs : list Root) : Prop :=
  NoDup (map root_id rs)
  /\ Forall (fun r => root_id r <> 0 /\ NoDup (map COL_ID (children r))) rs
  /\ (exists l f, rs = l ++ [f] /\ root_id f = ID_FLOATING)
  /\ (forall r, In r rs -> okr_of devices (root_id r))
  /\ (forall r c, In r rs -> In c (children r) ->
        okc_of devices (root_id r) (COL_ID c))
  /\ (forall d, In d devices -> is_master d = true ->
        In (deviceid d) (map root_id rs))
  /\ (forall d, In d devices -> is_master d = false ->
        exists r, In r rs /\ root_id r = parent_id d
                  /\ In (deviceid d) (map COL_ID (children r))).

End Tree.

Import Tree.

(** ** The sessions of the older version *)

Module StagedRun.

(** What can happen while the dialog of the older version runs.  A
    response carries the answer to the "quit?" question and whether
    [apply] gets its array. *)
Inductive Event :=
| Drop (sel : option nat) (dest : option (nat * GtkTreeViewDropPosition))
| NewMaster (answer : option string)
| RemoveMaster (iter : nat)
| Respond (response : GtkResponse) (answer_no malloc_ok : bool).

(** [None] when [apply] reads an element that is not a change. *)
Definition handle (gds : GDeviceSetup) (e : Event) : option GDeviceSetup :=
  match e with
  | Drop sel dest => Some (Staged.signal_dnd_recv sel dest gds)
  | NewMaster answer => Some (Staged.signal_new_md answer gds)
  | RemoveMaster iter => Some (Staged.request_remove_master iter gds)
  | Respond response answer_no malloc_ok =>
      match Staged.main_response response answer_no malloc_ok gds with
      | Some (gds', _) => Some gds'
      | None => None
      end
  end.

Fixpoint run_from (gds : GDeviceSetup) (events : list Event)
    : option GDeviceSetup :=
  match events with
  | [] => Some gds
  | e :: events' =>
      match handle gds e with
      | Some gds' => run_from gds' events'
      | None => None
      end
  end.

Definition run (d : Display) (events : list Event) : option GDeviceSetup :=
  run_from (Staged.main_start d) events.

End StagedRun.

(** ** More vocabulary *)

Module More.

Import Immediate.

Definition master_use (u : Z) : bool :=
  (u =? XIMasterPointer) || (u =? XIMasterKeyboard).

(** [Qr] holds of every top-level row and [Qc] of every row below. *)
Definition rows_all (Qr Qc : Row -> Prop) (rs : list Root) : Prop :=
  Forall (fun r => Qr (root_row r) /\ Forall Qc (children r)) rs.

(** The row a refresh fills for the device [dev], at the top level or
    below, and the "Floating" row it makes. *)
Definition master_row (n : nat) (gen : Z) (dev : XIDeviceInfo) : Row :=
  {| node := n; COL_ID := deviceid dev; COL_NAME := name dev;
     COL_USE := use dev;
     COL_ICON := Some (if use dev =? XIMasterPointer then ICON_MOUSE
                       else ICON_KEYBOARD);
     COL_GENERATION := gen |}.

Definition slave_row (n : nat) (gen : Z) (dev : XIDeviceInfo) : Row :=
  {| node := n; COL_ID := deviceid dev; COL_NAME := name dev;
     COL_USE := use dev; COL_ICON := None; COL_GENERATION := gen |}.

Definition bucket_row (fid : Z) (n : nat) (gen : Z) : Row :=
  {| node := n; COL_ID := fid; COL_NAME := "Floating"; COL_USE := fid;
     COL_ICON := Some ICON_FLOATING; COL_GENERATION := gen |}.

(** Where a row of the store after a refresh comes from: it is a row of
    the store before, with at most the stamp changed, or it was appended
    by the pass, on a node the store had not handed out, from a device of
    the list or as the "Floating" row. *)
Definition old_or_made (fid gen : Z) (devices : list XIDeviceInfo)
    (ts0 : GtkTreeStore) (c : Row) : Prop :=
  (exists c0, In c0 (all_rows (rows ts0))
              /\ (c = c0 \/ c = set_generation gen c0))
  \/ (exists n, (next_node ts0 <= n)%nat
                /\ ((exists d, In d devices /\ is_master d = true
                               /\ c = master_row n gen d)
                    \/ (exists d, In d devices /\ is_master d = false
                                  /\ c = slave_row n gen d)
                    \/ c = bucket_row fid n gen)).

(** No stamp of the store is above [g]. *)
Definition stamps_below (g : Z) (ts : GtkTreeStore) : bool :=
  forallb (fun s => s <=? g) (generations ts).

(** The requests the current version sends: one change each, an attach to
    a row other than "Floating", a detach, a master to add, or the removal
    of a master other than 2 and 3 whose slaves go to 2 and 3. *)
Definition immediate_request (r : list XIAnyHierarchyChangeInfo) : bool :=
  match r with
  | [XIAttachSlave _ new_master] => negb (new_master =? ID_FLOATING)
  | [XIDetachSlave _] => true
  | [XIAddMaster _ true true] => true
  | [XIRemoveMaster id mode (Some p) (Some k)] =>
      (mode =? XIAttachToMaster) && (p =? 2) && (k =? 3)
      && negb (id =? 2) && negb (id =? 3)
  | _ => false
  end.

(** The requests the older version sends: one change each, an attach, a
    master to add, or the removal of a master with id 2 or above whose
    slaves are to float.  There is no detach. *)
Definition staged_request (r : list XIAnyHierarchyChangeInfo) : bool :=
  match r with
  | [XIAttachSlave _ _] => true
  | [XIAddMaster _ true true] => true
  | [XIRemoveMaster id mode None None] => (mode =? XIFloating) && (2 <=? id)
  | _ => false
  end.

(** The store and generation of the older version after a series of
    refreshes of a new store. *)
Definition staged_refresh (s : Z * GtkTreeStore) (devices : list XIDeviceInfo)
    : Z * GtkTreeStore :=
  (fst s + 1, Staged.reconcile (fst s + 1) devices (snd s)).

Definition staged_refreshes (lists : list (list XIDeviceInfo))
    : Z * GtkTreeStore :=
  fold_left staged_refresh lists (0, gtk_tree_store_new).

(** The device list [l] is an answer the server gave on this connection:
    its answer after some first part of the requests sent so far. *)
Definition answered (d : Display) (l : list XIDeviceInfo) : Prop :=
  exists h t, requests d = h ++ t /\ l = XIQueryDevice_reply d h.

(** The tree behind the view is what a series of refreshes of a new
    store makes of answers of the server, and the generation counts
    them. *)
Definition tree_from_server (gds : GDeviceSetup) : Prop :=
  exists lists,
    lists <> []
    /\ treeview gds = Some (snd (refreshes lists))
    /\ generation gds = fst (refreshes lists)
    /\ Forall (answered (dpy gds)) lists.

(** Two session states that differ at most in which buttons can be
    clicked. *)
Definition same_but_window (a b : GDeviceSetup) : Prop :=
  dpy a = dpy b /\ changes a = changes b /\ treeview a = treeview b
  /\ generation a = generation b.

(** The requests sent since the display [d0] was opened. *)
Definition sent_since (d0 d : Display)
    (l : list (list XIAnyHierarchyChangeInfo)) : Prop :=
  requests d = requests d0 ++ l
  /\ XIQueryDevice_reply d = XIQueryDevice_reply d0
  /\ x_error d = x_error d0.

(** The pairs of [edges], of a level list. *)
Definition edges_of (rs : list Root) : list (Z * Z) :=
  flat_map (fun r => map (fun c => (root_id r, COL_ID c)) (children r)) rs.

(** The first device of the list that is not a master: the one the second
    loop of the older version stops at. *)
Definition first_slave (devices : list XIDeviceInfo) : option XIDeviceInfo :=
  find (fun d => negb (is_master d)) devices.

(** The top level a refresh of the current version leaves: the rows the
    tree had whose id is a master of the list, in the order they had,
    then the masters of the list that the tree did not have, in the order
    of the list, then "Floating". *)
Definition mem (x : Z) (l : list Z) : bool := existsb (Z.eqb x) l.

Definition top_level_after (devices : list XIDeviceInfo) (ts : GtkTreeStore)
    : list Z :=
  filter (fun x => mem x (master_ids devices))
         (filter (fun x => negb (x =? ID_FLOATING)) (root_ids ts))
  ++ filter (fun x => negb (mem x (root_ids ts))) (master_ids devices)
  ++ [ID_FLOATING].

(** Where the rows below the top-level row [r] come from, [ts0] being the
    store before the pass: a row below [r] has the id of a row that was
    below a top-level row with the id of [r], or it lies on a node that
    [ts0] had not handed out. *)
Definition child_origin (ts0 : GtkTreeStore) (r : Root) : Prop :=
  forall c, In c (children r) ->
    (exists r0 c0, In r0 (rows ts0) /\ root_id r0 = root_id r
                   /\ In c0 (children r0) /\ COL_ID c0 = COL_ID c)
    \/ (next_node ts0 <= node c)%nat.

End More.

Import More.

(** ** A small server *)

Module Example.

Definition vcp : XIDeviceInfo :=
  {| deviceid := 2; name := "Virtual core pointer";
     use := XIMasterPointer; attachment := 3 |}.

Definition vck : XIDeviceInfo :=
  {| deviceid := 3; name := "Virtual core keyboard";
     use := XIMasterKeyboard; attachment := 2 |}.

Definition aux_pointer : XIDeviceInfo :=
  {| deviceid := 4; name := "aux pointer";
     use := XIMasterPointer; attachment := 5 |}.

Definition aux_keyboard : XIDeviceInfo :=
  {| deviceid := 5; name := "aux keyboard";
     use := XIMasterKeyboard; attachment := 4 |}.

Definition mouse : XIDeviceInfo :=
  {| deviceid := 9; name := "mouse"; use := XISlavePointer; attachment := 2 |}.

Definition mouse_moved : XIDeviceInfo :=
  {| deviceid := 9; name := "mouse"; use := XISlavePointer; attachment := 4 |}.

Definition tablet : XIDeviceInfo :=
  {| deviceid := 10; name := "tablet"; use := XIFloatingSlave;
     attachment := 0 |}.

(** Two masters and one mouse attached to the pointer. *)
Definition devices : list XIDeviceInfo := [vcp; vck; mouse].

(** Four masters, with the mouse below the first pointer, then below
    the second, and a floating tablet. *)
Definition devices_before : list XIDeviceInfo :=
  [vcp; vck; aux_pointer; aux_keyboard; mouse; tablet].

Definition devices_after : list XIDeviceInfo :=
  [vcp; vck; aux_pointer; aux_keyboard; mouse_moved; tablet].

(** A server whose hierarchy never changes: it always reports
    [devices].  [rejects] is its answer to every change. *)
Definition display (rejects : bool) : Display :=
  {| XIQueryDevice_reply := fun _ => devices;
     x_error := fun _ => rejects;
     requests := [] |}.

(** The store after the first refresh of [devices_before]. *)
Definition store_before : GtkTreeStore :=
  Immediate.reconcile 1 devices_before gtk_tree_store_new.

(** Its "Floating" row, with the tablet below it. *)
Definition floating_row : Root :=
  last (rows store_before)
       {| root_row := empty_row 0; children := [] |}.

(** The current version once its window is up: the rows are, by node,
    0 for master 2, 1 for master 3, 2 for "Floating" and 3 for the mouse
    below master 2. *)
Definition session : GDeviceSetup := Immediate.main_start (display true).

Definition pointer_row : Row :=
  {| node := 0; COL_ID := 2; COL_NAME := "Virtual core pointer";
     COL_USE := XIMasterPointer; COL_ICON := Some ICON_MOUSE;
     COL_GENERATION := 1 |}.



(** The older version once its window is up (rows 0, 1 and 2 as above,
    and no row for the mouse), and after the "Floating" row has been
    dropped on master 3. *)
Definition old_session : GDeviceSetup := Staged.main_start (display false).

Definition old_session_staged : GDeviceSetup :=
  Staged.signal_dnd_recv (Some 2%nat)
    (Some (1%nat, GTK_TREE_VIEW_DROP_INTO_OR_AFTER)) old_session.

End Example.

(** ** The older version on the small server *)

Module Example2.

Import Example.

(** The tree of the older version after the "Floating" row has been
    dropped on master 3: the top-level rows of the masters 2 and 3 on the
    nodes 0 and 1, and below master 3 the new row on node 3. *)
Definition staged_tree : GtkTreeStore :=
  match treeview old_session_staged with
  | Some ts => ts
  | None => gtk_tree_store_new
  end.

Definition dragged_row : Row :=
  {| node := 3; COL_ID := 5; COL_NAME := "Floating"; COL_USE := 5;
     COL_ICON := None; COL_GENERATION := 0 |}.

Definition target_root : Root :=
  {| root_row := pointer_row; children := [] |}.

(** That drop, then "help". *)
Definition staged_events : list StagedRun.Event :=
  [StagedRun.Drop (Some 2%nat) (Some (1%nat, GTK_TREE_VIEW_DROP_INTO_OR_AFTER));
   StagedRun.Respond GTK_RESPONSE_HELP false true].

(** The mouse is dropped on master 3. *)
Definition mouse_drop : Immediate.Event :=
  Immediate.Drop (Some 3%nat) (Some (1%nat, GTK_TREE_VIEW_DROP_INTO_OR_AFTER)).

(** The drop alone, and the drop followed by "cancel". *)
Definition drop_events : list StagedRun.Event :=
  [StagedRun.Drop (Some 2%nat) (Some (1%nat, GTK_TREE_VIEW_DROP_INTO_OR_AFTER))].

Definition cancel_events : list StagedRun.Event :=
  drop_events ++ [StagedRun.Respond GTK_RESPONSE_CANCEL false true].

(** In [store_before]: the row of master 2 with the mouse below it, and
    the mouse's row. *)
Definition mouse_row_before : Row :=
  {| node := 5; COL_ID := 9; COL_NAME := "mouse"; COL_USE := XISlavePointer;
     COL_ICON := None; COL_GENERATION := 1 |}.

Definition pointer_root_before : Root :=
  {| root_row := pointer_row; children := [mouse_row_before] |}.

End Example2.

(** ** The walks of one level *)

Section Walks.

Context {A : Type}.
Variables (p : A -> bool) (f : A -> A).

Lemma update_first_none (l : list A) :
  update_first p f l = None -> Forall (fun y => p y = false) l.
Proof.
  induction l as [|x l IH]; simpl; intros H; [constructor|].
  destruct (p x) eqn:Hp; [discriminate|].
  destruct (update_first p f l); [discriminate|].
  constructor; auto.
Qed.

Lemma update_first_some (l l' : list A) :
  update_first p f l = Some l' ->
  exists l1 x l2,
    l = l1 ++ x :: l2 /\ Forall (fun y => p y = false) l1
    /\ p x = true /\ l' = l1 ++ f x :: l2.
Proof.
  revert l'; induction l as [|x l IH]; simpl; intros l' H; [discriminate|].
  destruct (p x) eqn:Hp.
  - inversion H; subst. exists [], x, l. repeat split; auto.
  - destruct (update_first p f l) as [l''|] eqn:E; [|discriminate].
    inversion H; subst.
    destruct (IH _ eq_refl) as (l1 & y & l2 & -> & Hl1 & Hy & ->).
    exists (x :: l1), y, l2. repeat split; auto.
Qed.

End Walks.

Lemma find_root_none (fid : Z) (rs : list Root) :
  find_root fid rs = None -> Forall (fun r => root_id r <> fid) rs.
Proof.
  induction rs as [|r rs IH]; simpl; intros H; [constructor|].
  destruct (Z.eqb_spec (root_id r) fid); [discriminate|].
  destruct (find_root fid rs) as [[[? ?] ?]|]; [discriminate|].
  constructor; auto.
Qed.

Lemma find_root_some (fid : Z) (rs before after : list Root) (f : Root) :
  find_root fid rs = Some (before, f, after) ->
  rs = before ++ f :: after /\ root_id f = fid
  /\ Forall (fun r => root_id r <> fid) before.
Proof.
  revert before; induction rs as [|r rs IH]; simpl; intros before H;
    [discriminate|].
  destruct (Z.eqb_spec (root_id r) fid).
  - inversion H; subst. repeat split; auto.
  - destruct (find_root fid rs) as [[[b f'] a]|] eqn:E; [|discriminate].
    inversion H; subst.
    destruct (IH _ eq_refl) as (-> & Hf & Hb). repeat split; auto.
Qed.

(** The outer walk of the second loop either finds no master, and changes
    nothing, or hands the first accepted row to [attach]. *)
Lemma slave_walk_cases (found : Z -> bool) (n : nat) (gen : Z)
    (dev : XIDeviceInfo) (rs : list Root) :
  (Forall (fun r => found (root_id r) = false) rs
   /\ slave_walk found n gen dev rs = (rs, n))
  \/ (exists l1 r l2,
        rs = l1 ++ r :: l2
        /\ Forall (fun y => found (root_id y) = false) l1
        /\ found (root_id r) = true
        /\ slave_walk found n gen dev rs
           = (l1 ++ fst (attach n gen dev r) :: l2, snd (attach n gen dev r))).
Proof.
  induction rs as [|r rs IH]; simpl.
  - left; split; [constructor | reflexivity].
  - destruct (found (root_id r)) eqn:Hf.
    + right. exists [], r, rs. repeat split; auto.
      destruct (attach n gen dev r); reflexivity.
    + destruct IH as [[Hall ->] | (l1 & x & l2 & -> & Hl1 & Hx & ->)].
      * left; split; [constructor; auto | reflexivity].
      * right. exists (r :: l1), x, l2. repeat split; auto.
Qed.

(** The sweep keeps, in order, what carries the generation of the pass. *)
Lemma sweep_children_filter (gen : Z) (cs : list Row) :
  sweep_children gen cs
  = filter (fun c => negb (COL_GENERATION c <? gen)) cs.
Proof.
  induction cs as [|c cs IH]; simpl; [reflexivity|].
  destruct (COL_GENERATION c <? gen); simpl; rewrite IH; reflexivity.
Qed.

Lemma sweep_filter (gen : Z) (rs : list Root) :
  sweep gen rs
  = map (fun r => set_children (sweep_children gen (children r)) r)
        (filter (fun r => negb (root_gen r <? gen)) rs).
Proof.
  induction rs as [|r rs IH]; simpl; [reflexivity|].
  destruct (root_gen r <? gen); simpl; rewrite IH; reflexivity.
Qed.

Lemma In_sweep_children (gen : Z) (cs : list Row) (c : Row) :
  In c (sweep_children gen cs) <-> In c cs /\ gen <= COL_GENERATION c.
Proof.
  rewrite sweep_children_filter, filter_In.
  destruct (Z.ltb_spec (COL_GENERATION c) gen); simpl; intuition (try lia; try discriminate).
Qed.

Lemma In_sweep (gen : Z) (rs : list Root) (r' : Root) :
  In r' (sweep gen rs) <->
  exists r, In r rs /\ gen <= root_gen r
            /\ r' = set_children (sweep_children gen (children r)) r.
Proof.
  rewrite sweep_filter, in_map_iff. split.
  - intros (r & <- & Hr). apply filter_In in Hr as [Hin Hg].
    exists r. repeat split; auto.
    destruct (Z.ltb_spec (root_gen r) gen); [discriminate | lia].
  - intros (r & Hin & Hg & ->). exists r. split; auto.
    apply filter_In. split; auto.
    destruct (Z.ltb_spec (root_gen r) gen); [lia | reflexivity].
Qed.

Lemma sweep_app (gen : Z) (l1 l2 : list Root) :
  sweep gen (l1 ++ l2) = sweep gen l1 ++ sweep gen l2.
Proof. rewrite !sweep_filter, filter_app, map_app. reflexivity. Qed.

(** ** Lists without repeated keys *)

Lemma NoDup_map_eq {A B : Type} (f : A -> B) (l : list A) (x y : A) :
  NoDup (map f l) -> In x l -> In y l -> f x = f y -> x = y.
Proof.
  induction l as [|a l IH]; simpl; intros Hnd Hx Hy Hxy; [contradiction|].
  inversion Hnd as [|? ? Hna Hnd']; subst.
  destruct Hx as [->|Hx], Hy as [->|Hy]; auto.
  - exfalso; apply Hna. rewrite Hxy. apply in_map; assumption.
  - exfalso; apply Hna. rewrite <- Hxy. apply in_map; assumption.
Qed.

Lemma NoDup_map_filter {A B : Type} (f : A -> B) (q : A -> bool) (l : list A) :
  NoDup (map f l) -> NoDup (map f (filter q l)).
Proof.
  induction l as [|a l IH]; simpl; intros Hnd; [constructor|].
  inversion Hnd as [|? ? Hna Hnd']; subst.
  destruct (q a); simpl; auto.
  constructor; auto.
  intros Hin. apply Hna. apply in_map_iff in Hin as (x & Hx & Hin).
  apply filter_In in Hin as [Hin _]. rewrite <- Hx. apply in_map; assumption.
Qed.

Lemma NoDup_snoc {B : Type} (l : list B) (x : B) :
  NoDup l -> ~ In x l -> NoDup (l ++ [x]).
Proof.
  intros Hnd Hx. apply (Permutation_NoDup (l := x :: l)).
  - apply Permutation_cons_append.
  - constructor; assumption.
Qed.

Lemma distinct_NoDup (l : list Z) : distinct l = true <-> NoDup l.
Proof.
  induction l as [|x l IH]; simpl.
  - split; [constructor | reflexivity].
  - rewrite andb_true_iff, negb_true_iff, IH. split.
    + intros [Hx Hl]. constructor; auto. intros Hin.
      assert (existsb (Z.eqb x) l = true) as E
        by (apply existsb_exists; exists x; split; [assumption | apply Z.eqb_refl]).
      congruence.
    + intros Hnd. inversion Hnd as [|? ? Hx Hl]; subst. split; auto.
      destruct (existsb (Z.eqb x) l) eqn:E; [|reflexivity].
      apply existsb_exists in E as (y & Hy & Hxy).
      apply Z.eqb_eq in Hxy; subst. contradiction.
Qed.

(** ** What every step of a refresh preserves *)

Lemma root_id_set_root_generation gen r :
  root_id (set_root_generation gen r) = root_id r.
Proof. reflexivity. Qed.

Lemma root_id_set_children cs r : root_id (set_children cs r) = root_id r.
Proof. reflexivity. Qed.

Lemma map_root_id_stamp gen l1 r l2 :
  map root_id (l1 ++ set_root_generation gen r :: l2)
  = map root_id (l1 ++ r :: l2).
Proof. rewrite !map_app; reflexivity. Qed.

Lemma Forall_elt_iff {A : Type} (P : A -> Prop) (l1 l2 : list A) (x : A) :
  Forall P (l1 ++ x :: l2) <-> Forall P l1 /\ P x /\ Forall P l2.
Proof. rewrite Forall_app, Forall_cons_iff. tauto. Qed.

Section Preserved.

Variable gen : Z.
Variables idr okr : Z -> Prop.
Variable okc : Z -> Z -> Prop.

Let Inv := rows_inv gen idr okr okc.
Let RInv := root_inv gen idr okr okc.

Lemma root_inv_stamp (r : Root) :
  RInv r -> okr (root_id r) -> RInv (set_root_generation gen r).
Proof.
  intros (Hid & Hg & Hok & Hnd & Hcs) Hr.
  repeat split; auto. simpl. unfold root_gen; simpl. lia.
Qed.

Lemma master_step_inv (ts : GtkTreeStore) (dev : XIDeviceInfo) :
  (is_master dev = true -> idr (deviceid dev) /\ okr (deviceid dev)) ->
  Inv (rows ts) -> Inv (rows (master_step gen ts dev)).
Proof.
  intros Hdev [Hnd Hall]. unfold master_step.
  destruct (is_master dev); [|split; assumption].
  destruct Hdev as [Hidr Hokr]; [reflexivity|].
  destruct (update_first _ _ (rows ts)) as [rs|] eqn:E.
  - apply update_first_some in E as (l1 & r & l2 & Hrs & _ & Hr & ->).
    apply Z.eqb_eq in Hr. rewrite Hrs in *. simpl. split.
    + rewrite map_root_id_stamp; assumption.
    + apply Forall_elt_iff in Hall as (H1 & Hx & H2).
      apply Forall_elt_iff. split; [assumption | split; [| assumption]].
      apply root_inv_stamp; auto. rewrite Hr; assumption.
  - apply update_first_none in E. simpl. split.
    + rewrite map_app. simpl. apply NoDup_snoc; auto.
      intros Hin. apply in_map_iff in Hin as (r & Hr & Hin).
      rewrite Forall_forall in E. specialize (E _ Hin).
      apply Z.eqb_neq in E. unfold root_id in *. simpl in Hr. congruence.
    + apply Forall_app. split; auto. constructor; [|constructor].
      repeat split; simpl; auto; try (unfold root_gen; simpl; lia);
        constructor.
Qed.

Lemma floating_pass_inv (fid : Z) (ts : GtkTreeStore) :
  idr fid -> okr fid ->
  Inv (rows ts) -> Inv (rows (floating_pass fid gen ts)).
Proof.
  intros Hidr Hokr [Hnd Hall]. unfold floating_pass.
  destruct (find_root fid (rows ts)) as [[[before f] after]|] eqn:E.
  - apply find_root_some in E as (Hrs & Hf & _). rewrite Hrs in *. simpl.
    apply Forall_elt_iff in Hall as (H1 & Hx & H2). split.
    + rewrite !map_app in *. simpl in *.
      rewrite root_id_set_root_generation.
      apply (Permutation_NoDup
               (l := map root_id before ++ root_id f :: map root_id after));
        auto.
      apply Permutation_app_head, Permutation_cons_append.
    + apply Forall_app; split; auto. apply Forall_app; split; auto.
      constructor; [|constructor]. apply root_inv_stamp; auto.
      rewrite Hf; assumption.
  - apply find_root_none in E. simpl. split.
    + rewrite map_app. simpl. apply NoDup_snoc; auto.
      intros Hin. apply in_map_iff in Hin as (r & Hr & Hin).
      rewrite Forall_forall in E. apply (E _ Hin). exact Hr.
    + apply Forall_app. split; auto. constructor; [|constructor].
      repeat split; simpl; auto; try (unfold root_gen; simpl; lia);
        constructor.
Qed.

Lemma attach_inv (n : nat) (dev : XIDeviceInfo) (r : Root) :
  okc (root_id r) (deviceid dev) ->
  RInv r -> RInv (fst (attach n gen dev r)).
Proof.
  intros Hok (Hid & Hg & Hokr & Hnd & Hcs). unfold attach.
  destruct (update_first _ _ (children r)) as [cs|] eqn:E; simpl.
  - apply update_first_some in E as (c1 & c & c2 & Hc & _ & Hp & ->).
    apply Z.eqb_eq in Hp. rewrite Hc in *.
    repeat split; auto.
    + simpl. rewrite map_app in *. exact Hnd.
    + simpl. apply Forall_elt_iff in Hcs as (H1 & Hx & H2).
      apply Forall_elt_iff. split; [assumption | split; [| assumption]].
      split; simpl; [lia|].
      intros _. rewrite root_id_set_children, Hp. exact Hok.
  - apply update_first_none in E. repeat split; auto.
    + simpl. rewrite map_app. simpl. apply NoDup_snoc; auto.
      intros Hin. apply in_map_iff in Hin as (c & Hc & Hin).
      rewrite Forall_forall in E. specialize (E _ Hin).
      apply Z.eqb_neq in E. congruence.
    + simpl. apply Forall_app. split; auto.
      constructor; [|constructor]. split; simpl; [lia | auto].
Qed.

Lemma slave_walk_inv (found : Z -> bool) (n : nat) (dev : XIDeviceInfo)
    (rs : list Root) :
  (forall p, found p = true -> okc p (deviceid dev)) ->
  Inv rs -> Inv (fst (slave_walk found n gen dev rs)).
Proof.
  intros Hok [Hnd Hall].
  destruct (slave_walk_cases found n gen dev rs)
    as [[_ ->] | (l1 & r & l2 & -> & _ & Hr & ->)]; simpl;
    [split; assumption|].
  assert (root_id (fst (attach n gen dev r)) = root_id r) as Hid
    by (unfold attach; destruct (update_first _ _ (children r)); reflexivity).
  split.
  - rewrite map_app in *. simpl in *. rewrite Hid. exact Hnd.
  - apply Forall_elt_iff in Hall as (H1 & Hx & H2).
    apply Forall_elt_iff. split; [assumption | split; [| assumption]].
    apply attach_inv; auto.
Qed.

Lemma slave_step_inv (ts : GtkTreeStore) (dev : XIDeviceInfo) :
  (is_master dev = false ->
   forall p, Immediate.found_master dev p = true -> okc p (deviceid dev)) ->
  Inv (rows ts) -> Inv (rows (Immediate.slave_step gen ts dev)).
Proof.
  intros Hok HI. unfold Immediate.slave_step.
  destruct (is_master dev); [assumption|].
  pose proof (slave_walk_inv (Immediate.found_master dev) (next_node ts) dev
                (rows ts) (Hok eq_refl) HI) as H.
  destruct (slave_walk _ _ _ _ _); exact H.
Qed.

Lemma sweep_inv (rs : list Root) : Inv rs -> Inv (sweep gen rs).
Proof.
  intros [Hnd Hall]. split.
  - rewrite sweep_filter, map_map. simpl.
    change (map (fun x => root_id (set_children _ x)) ?l) with (map root_id l).
    apply NoDup_map_filter; assumption.
  - apply Forall_forall. intros r' Hin.
    apply In_sweep in Hin as (r & Hin & Hg & ->).
    rewrite Forall_forall in Hall.
    destruct (Hall _ Hin) as (Hid & Hle & Hokr & Hndc & Hcs).
    repeat split; auto; simpl.
    + rewrite sweep_children_filter. apply NoDup_map_filter; assumption.
    + apply Forall_forall. intros c Hc. apply In_sweep_children in Hc as [Hc _].
      rewrite Forall_forall in Hcs. apply (Hcs _ Hc).
Qed.

(** After the sweep every stamp is the generation of the pass. *)
Lemma sweep_generations (rs : list Root) :
  Inv rs ->
  Forall (fun r => root_gen r = gen
                   /\ Forall (fun c => COL_GENERATION c = gen) (children r))
         (sweep gen rs).
Proof.
  intros [_ Hall]. apply Forall_forall. intros r' Hin.
  apply In_sweep in Hin as (r & Hin & Hg & ->).
  rewrite Forall_forall in Hall.
  destruct (Hall _ Hin) as (_ & Hle & _ & _ & Hcs).
  split; [unfold root_gen in *; simpl; lia|].
  simpl. apply Forall_forall. intros c Hc.
  apply In_sweep_children in Hc as [Hc Hgc].
  rewrite Forall_forall in Hcs. destruct (Hcs _ Hc) as [Hlec _]. lia.
Qed.

End Preserved.

(** ** What a refresh stamps *)

Lemma In_elt_replace {A : Type} (l1 l2 : list A) (a b x : A) :
  In x (l1 ++ a :: l2) -> x = a \/ In x (l1 ++ b :: l2).
Proof.
  intros H. apply in_app_or in H as [H | [H | H]]; auto.
  - right. apply in_or_app. left; assumption.
  - right. apply in_or_app. right; right; assumption.
Qed.

Section Stamped.

Variable gen : Z.

Lemma has_root_replace (x : Z) (l1 l2 : list Root) (r r' : Root) :
  root_id r' = root_id r ->
  (root_gen r = gen -> root_gen r' = gen) ->
  has_root gen x (l1 ++ r :: l2) -> has_root gen x (l1 ++ r' :: l2).
Proof.
  intros Hid Hg (r0 & Hin & Hx & Hg0).
  apply (In_elt_replace _ _ _ r') in Hin as [-> | Hin].
  - exists r'. repeat split; auto; [apply in_elt | congruence].
  - exists r0. repeat split; auto.
Qed.

Lemma has_child_replace (p x : Z) (l1 l2 : list Root) (r r' : Root) :
  root_row r' = root_row r ->
  (forall c, In c (children r) ->
     In c (children r') \/ In (set_generation gen c) (children r')) ->
  has_child gen p x (l1 ++ r :: l2) -> has_child gen p x (l1 ++ r' :: l2).
Proof.
  intros Hrow Hcs (r0 & Hin & Hp & Hg0 & c & Hc & Hx & Hgc).
  apply (In_elt_replace _ _ _ r') in Hin as [-> | Hin].
  - exists r'. unfold root_id, root_gen in *. rewrite Hrow.
    repeat split; auto; [apply in_elt|].
    destruct (Hcs _ Hc) as [Hc' | Hc'].
    + exists c. repeat split; auto.
    + exists (set_generation gen c). repeat split; auto.
  - exists r0. repeat split; auto. exists c. repeat split; auto.
Qed.

Lemma has_root_app (x : Z) (rs l : list Root) :
  has_root gen x rs -> has_root gen x (rs ++ l).
Proof.
  intros (r & Hin & H). exists r. split; auto. apply in_or_app; auto.
Qed.

Lemma master_step_has_root (x : Z) (ts : GtkTreeStore) (dev : XIDeviceInfo) :
  has_root gen x (rows ts) -> has_root gen x (rows (master_step gen ts dev)).
Proof.
  intros H. unfold master_step. destruct (is_master dev); auto.
  destruct (update_first _ _ (rows ts)) as [rs|] eqn:E.
  - apply update_first_some in E as (l1 & r & l2 & Hrs & _ & _ & ->).
    rewrite Hrs in H. simpl. revert H. apply has_root_replace; auto.
  - simpl. apply has_root_app; assumption.
Qed.

Lemma master_step_stamps (ts : GtkTreeStore) (dev : XIDeviceInfo) :
  is_master dev = true ->
  has_root gen (deviceid dev) (rows (master_step gen ts dev)).
Proof.
  intros Hm. unfold master_step. rewrite Hm.
  destruct (update_first _ _ (rows ts)) as [rs|] eqn:E.
  - apply update_first_some in E as (l1 & r & l2 & Hrs & _ & Hr & ->).
    apply Z.eqb_eq in Hr. simpl.
    exists (set_root_generation gen r). repeat split; auto. apply in_elt.
  - simpl. eexists. split; [apply in_or_app; right; left; reflexivity|].
    split; reflexivity.
Qed.

Lemma floating_pass_has_root (fid x : Z) (ts : GtkTreeStore) :
  has_root gen x (rows ts) ->
  has_root gen x (rows (floating_pass fid gen ts)).
Proof.
  intros (r0 & Hin & Hx & Hg). unfold floating_pass.
  destruct (find_root fid (rows ts)) as [[[before f] after]|] eqn:E.
  - apply find_root_some in E as (Hrs & Hf & _). rewrite Hrs in Hin. simpl.
    apply in_app_or in Hin as [Hin | [<- | Hin]].
    + exists r0. repeat split; auto. apply in_or_app; auto.
    + exists (set_root_generation gen f). repeat split; auto.
      apply in_or_app; right. apply in_or_app; right. left; reflexivity.
    + exists r0. repeat split; auto.
      apply in_or_app; right. apply in_or_app; left. assumption.
  - simpl. apply has_root_app. exists r0; auto.
Qed.

Lemma floating_pass_stamps (fid : Z) (ts : GtkTreeStore) :
  has_root gen fid (rows (floating_pass fid gen ts)).
Proof.
  unfold floating_pass.
  destruct (find_root fid (rows ts)) as [[[before f] after]|] eqn:E.
  - apply find_root_some in E as (Hrs & Hf & _). simpl.
    exists (set_root_generation gen f). repeat split; auto.
    apply in_or_app; right. apply in_or_app; right. left; reflexivity.
  - simpl. eexists. split; [apply in_or_app; right; left; reflexivity|].
    split; reflexivity.
Qed.

Lemma attach_root_row (n : nat) (dev : XIDeviceInfo) (r : Root) :
  root_row (fst (attach n gen dev r)) = root_row r.
Proof.
  unfold attach. destruct (update_first _ _ (children r)); reflexivity.
Qed.

Lemma attach_keeps (n : nat) (dev : XIDeviceInfo) (r : Root) (c : Row) :
  In c (children r) ->
  In c (children (fst (attach n gen dev r)))
  \/ In (set_generation gen c) (children (fst (attach n gen dev r))).
Proof.
  intros Hc. unfold attach.
  destruct (update_first _ _ (children r)) as [cs|] eqn:E; simpl.
  - apply update_first_some in E as (c1 & c0 & c2 & Hcs & _ & _ & ->).
    rewrite Hcs in Hc.
    apply (In_elt_replace _ _ _ (set_generation gen c0)) in Hc as [-> | Hc];
      auto.
    right. apply in_elt.
  - left. apply in_or_app; auto.
Qed.

Lemma attach_stamps (n : nat) (dev : XIDeviceInfo) (r : Root) :
  exists c, In c (children (fst (attach n gen dev r)))
            /\ COL_ID c = deviceid dev /\ COL_GENERATION c = gen.
Proof.
  unfold attach.
  destruct (update_first _ _ (children r)) as [cs|] eqn:E; simpl.
  - apply update_first_some in E as (c1 & c0 & c2 & Hcs & _ & Hp & ->).
    apply Z.eqb_eq in Hp.
    exists (set_generation gen c0). repeat split; auto. apply in_elt.
  - eexists. split; [apply in_or_app; right; left; reflexivity|].
    split; reflexivity.
Qed.

Lemma slave_walk_has_root (found : Z -> bool) (n : nat) (dev : XIDeviceInfo)
    (x : Z) (rs : list Root) :
  has_root gen x rs -> has_root gen x (fst (slave_walk found n gen dev rs)).
Proof.
  intros H.
  destruct (slave_walk_cases found n gen dev rs)
    as [[_ ->] | (l1 & r & l2 & -> & _ & _ & ->)]; simpl; auto.
  revert H. apply has_root_replace; unfold root_id, root_gen;
    rewrite attach_root_row; auto.
Qed.

Lemma slave_walk_has_child (found : Z -> bool) (n : nat) (dev : XIDeviceInfo)
    (p x : Z) (rs : list Root) :
  has_child gen p x rs ->
  has_child gen p x (fst (slave_walk found n gen dev rs)).
Proof.
  intros H.
  destruct (slave_walk_cases found n gen dev rs)
    as [[_ ->] | (l1 & r & l2 & -> & _ & _ & ->)]; simpl; auto.
  revert H. apply has_child_replace.
  - apply attach_root_row.
  - intros c. apply attach_keeps.
Qed.

(** When the only top-level row a device can be found under is stamped,
    the walk leaves a stamped row for the device below it. *)
Lemma slave_walk_stamps (found : Z -> bool) (n : nat) (dev : XIDeviceInfo)
    (p : Z) (rs : list Root) :
  NoDup (map root_id rs) ->
  has_root gen p rs -> found p = true ->
  (forall r, In r rs -> found (root_id r) = true -> root_id r = p) ->
  has_child gen p (deviceid dev) (fst (slave_walk found n gen dev rs)).
Proof.
  intros Hnd (r0 & Hin0 & Hp0 & Hg0) Hfp Huniq.
  destruct (slave_walk_cases found n gen dev rs)
    as [[Hall ->] | (l1 & r & l2 & Hrs & _ & Hr & ->)]; simpl.
  - rewrite Forall_forall in Hall. specialize (Hall _ Hin0).
    rewrite Hp0 in Hall. congruence.
  - assert (In r rs) as Hin by (rewrite Hrs; apply in_elt).
    assert (r = r0) as ->.
    { apply (NoDup_map_eq root_id rs); auto.
      rewrite (Huniq _ Hin Hr). symmetry; assumption. }
    exists (fst (attach n gen dev r0)).
    unfold root_id, root_gen in *. rewrite attach_root_row.
    repeat split; auto; [apply in_elt | apply attach_stamps].
Qed.

Lemma sweep_has_root (x : Z) (rs : list Root) :
  has_root gen x rs -> has_root gen x (sweep gen rs).
Proof.
  intros (r & Hin & Hx & Hg).
  exists (set_children (sweep_children gen (children r)) r).
  repeat split; auto. apply In_sweep. exists r. repeat split; auto. lia.
Qed.

Lemma sweep_has_child (p x : Z) (rs : list Root) :
  has_child gen p x rs -> has_child gen p x (sweep gen rs).
Proof.
  intros (r & Hin & Hp & Hg & c & Hc & Hx & Hgc).
  exists (set_children (sweep_children gen (children r)) r).
  repeat split; auto.
  - apply In_sweep. exists r. repeat split; auto. lia.
  - exists c. repeat split; auto. simpl. apply In_sweep_children.
    split; auto. lia.
Qed.

End Stamped.

(** ** Folding over the device list *)

Lemma fold_left_preserves {S D : Type} (step : S -> D -> S) (I : S -> Prop)
    (devs : list D) :
  (forall s d, In d devs -> I s -> I (step s d)) ->
  forall s, I s -> I (fold_left step devs s).
Proof.
  induction devs as [|d devs IH]; simpl; intros Hstep s Hs; auto.
Qed.

Lemma fold_left_establishes {S D : Type} (step : S -> D -> S) (I : S -> Prop)
    (F : D -> S -> Prop) (devs : list D) :
  (forall s d, In d devs -> I s -> I (step s d)) ->
  (forall s d, In d devs -> I s -> F d (step s d)) ->
  (forall s d d', In d' devs -> I s -> F d s -> F d (step s d')) ->
  forall s, I s -> forall d, In d devs -> F d (fold_left step devs s).
Proof.
  induction devs as [|d0 devs IH]; simpl; intros Hstep Hnew Hkeep s Hs d Hd;
    [contradiction|].
  destruct Hd as [-> | Hd].
  - apply (fold_left_preserves step (fun s => I s /\ F d s)); auto.
    intros s' d' Hd' [HI HF]. split; auto.
  - apply IH; auto.
Qed.

(** ** One pass of the current version *)

Lemma In_master_ids (devices : list XIDeviceInfo) (d : XIDeviceInfo) :
  In d devices -> is_master d = true -> In (deviceid d) (master_ids devices).
Proof.
  intros Hin Hm. unfold master_ids. apply in_map. apply filter_In; auto.
Qed.

Lemma master_ids_In (devices : list XIDeviceInfo) (x : Z) :
  In x (master_ids devices) ->
  exists d, In d devices /\ is_master d = true /\ deviceid d = x.
Proof.
  unfold master_ids. intros H. apply in_map_iff in H as (d & Hd & Hin).
  apply filter_In in Hin as [Hin Hm]. exists d; auto.
Qed.

Lemma slave_walk_root_rows (found : Z -> bool) (n : nat) (gen : Z)
    (dev : XIDeviceInfo) (rs : list Root) :
  map root_row (fst (slave_walk found n gen dev rs)) = map root_row rs.
Proof.
  destruct (slave_walk_cases found n gen dev rs)
    as [[_ ->] | (l1 & r & l2 & -> & _ & _ & ->)]; simpl; auto.
  rewrite !map_app. simpl. rewrite attach_root_row. reflexivity.
Qed.

Lemma slave_step_root_rows (gen : Z) (ts : GtkTreeStore) (dev : XIDeviceInfo) :
  map root_row (rows (Immediate.slave_step gen ts dev)) = map root_row (rows ts).
Proof.
  unfold Immediate.slave_step. destruct (is_master dev); auto.
  pose proof (slave_walk_root_rows (Immediate.found_master dev) (next_node ts)
                gen dev (rows ts)) as H.
  destruct (slave_walk _ _ _ _ _); exact H.
Qed.

Lemma slave_pass_root_rows (gen : Z) (devices : list XIDeviceInfo)
    (ts : GtkTreeStore) :
  map root_row (rows (Immediate.slave_pass gen devices ts))
  = map root_row (rows ts).
Proof.
  unfold Immediate.slave_pass.
  apply (fold_left_preserves (Immediate.slave_step gen)
           (fun s => map root_row (rows s) = map root_row (rows ts))); auto.
  intros s d _ H. rewrite slave_step_root_rows. exact H.
Qed.

Lemma slave_step_has_root (gen x : Z) (ts : GtkTreeStore) (dev : XIDeviceInfo) :
  has_root gen x (rows ts) ->
  has_root gen x (rows (Immediate.slave_step gen ts dev)).
Proof.
  intros H. unfold Immediate.slave_step. destruct (is_master dev); auto.
  pose proof (slave_walk_has_root gen (Immediate.found_master dev)
                (next_node ts) dev x (rows ts) H) as H'.
  destruct (slave_walk _ _ _ _ _); exact H'.
Qed.

Lemma slave_step_has_child (gen p x : Z) (ts : GtkTreeStore)
    (dev : XIDeviceInfo) :
  has_child gen p x (rows ts) ->
  has_child gen p x (rows (Immediate.slave_step gen ts dev)).
Proof.
  intros H. unfold Immediate.slave_step. destruct (is_master dev); auto.
  pose proof (slave_walk_has_child gen (Immediate.found_master dev)
                (next_node ts) dev p x (rows ts) H) as H'.
  destruct (slave_walk _ _ _ _ _); exact H'.
Qed.

Lemma floating_pass_last (gen : Z) (ts : GtkTreeStore) :
  floating_last gen (rows (floating_pass Immediate.ID_FLOATING gen ts)).
Proof.
  unfold floating_pass.
  destruct (find_root _ (rows ts)) as [[[before f] after]|] eqn:E; simpl.
  - apply find_root_some in E as (_ & Hf & _).
    exists (before ++ after), (set_root_generation gen f).
    rewrite <- app_assoc. repeat split; auto.
  - eexists _, _. repeat split.
Qed.

Lemma floating_last_root_rows (gen : Z) (rs rs' : list Root) :
  map root_row rs' = map root_row rs ->
  floating_last gen rs -> floating_last gen rs'.
Proof.
  intros Hmap (l & f & -> & Hf & Hg).
  rewrite map_app in Hmap. simpl in Hmap.
  apply map_eq_app in Hmap as (l' & fs & -> & _ & Hfs).
  destruct fs as [|f' [|? ?]]; simpl in Hfs; try discriminate.
  inversion Hfs as [Hrow].
  exists l', f'. unfold root_id, root_gen in *. rewrite Hrow. auto.
Qed.

Lemma sweep_floating_last (gen : Z) (rs : list Root) :
  floating_last gen rs -> floating_last gen (sweep gen rs).
Proof.
  intros (l & f & -> & Hf & Hg). rewrite sweep_app. simpl.
  destruct (Z.ltb_spec (root_gen f) gen); [lia|].
  eexists _, _. split; [reflexivity|]. split; assumption.
Qed.

Section Pass.

Import Immediate.

Variable gen : Z.
Variable devices : list XIDeviceInfo.
Variable idr : Z -> Prop.
Variable ts : GtkTreeStore.

Hypothesis idr_floating : idr ID_FLOATING.
Hypothesis idr_masters :
  forall d, In d devices -> is_master d = true -> idr (deviceid d).
Hypothesis start :
  rows_inv gen idr (okr_of devices) (okc_of devices) (rows ts).

Let Inv := rows_inv gen idr (okr_of devices) (okc_of devices).

Lemma master_pass_facts :
  Inv (rows (master_pass gen devices ts))
  /\ forall d, In d devices -> is_master d = true ->
       has_root gen (deviceid d) (rows (master_pass gen devices ts)).
Proof.
  unfold master_pass. split.
  - apply (fold_left_preserves (master_step gen) (fun s => Inv (rows s)));
      auto.
    intros s d Hd Hs. apply master_step_inv; auto.
    intros Hm. split; [auto | right; apply In_master_ids; auto].
  - intros d Hd Hm.
    apply (fold_left_establishes (master_step gen) (fun _ => True)
             (fun d s => is_master d = true ->
                         has_root gen (deviceid d) (rows s))); auto.
    + intros s d0 _ _ Hm0. apply master_step_stamps; assumption.
    + intros s d0 d' _ _ H Hm0. apply master_step_has_root; auto.
Qed.

Lemma before_sweep_facts :
  let rs := rows (slave_pass gen devices
                    (floating_pass ID_FLOATING gen
                       (master_pass gen devices ts))) in
  Inv rs
  /\ (forall d, In d devices -> is_master d = true ->
        has_root gen (deviceid d) rs)
  /\ has_root gen ID_FLOATING rs
  /\ floating_last gen rs.
Proof.
  destruct master_pass_facts as [HI Hm].
  set (ts1 := master_pass gen devices ts) in *.
  assert (Inv (rows (floating_pass ID_FLOATING gen ts1))) as HI2
    by (apply floating_pass_inv; auto; left; reflexivity).
  set (ts2 := floating_pass ID_FLOATING gen ts1) in *.
  cbv zeta. unfold slave_pass. split; [|split; [|split]].
  - apply (fold_left_preserves (slave_step gen) (fun s => Inv (rows s)));
      auto.
    intros s d Hd Hs. apply slave_step_inv; auto.
    intros Hns p Hp. exists d; auto.
  - intros d Hd Hdm.
    apply (fold_left_preserves (slave_step gen)
             (fun s => has_root gen (deviceid d) (rows s))).
    + intros s d' _. apply slave_step_has_root.
    + apply floating_pass_has_root. auto.
  - apply (fold_left_preserves (slave_step gen)
             (fun s => has_root gen ID_FLOATING (rows s))).
    + intros s d' _. apply slave_step_has_root.
    + apply floating_pass_stamps.
  - apply (floating_last_root_rows gen (rows ts2)).
    + apply slave_pass_root_rows.
    + apply floating_pass_last.
Qed.

End Pass.

(** ** Well-formed device lists and stores *)

Lemma well_formed_In (devices : list XIDeviceInfo) (d : XIDeviceInfo) :
  well_formed devices = true -> In d devices ->
  well_formed_device devices d = true.
Proof. unfold well_formed. rewrite forallb_forall. auto. Qed.

Lemma well_formed_positive (devices : list XIDeviceInfo) (d : XIDeviceInfo) :
  well_formed devices = true -> In d devices -> 0 < deviceid d.
Proof.
  intros Hwf Hin. pose proof (well_formed_In _ _ Hwf Hin) as H.
  unfold well_formed_device in H. apply andb_true_iff in H as [H _].
  apply Z.ltb_lt; assumption.
Qed.

Lemma well_formed_parent (devices : list XIDeviceInfo) (d : XIDeviceInfo) :
  well_formed devices = true -> In d devices -> is_master d = false ->
  okr_of devices (parent_id d)
  /\ Immediate.found_master d (parent_id d) = true
  /\ forall p, Immediate.found_master d p = true -> p <> 0 -> p = parent_id d.
Proof.
  intros Hwf Hin Hm. pose proof (well_formed_In _ _ Hwf Hin) as H.
  unfold well_formed_device in H. rewrite Hm in H. simpl in H.
  apply andb_true_iff in H as [_ H].
  unfold parent_id, Immediate.found_master, okr_of.
  destruct (use d =? XIFloatingSlave) eqn:Hu.
  - apply Z.eqb_eq in H. rewrite H. repeat split; auto.
    intros p Hp Hp0.
    destruct (Z.eqb_spec 0 p) as [E|E]; [congruence|].
    rewrite orb_false_l, andb_true_l in Hp.
    apply Z.eqb_eq in Hp. exact Hp.
  - apply existsb_exists in H as (m & Hmin & Hmm).
    apply andb_true_iff in Hmm as [Hmm Hid]. apply Z.eqb_eq in Hid.
    repeat split.
    + right. rewrite <- Hid. apply In_master_ids; auto.
    + rewrite Z.eqb_refl. reflexivity.
    + intros p Hp _. rewrite andb_false_l, orb_false_r in Hp.
      apply Z.eqb_eq in Hp. auto.
Qed.

Lemma store_ok_rows_inv (g gen : Z) (ts : GtkTreeStore)
    (okr : Z -> Prop) (okc : Z -> Z -> Prop) :
  store_ok g ts = true -> g < gen ->
  rows_inv gen (fun x => x <> 0) okr okc (rows ts).
Proof.
  unfold store_ok. intros H Hlt. apply andb_true_iff in H as [Hd Hall].
  split; [apply distinct_NoDup; assumption|].
  rewrite forallb_forall in Hall. apply Forall_forall. intros r Hin.
  specialize (Hall _ Hin). unfold root_ok in Hall.
  repeat rewrite andb_true_iff in Hall.
  destruct Hall as [[[Hg Hid] Hnd] Hcs].
  apply Z.leb_le in Hg. apply negb_true_iff, Z.eqb_neq in Hid.
  apply distinct_NoDup in Hnd. rewrite forallb_forall in Hcs.
  repeat split; auto; try lia.
  apply Forall_forall. intros c Hc. specialize (Hcs _ Hc).
  apply Z.leb_le in Hcs. split; lia.
Qed.

Lemma rows_inv_store_ok (gen : Z) (ts : GtkTreeStore)
    (okr : Z -> Prop) (okc : Z -> Z -> Prop) :
  rows_inv gen (fun x => x <> 0) okr okc (rows ts) -> store_ok gen ts = true.
Proof.
  intros [Hnd Hall]. unfold store_ok. apply andb_true_iff. split.
  - apply distinct_NoDup; assumption.
  - apply forallb_forall. intros r Hin. rewrite Forall_forall in Hall.
    destruct (Hall _ Hin) as (Hid & Hg & _ & Hndc & Hcs).
    unfold root_ok. repeat rewrite andb_true_iff. repeat split.
    + apply Z.leb_le; assumption.
    + apply negb_true_iff, Z.eqb_neq; assumption.
    + apply distinct_NoDup; assumption.
    + apply forallb_forall. intros c Hc. rewrite Forall_forall in Hcs.
      destruct (Hcs _ Hc) as [Hle _]. apply Z.leb_le; assumption.
Qed.

(** ** What a pass over a well-formed list leaves *)

Section WellFormedPass.

Import Immediate.

Variable g : Z.
Variable devices : list XIDeviceInfo.
Variable ts : GtkTreeStore.

Hypothesis ts_ok : store_ok g ts = true.
Hypothesis devices_ok : well_formed devices = true.

Let gen := g + 1.
Let Inv := rows_inv gen (fun x => x <> 0) (okr_of devices) (okc_of devices).

Lemma idr_masters_nonzero :
  forall d, In d devices -> is_master d = true -> deviceid d <> 0.
Proof.
  intros d Hd _. pose proof (well_formed_positive _ _ devices_ok Hd). lia.
Qed.

Lemma start_inv : Inv (rows ts).
Proof. apply (store_ok_rows_inv g); [assumption | unfold gen; lia]. Qed.

Lemma slave_pass_facts :
  let rs := rows (slave_pass gen devices
                    (floating_pass ID_FLOATING gen
                       (master_pass gen devices ts))) in
  Inv rs
  /\ (forall d, In d devices -> is_master d = true ->
        has_root gen (deviceid d) rs)
  /\ has_root gen ID_FLOATING rs
  /\ floating_last gen rs
  /\ (forall d, In d devices -> is_master d = false ->
        has_child gen (parent_id d) (deviceid d) rs).
Proof.
  assert (ID_FLOATING <> 0) as Hf0 by discriminate.
  destruct (master_pass_facts gen devices (fun x => x <> 0) ts
              idr_masters_nonzero start_inv) as [HI1 Hm1].
  destruct (before_sweep_facts gen devices (fun x => x <> 0) ts Hf0
              idr_masters_nonzero start_inv) as (HI & Hm & Hfl & Hlast).
  cbv zeta in *. split; [|split; [|split; [|split]]]; auto.
  intros d Hd Hs. unfold slave_pass.
  set (ts2 := floating_pass ID_FLOATING gen (master_pass gen devices ts)) in *.
  apply (fold_left_establishes (slave_step gen)
           (fun s => Inv (rows s)
                     /\ (forall d, In d devices -> is_master d = true ->
                           has_root gen (deviceid d) (rows s))
                     /\ has_root gen ID_FLOATING (rows s))
           (fun d s => is_master d = false ->
                       has_child gen (parent_id d) (deviceid d) (rows s)));
    auto.
  - intros s d0 Hd0 (HIs & Hms & Hfs). split; [|split].
    + apply slave_step_inv; auto. intros Hns p Hp. exists d0; auto.
    + intros d1 Hd1 Hm1'. apply slave_step_has_root; auto.
    + apply slave_step_has_root; auto.
  - intros s d0 Hd0 (HIs & Hms & Hfs) Hs0.
    destruct (well_formed_parent _ _ devices_ok Hd0 Hs0)
      as (Hpar & Hfound & Huniq).
    unfold slave_step. rewrite Hs0.
    pose proof (slave_walk_stamps gen (found_master d0) (next_node s) d0
                  (parent_id d0) (rows s)) as H.
    destruct (slave_walk _ _ _ _ _) as [rs' n']. simpl in *. apply H; auto.
    + apply HIs.
    + destruct Hpar as [-> | Hpar]; auto.
      apply master_ids_In in Hpar as (m & Hmin & Hmm & <-). auto.
    + intros r Hr Hfr. apply Huniq; auto.
      destruct HIs as [_ Hall]. rewrite Forall_forall in Hall.
      apply (Hall _ Hr).
  - intros s d0 d' _ _ H Hs0. apply slave_step_has_child; auto.
  - split; [|split].
    + apply floating_pass_inv; auto. left; reflexivity.
    + intros d1 Hd1 Hm1'. apply floating_pass_has_root; auto.
    + apply floating_pass_stamps.
Qed.

(** The facts about the store that [reconcile] returns. *)
Lemma reconcile_facts :
  let rs := rows (reconcile gen devices ts) in
  Inv rs
  /\ (forall d, In d devices -> is_master d = true ->
        has_root gen (deviceid d) rs)
  /\ has_root gen ID_FLOATING rs
  /\ floating_last gen rs
  /\ (forall d, In d devices -> is_master d = false ->
        has_child gen (parent_id d) (deviceid d) rs)
  /\ Forall (fun r => root_gen r = gen
                      /\ Forall (fun c => COL_GENERATION c = gen) (children r))
            rs.
Proof.
  destruct slave_pass_facts as (HI & Hm & Hfl & Hlast & Hs).
  cbv zeta in *. unfold reconcile, sweep_store. simpl.
  split; [|split; [|split; [|split; [|split]]]].
  - apply sweep_inv; assumption.
  - intros d Hd Hdm. apply sweep_has_root; auto.
  - apply sweep_has_root; auto.
  - apply sweep_floating_last; auto.
  - intros d Hd Hds. apply sweep_has_child; auto.
  - apply (sweep_generations gen _ _ _ _ HI).
Qed.

Lemma reconcile_store_ok : store_ok gen (reconcile gen devices ts) = true.
Proof.
  destruct reconcile_facts as (HI & _). eapply rows_inv_store_ok. exact HI.
Qed.

Lemma reconcile_synced : synced devices (rows (reconcile gen devices ts)).
Proof.
  destruct reconcile_facts as (HI & Hm & Hfl & Hlast & Hs & Hgen).
  cbv zeta in *. set (rs := rows (reconcile gen devices ts)) in *.
  destruct HI as [Hnd Hall]. rewrite Forall_forall in Hall, Hgen.
  split; [assumption|]. split; [|split; [|split; [|split; [|split]]]].
  - apply Forall_forall. intros r Hr.
    destruct (Hall _ Hr) as (Hid & _ & _ & Hndc & _). auto.
  - destruct Hlast as (l & f & Hrs & Hf & _). exists l, f; auto.
  - intros r Hr. destruct (Hall _ Hr) as (_ & _ & Hokr & _).
    apply Hokr. apply (Hgen _ Hr).
  - intros r c Hr Hc. destruct (Hall _ Hr) as (_ & _ & _ & _ & Hcs).
    rewrite Forall_forall in Hcs. destruct (Hcs _ Hc) as [_ Hokc].
    apply Hokc. destruct (Hgen _ Hr) as [_ Hgc].
    rewrite Forall_forall in Hgc. auto.
  - intros d Hd Hdm. destruct (Hm _ Hd Hdm) as (r & Hr & Hid & _).
    rewrite <- Hid. apply in_map; assumption.
  - intros d Hd Hds.
    destruct (Hs _ Hd Hds) as (r & Hr & Hid & _ & c & Hc & Hcid & _).
    exists r. repeat split; auto. rewrite <- Hcid. apply in_map; assumption.
Qed.

End WellFormedPass.

(** ** A pass over a store that already shows the devices *)

Lemma skeleton_restamp (gen : Z) (a b : list Root) :
  map (restamp_root gen) a = map (restamp_root gen) b ->
  skeleton a = skeleton b.
Proof.
  intros H. unfold skeleton.
  assert (forall l, map (fun r => (root_id r, map COL_ID (children r))) l
                    = map (fun r => (root_id r, map COL_ID (children r)))
                          (map (restamp_root gen) l)) as E.
  { intros l. rewrite map_map. apply map_ext. intros r.
    unfold root_id. simpl. rewrite map_map. reflexivity. }
  rewrite (E a), (E b), H. reflexivity.
Qed.

Lemma skeleton_In (a b : list Root) (r : Root) :
  skeleton a = skeleton b -> In r a ->
  exists r', In r' b /\ root_id r' = root_id r
             /\ map COL_ID (children r') = map COL_ID (children r).
Proof.
  intros H Hin.
  assert (In (root_id r, map COL_ID (children r)) (skeleton b)) as Hb.
  { rewrite <- H. unfold skeleton.
    apply (in_map (fun r => (root_id r, map COL_ID (children r)))); auto. }
  unfold skeleton in Hb. apply in_map_iff in Hb as (r' & E & Hr').
  inversion E. exists r'. auto.
Qed.

Lemma skeleton_root_ids (a b : list Root) :
  skeleton a = skeleton b -> map root_id a = map root_id b.
Proof.
  intros H. apply (f_equal (map fst)) in H. unfold skeleton in H.
  rewrite !map_map in H. exact H.
Qed.

Lemma skeleton_last (a b l : list Root) (f : Root) :
  skeleton a = skeleton b -> a = l ++ [f] ->
  exists l' f', b = l' ++ [f'] /\ root_id f' = root_id f.
Proof.
  intros H ->. unfold skeleton in H. rewrite map_app in H. simpl in H.
  symmetry in H. apply map_eq_app in H as (l' & fs & -> & _ & Hfs).
  destruct fs as [|f' [|? ?]]; simpl in Hfs; try discriminate.
  inversion Hfs. exists l', f'. auto.
Qed.

Lemma synced_skeleton (devices : list XIDeviceInfo) (a b : list Root) :
  skeleton a = skeleton b -> synced devices a -> synced devices b.
Proof.
  intros H (Hnd & Hall & (l & f & Hl & Hf) & Hokr & Hokc & Hm & Hs).
  assert (skeleton b = skeleton a) as H' by (symmetry; assumption).
  rewrite Forall_forall in Hall.
  split; [|split; [|split; [|split; [|split; [|split]]]]].
  - rewrite <- (skeleton_root_ids _ _ H). assumption.
  - apply Forall_forall. intros r Hr.
    destruct (skeleton_In _ _ _ H' Hr) as (r' & Hr' & Hid & Hcs).
    rewrite <- Hid, <- Hcs. apply Hall; assumption.
  - destruct (skeleton_last _ _ _ _ H Hl) as (l' & f' & Hb & Hf').
    exists l', f'. split; congruence.
  - intros r Hr.
    destruct (skeleton_In _ _ _ H' Hr) as (r' & Hr' & Hid & _).
    rewrite <- Hid. auto.
  - intros r c Hr Hc.
    destruct (skeleton_In _ _ _ H' Hr) as (r' & Hr' & Hid & Hcs).
    assert (In (COL_ID c) (map COL_ID (children r'))) as Hc'
      by (rewrite Hcs; apply in_map; assumption).
    apply in_map_iff in Hc' as (c' & Hcid & Hc').
    rewrite <- Hid, <- Hcid. auto.
  - intros d Hd Hdm. rewrite <- (skeleton_root_ids _ _ H). auto.
  - intros d Hd Hds. destruct (Hs _ Hd Hds) as (r & Hr & Hid & Hc).
    destruct (skeleton_In _ _ _ H Hr) as (r' & Hr' & Hid' & Hcs).
    exists r'. rewrite Hid', Hcs. auto.
Qed.

Lemma find_root_app (fid : Z) (l after : list Root) (f : Root) :
  Forall (fun r => root_id r <> fid) l -> root_id f = fid ->
  find_root fid (l ++ f :: after) = Some (l, f, after).
Proof.
  intros Hl Hf. induction Hl as [|r l Hr Hl IH]; simpl.
  - rewrite Hf, Z.eqb_refl. reflexivity.
  - destruct (Z.eqb_spec (root_id r) fid); [contradiction|].
    rewrite IH. reflexivity.
Qed.

Lemma NoDup_last_unique (fid : Z) (l : list Root) (f : Root) :
  NoDup (map root_id (l ++ [f])) -> root_id f = fid ->
  Forall (fun r => root_id r <> fid) l.
Proof.
  intros Hnd Hf. apply Forall_forall. intros r Hr E.
  rewrite map_app in Hnd. simpl in Hnd.
  apply NoDup_remove_2 in Hnd. apply Hnd. rewrite app_nil_r.
  rewrite Hf, <- E. apply in_map; assumption.
Qed.

Section SyncedPass.

Import Immediate.

Variable gen : Z.
Variable devices : list XIDeviceInfo.

Let R := map (restamp_root gen).

Lemma master_step_shape (s : GtkTreeStore) (dev : XIDeviceInfo) :
  (is_master dev = true -> In (deviceid dev) (map root_id (rows s))) ->
  R (rows (master_step gen s dev)) = R (rows s)
  /\ next_node (master_step gen s dev) = next_node s.
Proof.
  intros Hin. unfold master_step. destruct (is_master dev); auto.
  destruct (update_first _ _ (rows s)) as [rs|] eqn:E; simpl.
  - apply update_first_some in E as (l1 & r & l2 & -> & _ & _ & ->).
    split; auto. unfold R. rewrite !map_app. reflexivity.
  - exfalso. apply update_first_none in E. rewrite Forall_forall in E.
    specialize (Hin eq_refl). apply in_map_iff in Hin as (r & Hr & Hin).
    specialize (E _ Hin). apply Z.eqb_neq in E. contradiction.
Qed.

Lemma floating_pass_shape (s : GtkTreeStore) :
  NoDup (map root_id (rows s)) ->
  (exists l f, rows s = l ++ [f] /\ root_id f = ID_FLOATING) ->
  R (rows (floating_pass ID_FLOATING gen s)) = R (rows s)
  /\ next_node (floating_pass ID_FLOATING gen s) = next_node s.
Proof.
  intros Hnd (l & f & Hl & Hf). unfold floating_pass. rewrite Hl in *.
  rewrite (find_root_app ID_FLOATING l [] f); auto.
  - simpl. split; auto. unfold R. rewrite !map_app. reflexivity.
  - apply (NoDup_last_unique ID_FLOATING l f); auto.
Qed.

Lemma attach_shape (n : nat) (dev : XIDeviceInfo) (r : Root) :
  In (deviceid dev) (map COL_ID (children r)) ->
  restamp_root gen (fst (attach n gen dev r)) = restamp_root gen r
  /\ snd (attach n gen dev r) = n.
Proof.
  intros Hin. unfold attach.
  destruct (update_first _ _ (children r)) as [cs|] eqn:E; simpl.
  - apply update_first_some in E as (c1 & c & c2 & Hc & _ & _ & ->).
    split; auto. unfold restamp_root. simpl. rewrite Hc, !map_app.
    reflexivity.
  - exfalso. apply update_first_none in E. rewrite Forall_forall in E.
    apply in_map_iff in Hin as (c & Hc & Hin).
    specialize (E _ Hin). apply Z.eqb_neq in E. contradiction.
Qed.

Lemma slave_step_shape (s : GtkTreeStore) (dev : XIDeviceInfo) :
  (is_master dev = false ->
   forall r, In r (rows s) -> found_master dev (root_id r) = true ->
             In (deviceid dev) (map COL_ID (children r))) ->
  R (rows (slave_step gen s dev)) = R (rows s)
  /\ next_node (slave_step gen s dev) = next_node s.
Proof.
  intros Hin. unfold slave_step. destruct (is_master dev); auto.
  specialize (Hin eq_refl).
  destruct (slave_walk_cases (found_master dev) (next_node s) gen dev (rows s))
    as [[_ ->] | (l1 & r & l2 & Hrs & _ & Hr & ->)]; simpl; auto.
  destruct (attach_shape (next_node s) dev r) as [E1 E2].
  { apply Hin; auto. rewrite Hrs. apply in_elt. }
  split; auto. unfold R. rewrite Hrs, !map_app. simpl. rewrite E1.
  reflexivity.
Qed.

Hypothesis devices_ok : well_formed devices = true.

(** The first three phases only stamp. *)
Lemma stamping_shape (ts : GtkTreeStore) :
  synced devices (rows ts) ->
  let s3 := slave_pass gen devices
              (floating_pass ID_FLOATING gen (master_pass gen devices ts)) in
  R (rows s3) = R (rows ts) /\ next_node s3 = next_node ts.
Proof.
  intros Hsync.
  set (I := fun s : GtkTreeStore =>
              R (rows s) = R (rows ts) /\ next_node s = next_node ts).
  assert (forall s, I s -> synced devices (rows s)) as Hsy.
  { intros s [HR _]. apply (synced_skeleton devices (rows ts)); auto.
    symmetry. apply (skeleton_restamp gen). exact HR. }
  assert (I (master_pass gen devices ts)) as H1.
  { unfold master_pass. apply (fold_left_preserves (master_step gen) I).
    - intros s d Hd Hs.
      destruct (Hsy _ Hs) as (_ & _ & _ & _ & _ & Hm & _).
      destruct (master_step_shape s d) as [E1 E2]; [auto|].
      destruct Hs as [E3 E4]. split; congruence.
    - split; reflexivity. }
  assert (I (floating_pass ID_FLOATING gen (master_pass gen devices ts)))
    as H2.
  { destruct (Hsy _ H1) as (Hnd & _ & Hl & _).
    destruct (floating_pass_shape _ Hnd Hl) as [E1 E2].
    destruct H1 as [E3 E4]. split; congruence. }
  cbv zeta. unfold slave_pass.
  apply (fold_left_preserves (slave_step gen) I); auto.
  intros s d Hd Hs.
  destruct (Hsy _ Hs) as (Hnd & Hall & _ & _ & _ & _ & Hsl).
  destruct (slave_step_shape s d) as [E1 E2].
  - intros Hds r Hr Hf.
    destruct (Hsl _ Hd Hds) as (r' & Hr' & Hid & Hc).
    destruct (well_formed_parent _ _ devices_ok Hd Hds) as (_ & _ & Huniq).
    rewrite Forall_forall in Hall.
    assert (r = r') as ->; auto.
    apply (NoDup_map_eq root_id (rows s)); auto.
    rewrite Hid. apply Huniq; auto. apply (Hall _ Hr).
  - destruct Hs as [E3 E4]. split; congruence.
Qed.

End SyncedPass.

Lemma sweep_children_fixed (gen : Z) (cs : list Row) :
  Forall (fun c => COL_GENERATION c = gen) cs -> sweep_children gen cs = cs.
Proof.
  induction 1 as [|c cs Hc _ IH]; simpl; auto.
  destruct (Z.ltb_spec (COL_GENERATION c) gen); [lia|]. rewrite IH; reflexivity.
Qed.

Lemma sweep_fixed (gen : Z) (rs : list Root) :
  Forall (fun r => root_gen r = gen
                   /\ Forall (fun c => COL_GENERATION c = gen) (children r)) rs ->
  sweep gen rs = rs.
Proof.
  induction 1 as [|r rs [Hr Hcs] _ IH]; simpl; auto.
  destruct (Z.ltb_spec (root_gen r) gen); [lia|].
  rewrite IH, sweep_children_fixed; auto. destruct r; reflexivity.
Qed.

Lemma restamp_fixed (gen : Z) (rs : list Root) :
  Forall (fun r => root_gen r = gen
                   /\ Forall (fun c => COL_GENERATION c = gen) (children r)) rs ->
  map (restamp_root gen) rs = rs.
Proof.
  induction 1 as [|r rs [Hr Hcs] _ IH]; simpl; auto.
  rewrite IH. f_equal. destruct r as [row cs]. unfold restamp_root, root_gen in *.
  simpl in *. f_equal.
  - destruct row; simpl in *. subst. reflexivity.
  - induction Hcs as [|c cs Hc _ IHc]; simpl; auto.
    rewrite IHc. f_equal. destruct c; simpl in *. subst. reflexivity.
Qed.

Lemma reconcile_on_synced (g : Z) (devices : list XIDeviceInfo)
    (ts : GtkTreeStore) :
  store_ok g ts = true -> well_formed devices = true ->
  synced devices (rows ts) ->
  Immediate.reconcile (g + 1) devices ts = restamp (g + 1) ts.
Proof.
  intros Hok Hwf Hsync.
  destruct (slave_pass_facts g devices ts Hok Hwf)
    as (HI & Hm & Hfl & _ & Hs).
  destruct (stamping_shape (g + 1) devices Hwf ts Hsync) as [HR Hn].
  cbv zeta in *.
  set (s3 := Immediate.slave_pass (g + 1) devices
               (floating_pass Immediate.ID_FLOATING (g + 1)
                  (master_pass (g + 1) devices ts))) in *.
  assert (synced devices (rows s3)) as Hsy3.
  { apply (synced_skeleton devices (rows ts)); auto.
    symmetry. apply (skeleton_restamp (g + 1)). exact HR. }
  destruct Hsy3 as (Hnd & _ & _ & Hokr & Hokc & _ & _).
  destruct HI as [_ Hall]. rewrite Forall_forall in Hall.
  assert (Forall (fun r => root_gen r = g + 1
                           /\ Forall (fun c => COL_GENERATION c = g + 1)
                                     (children r)) (rows s3)) as Hgen.
  { apply Forall_forall. intros r Hr. split.
    - assert (has_root (g + 1) (root_id r) (rows s3)) as (r' & Hr' & Hid & Hg).
      { destruct (Hokr _ Hr) as [-> | Hin]; auto.
        apply master_ids_In in Hin as (d & Hd & Hdm & <-). auto. }
      assert (r' = r) as <-; auto.
      apply (NoDup_map_eq root_id (rows s3)); auto.
    - apply Forall_forall. intros c Hc.
      destruct (Hokc _ _ Hr Hc) as (d & Hd & Hds & Hid & Hf).
      destruct (well_formed_parent _ _ Hwf Hd Hds) as (_ & _ & Huniq).
      destruct (Hall _ Hr) as (Hr0 & _ & _ & Hndc & _).
      destruct (Hs _ Hd Hds) as (r' & Hr' & Hid' & _ & c' & Hc' & Hcid & Hg).
      assert (r' = r) as ->.
      { apply (NoDup_map_eq root_id (rows s3)); auto.
        rewrite Hid'. symmetry. apply Huniq; auto. }
      assert (c' = c) as <-; auto.
      apply (NoDup_map_eq COL_ID (children r)); auto. congruence. }
  unfold Immediate.reconcile, sweep_store, restamp. fold s3.
  rewrite (sweep_fixed _ _ Hgen), Hn. f_equal.
  rewrite <- HR. symmetry. apply restamp_fixed. exact Hgen.
Qed.

Lemma generations_Forall (gen : Z) (ts : GtkTreeStore) :
  Forall (fun r => root_gen r = gen
                   /\ Forall (fun c => COL_GENERATION c = gen) (children r))
         (rows ts) ->
  Forall (fun s => s = gen) (generations ts).
Proof.
  intros H. apply Forall_forall. intros s Hs. unfold generations in Hs.
  apply in_flat_map in Hs as (r & Hr & Hs). rewrite Forall_forall in H.
  destruct (H _ Hr) as [Hg Hcs]. destruct Hs as [<- | Hs]; auto.
  apply in_map_iff in Hs as (c & <- & Hc). rewrite Forall_forall in Hcs. auto.
Qed.

Lemma reconcile_generations (g : Z) (devices : list XIDeviceInfo)
    (ts : GtkTreeStore) :
  store_ok g ts = true -> well_formed devices = true ->
  Forall (fun s => s = g + 1)
         (generations (Immediate.reconcile (g + 1) devices ts)).
Proof.
  intros Hok Hwf.
  destruct (reconcile_facts g devices ts Hok Hwf) as (_ & _ & _ & _ & _ & Hgen).
  apply generations_Forall; exact Hgen.
Qed.

(** ** The claims about the refresh *)

(** C1.  After a refresh of a store in its between-refreshes state with a
    device list as the server reports one, the device ids the tree shows
    (the top-level "Floating" row apart) are exactly the ids of the list,
    and every row carries the generation of the pass: the sweep has
    removed whatever was not stamped. *)
Theorem reconcile_shows_the_devices (g : Z) (devices : list XIDeviceInfo)
    (ts : GtkTreeStore) :
  store_ok g ts = true -> well_formed devices = true ->
  (forall id, In id (device_ids (Immediate.reconcile (g + 1) devices ts))
              <-> In id (map deviceid devices))
  /\ Forall (fun s => s = g + 1)
            (generations (Immediate.reconcile (g + 1) devices ts)).
Proof.
  intros Hok Hwf.
  pose proof (reconcile_synced g devices ts Hok Hwf)
    as (_ & _ & _ & Hokr & Hokc & Hm & Hs).
  split; [|apply reconcile_generations; assumption].
  intros id. unfold device_ids. rewrite in_flat_map. split.
  - intros (r & Hr & Hin). apply in_app_or in Hin as [Hin | Hin].
    + destruct (Z.eqb_spec (root_id r) Immediate.ID_FLOATING) as [E|E];
        [contradiction|].
      destruct Hin as [<- | []].
      destruct (Hokr _ Hr) as [E' | Hin]; [contradiction|].
      apply master_ids_In in Hin as (d & Hd & _ & <-). apply in_map; assumption.
    + apply in_map_iff in Hin as (c & <- & Hc).
      destruct (Hokc _ _ Hr Hc) as (d & Hd & _ & <- & _).
      apply in_map; assumption.
  - intros Hin. apply in_map_iff in Hin as (d & <- & Hd).
    destruct (is_master d) eqn:Hdm.
    + specialize (Hm _ Hd Hdm). apply in_map_iff in Hm as (r & Hid & Hr).
      exists r. split; auto. apply in_or_app. left.
      pose proof (well_formed_positive _ _ Hwf Hd) as Hpos.
      destruct (Z.eqb_spec (root_id r) Immediate.ID_FLOATING) as [E|E].
      * unfold Immediate.ID_FLOATING in E. lia.
      * left; assumption.
    + destruct (Hs _ Hd Hdm) as (r & Hr & _ & Hc).
      exists r. split; auto. apply in_or_app. right; assumption.
Qed.

(** C2, as the code has it.  A second refresh with the same device list
    creates no row, removes none and moves none: the store it returns is
    the store of the first refresh with every stamp advanced from [g + 1]
    to [g + 2]. *)
Theorem reconcile_twice (g : Z) (devices : list XIDeviceInfo)
    (ts : GtkTreeStore) :
  store_ok g ts = true -> well_formed devices = true ->
  Immediate.reconcile (g + 2) devices (Immediate.reconcile (g + 1) devices ts)
  = restamp (g + 2) (Immediate.reconcile (g + 1) devices ts)
  /\ Forall (fun s => s = g + 1)
            (generations (Immediate.reconcile (g + 1) devices ts)).
Proof.
  intros Hok Hwf. split.
  - replace (g + 2) with (g + 1 + 1) by lia.
    apply reconcile_on_synced; auto.
    + apply reconcile_store_ok; assumption.
    + apply reconcile_synced; assumption.
  - apply reconcile_generations; assumption.
Qed.

(** ** Any series of refreshes *)

Lemma rows_inv_stale (g gen : Z) (idr okr okr' : Z -> Prop)
    (okc okc' : Z -> Z -> Prop) (rs : list Root) :
  rows_inv g idr okr' okc' rs -> g < gen -> rows_inv gen idr okr okc rs.
Proof.
  intros [Hnd Hall] Hlt. split; auto.
  apply Forall_forall. intros r Hr. rewrite Forall_forall in Hall.
  destruct (Hall _ Hr) as (Hid & Hg & _ & Hndc & Hcs).
  repeat split; auto; try lia.
  apply Forall_forall. intros c Hc. rewrite Forall_forall in Hcs.
  destruct (Hcs _ Hc) as [Hgc _]. split; lia.
Qed.

Lemma rows_inv_weaken (gen : Z) (idr okr : Z -> Prop) (okc : Z -> Z -> Prop)
    (rs : list Root) :
  rows_inv gen idr okr okc rs ->
  rows_inv gen idr (fun _ => True) (fun _ _ => True) rs.
Proof.
  intros [Hnd Hall]. split; auto.
  apply Forall_forall. intros r Hr. rewrite Forall_forall in Hall.
  destruct (Hall _ Hr) as (Hid & Hg & _ & Hndc & Hcs).
  repeat split; auto.
  apply Forall_forall. intros c Hc. rewrite Forall_forall in Hcs.
  destruct (Hcs _ Hc) as [Hgc _]. split; auto.
Qed.

(** A pass over any device list at all. *)
Lemma reconcile_any_list (g : Z) (devices : list XIDeviceInfo)
    (ts : GtkTreeStore) :
  rows_inv g (fun _ => True) (fun _ => True) (fun _ _ => True) (rows ts) ->
  let rs := rows (Immediate.reconcile (g + 1) devices ts) in
  rows_inv (g + 1) (fun _ => True) (okr_of devices) (okc_of devices) rs
  /\ floating_last (g + 1) rs
  /\ Forall (fun r => root_gen r = g + 1
                      /\ Forall (fun c => COL_GENERATION c = g + 1)
                                (children r)) rs.
Proof.
  intros Hinv.
  assert (rows_inv (g + 1) (fun _ => True) (okr_of devices) (okc_of devices)
            (rows ts)) as Hstart
    by (apply (rows_inv_stale g) with (okr' := fun _ => True)
                                       (okc' := fun _ _ => True); auto; lia).
  destruct (before_sweep_facts (g + 1) devices (fun _ => True) ts I
              (fun _ _ _ => I) Hstart) as (HI & _ & _ & Hlast).
  cbv zeta in *. unfold Immediate.reconcile, sweep_store. simpl.
  split; [|split].
  - apply sweep_inv; assumption.
  - apply sweep_floating_last; assumption.
  - apply (sweep_generations _ _ _ _ _ HI).
Qed.

Lemma refreshes_inv (lists : list (list XIDeviceInfo)) :
  rows_inv (fst (refreshes lists)) (fun _ => True) (fun _ => True)
           (fun _ _ => True) (rows (snd (refreshes lists))).
Proof.
  unfold refreshes.
  apply (fold_left_preserves refresh
           (fun s => rows_inv (fst s) (fun _ => True) (fun _ => True)
                              (fun _ _ => True) (rows (snd s)))).
  - intros s devices _ Hs. unfold refresh. simpl.
    destruct (reconcile_any_list (fst s) devices (snd s) Hs) as (H & _).
    apply rows_inv_weaken in H. exact H.
  - simpl. split; constructor.
Qed.

(** C6.  After every refresh in any series of refreshes, whatever the
    device lists held, the top level ends with a "Floating" row and holds
    no other; and when no device of the list has the id reserved for it,
    no row below the top level has that id either. *)
Theorem floating_row_single_and_last (lists : list (list XIDeviceInfo))
    (devices : list XIDeviceInfo) :
  let ts := snd (refresh (refreshes lists) devices) in
  exists l f,
    rows ts = l ++ [f]
    /\ root_id f = Immediate.ID_FLOATING
    /\ Forall (fun r => root_id r <> Immediate.ID_FLOATING) l
    /\ (forallb (fun d => negb (deviceid d =? Immediate.ID_FLOATING)) devices
        = true ->
        Forall (fun r => Forall (fun c => COL_ID c <> Immediate.ID_FLOATING)
                                (children r)) (rows ts)).
Proof.
  cbv zeta. unfold refresh. simpl.
  destruct (reconcile_any_list _ devices _ (refreshes_inv lists))
    as ([Hnd Hall] & (l & f & Hrows & Hf & _) & Hgen).
  cbv zeta in *. exists l, f. split; [assumption|]. split; [assumption|].
  split.
  - apply (NoDup_last_unique Immediate.ID_FLOATING l f); auto.
    rewrite <- Hrows. assumption.
  - intros Hids.
    rewrite Forall_forall in Hall, Hgen. apply Forall_forall. intros r Hr.
    apply Forall_forall. intros c Hc.
    destruct (Hall _ Hr) as (_ & _ & _ & _ & Hcs).
    destruct (Hgen _ Hr) as [_ Hgc].
    rewrite Forall_forall in Hcs, Hgc.
    destruct (Hcs _ Hc) as [_ Hokc].
    destruct (Hokc (Hgc _ Hc)) as (d & Hd & _ & <- & _).
    rewrite forallb_forall in Hids. specialize (Hids _ Hd).
    apply negb_true_iff, Z.eqb_neq in Hids. exact Hids.
Qed.

(** ** Rows that outlive a refresh *)

Section Kept.

Variable gen : Z.
Variable r0 : Root.

Lemma kept_replace (l1 l2 : list Root) (r r' : Root) :
  (root_row r' = root_row r
   \/ root_row r' = set_generation gen (root_row r)) ->
  (forall c, In c (children r) ->
     In c (children r') \/ In (set_generation gen c) (children r')) ->
  kept gen r0 (l1 ++ r :: l2) -> kept gen r0 (l1 ++ r' :: l2).
Proof.
  intros Hrow Hcs (x & Hin & Hx & Hxc).
  apply (In_elt_replace _ _ _ r') in Hin as [-> | Hin];
    [|exists x; auto].
  exists r'. split; [apply in_elt|]. split.
  - destruct Hrow as [-> | ->], Hx as [-> | ->]; auto.
  - intros c Hc. destruct (Hxc _ Hc) as [H | H].
    + apply Hcs; assumption.
    + destruct (Hcs _ H) as [H' | H']; auto.
Qed.

Lemma kept_app (rs l : list Root) : kept gen r0 rs -> kept gen r0 (rs ++ l).
Proof.
  intros (x & Hin & H). exists x. split; auto. apply in_or_app; auto.
Qed.

Lemma master_step_kept (ts : GtkTreeStore) (dev : XIDeviceInfo) :
  kept gen r0 (rows ts) -> kept gen r0 (rows (master_step gen ts dev)).
Proof.
  intros H. unfold master_step. destruct (is_master dev); auto.
  destruct (update_first _ _ (rows ts)) as [rs|] eqn:E; simpl.
  - apply update_first_some in E as (l1 & r & l2 & Hrs & _ & _ & ->).
    rewrite Hrs in H. revert H. apply kept_replace; auto.
  - apply kept_app; assumption.
Qed.

Lemma floating_pass_kept (fid : Z) (ts : GtkTreeStore) :
  kept gen r0 (rows ts) -> kept gen r0 (rows (floating_pass fid gen ts)).
Proof.
  intros (x & Hin & Hx & Hxc). unfold floating_pass.
  destruct (find_root fid (rows ts)) as [[[before f] after]|] eqn:E; simpl.
  - apply find_root_some in E as (Hrs & _ & _). rewrite Hrs in Hin.
    apply in_app_or in Hin as [Hin | [<- | Hin]].
    + exists x. split; auto. apply in_or_app; auto.
    + exists (set_root_generation gen f). split.
      * apply in_or_app; right. apply in_or_app; right. left; reflexivity.
      * split; auto. simpl. destruct Hx as [-> | ->]; auto.
    + exists x. split; auto.
      apply in_or_app; right. apply in_or_app; left. assumption.
  - apply kept_app. exists x; auto.
Qed.

Lemma slave_step_kept (ts : GtkTreeStore) (dev : XIDeviceInfo) :
  kept gen r0 (rows ts) ->
  kept gen r0 (rows (Immediate.slave_step gen ts dev)).
Proof.
  intros H. unfold Immediate.slave_step. destruct (is_master dev); auto.
  destruct (slave_walk_cases (Immediate.found_master dev) (next_node ts)
              gen dev (rows ts))
    as [[_ ->] | (l1 & r & l2 & Hrs & _ & _ & ->)]; simpl; auto.
  rewrite Hrs in H. revert H. apply kept_replace.
  - left. apply attach_root_row.
  - intros c. apply attach_keeps.
Qed.

Lemma before_sweep_kept (devices : list XIDeviceInfo) (ts : GtkTreeStore) :
  In r0 (rows ts) ->
  kept gen r0
    (rows (Immediate.slave_pass gen devices
             (floating_pass Immediate.ID_FLOATING gen
                (master_pass gen devices ts)))).
Proof.
  intros Hin. unfold Immediate.slave_pass, master_pass.
  apply (fold_left_preserves (Immediate.slave_step gen)
           (fun s => kept gen r0 (rows s))).
  - intros s d _. apply slave_step_kept.
  - apply floating_pass_kept.
    apply (fold_left_preserves (master_step gen)
             (fun s => kept gen r0 (rows s))).
    + intros s d _. apply master_step_kept.
    + exists r0. auto.
Qed.

End Kept.

(** ** Nodes are never shared *)

Lemma nodes_app (l1 l2 : list Root) : nodes (l1 ++ l2) = nodes l1 ++ nodes l2.
Proof. unfold nodes, all_rows. rewrite flat_map_app, map_app. reflexivity. Qed.

Lemma nodes_cons (r : Root) (rs : list Root) :
  nodes (r :: rs) = node (root_row r) :: map node (children r) ++ nodes rs.
Proof. unfold nodes, all_rows. simpl. rewrite map_app. reflexivity. Qed.

Lemma nodes_ok_fresh (rs rs' : list Root) (n : nat) :
  Permutation (nodes rs') (n :: nodes rs) ->
  nodes_ok rs n -> nodes_ok rs' (S n).
Proof.
  intros Hp [Hnd Hlt]. apply Permutation_sym in Hp. split.
  - apply (Permutation_NoDup Hp). constructor; auto.
    intros Hin. rewrite Forall_forall in Hlt. specialize (Hlt _ Hin). lia.
  - apply (Permutation_Forall Hp). constructor; [lia|].
    eapply Forall_impl; [|exact Hlt]. simpl. intros; lia.
Qed.

Lemma nodes_ok_same (rs rs' : list Root) (n : nat) :
  Permutation (nodes rs') (nodes rs) -> nodes_ok rs n -> nodes_ok rs' n.
Proof.
  intros Hp [Hnd Hlt]. apply Permutation_sym in Hp. split.
  - apply (Permutation_NoDup Hp); assumption.
  - apply (Permutation_Forall Hp); assumption.
Qed.

Lemma master_step_nodes_ok (gen : Z) (ts : GtkTreeStore) (dev : XIDeviceInfo) :
  nodes_ok (rows ts) (next_node ts) ->
  nodes_ok (rows (master_step gen ts dev)) (next_node (master_step gen ts dev)).
Proof.
  intros H. unfold master_step. destruct (is_master dev); auto.
  destruct (update_first _ _ (rows ts)) as [rs|] eqn:E; simpl.
  - apply update_first_some in E as (l1 & r & l2 & Hrs & _ & _ & ->).
    apply (nodes_ok_same (rows ts)); auto. rewrite Hrs, !nodes_app, !nodes_cons.
    reflexivity.
  - apply (nodes_ok_fresh (rows ts)); auto. rewrite nodes_app, nodes_cons.
    simpl. apply Permutation_sym, Permutation_cons_append.
Qed.

Lemma floating_pass_nodes_ok (fid gen : Z) (ts : GtkTreeStore) :
  nodes_ok (rows ts) (next_node ts) ->
  nodes_ok (rows (floating_pass fid gen ts))
           (next_node (floating_pass fid gen ts)).
Proof.
  intros H. unfold floating_pass.
  destruct (find_root fid (rows ts)) as [[[before f] after]|] eqn:E; simpl.
  - apply find_root_some in E as (Hrs & _ & _).
    apply (nodes_ok_same (rows ts)); auto.
    rewrite Hrs, !nodes_app. apply Permutation_app_head.
    change (f :: after) with ([f] ++ after). rewrite nodes_app.
    rewrite !nodes_cons. simpl. apply Permutation_app_comm.
  - apply (nodes_ok_fresh (rows ts)); auto. rewrite nodes_app, nodes_cons.
    simpl. apply Permutation_sym, Permutation_cons_append.
Qed.

Lemma slave_walk_nodes_ok (found : Z -> bool) (n : nat) (gen : Z)
    (dev : XIDeviceInfo) (rs : list Root) :
  nodes_ok rs n ->
  nodes_ok (fst (slave_walk found n gen dev rs))
           (snd (slave_walk found n gen dev rs)).
Proof.
  intros H.
  destruct (slave_walk_cases found n gen dev rs)
    as [[_ ->] | (l1 & r & l2 & Hrs & _ & _ & ->)]; simpl; auto.
  unfold attach.
  destruct (update_first _ _ (children r)) as [cs|] eqn:E; simpl.
  - apply update_first_some in E as (c1 & c & c2 & Hc & _ & _ & ->).
    apply (nodes_ok_same rs); auto.
    rewrite Hrs, !nodes_app, !nodes_cons. simpl.
    rewrite Hc, !map_app. reflexivity.
  - apply (nodes_ok_fresh rs); auto.
    rewrite Hrs, !nodes_app, !nodes_cons. simpl. rewrite map_app. simpl.
    apply Permutation_sym.
    apply (Permutation_trans
             (l' := nodes l1 ++ n :: node (root_row r)
                    :: map node (children r) ++ nodes l2)).
    + apply Permutation_middle.
    + apply Permutation_app_head.
      apply (Permutation_trans
               (l' := node (root_row r)
                      :: n :: map node (children r) ++ nodes l2)).
      * apply perm_swap.
      * apply perm_skip. rewrite <- app_assoc. simpl.
        apply Permutation_middle.
Qed.

Lemma slave_step_nodes_ok (gen : Z) (ts : GtkTreeStore) (dev : XIDeviceInfo) :
  nodes_ok (rows ts) (next_node ts) ->
  nodes_ok (rows (Immediate.slave_step gen ts dev))
           (next_node (Immediate.slave_step gen ts dev)).
Proof.
  intros H. unfold Immediate.slave_step. destruct (is_master dev); auto.
  pose proof (slave_walk_nodes_ok (Immediate.found_master dev) (next_node ts)
                gen dev (rows ts) H) as H'.
  destruct (slave_walk _ _ _ _ _); exact H'.
Qed.

Lemma sweep_nodes_incl (gen : Z) (rs : list Root) :
  incl (nodes (sweep gen rs)) (nodes rs).
Proof.
  induction rs as [|r rs IH]; simpl; [apply incl_refl|].
  rewrite nodes_cons. destruct (root_gen r <? gen).
  - apply incl_tl. apply incl_appr. exact IH.
  - rewrite nodes_cons. simpl. apply incl_cons; [left; reflexivity|].
    apply incl_tl. apply incl_app.
    + apply incl_appl. rewrite sweep_children_filter.
      intros m Hm. apply in_map_iff in Hm as (c & <- & Hc).
      apply filter_In in Hc as [Hc _]. apply in_map; assumption.
    + apply incl_appr. exact IH.
Qed.

Lemma NoDup_app_disjoint {A : Type} (l1 l2 : list A) (x : A) :
  NoDup (l1 ++ l2) -> In x l1 -> In x l2 -> False.
Proof.
  induction l1 as [|a l1 IH]; simpl; intros Hnd H1 H2; [contradiction|].
  inversion Hnd as [|? ? Ha Hnd']; subst. destruct H1 as [-> | H1]; auto.
  apply Ha. apply in_or_app; right; assumption.
Qed.

Lemma sweep_nodes_ok (gen : Z) (rs : list Root) (n : nat) :
  nodes_ok rs n -> nodes_ok (sweep gen rs) n.
Proof.
  intros [Hnd Hlt]. split.
  - clear Hlt. induction rs as [|r rs IH]; simpl; [constructor|].
    rewrite nodes_cons in Hnd. inversion Hnd as [|? ? Hr Hnd']; subst.
    pose proof (NoDup_app_remove_l _ _ Hnd') as Hrs.
    pose proof (NoDup_app_remove_r _ _ Hnd') as Hcs.
    destruct (root_gen r <? gen); [auto|].
    rewrite nodes_cons. simpl. constructor.
    + intros Hin. apply Hr. apply in_app_or in Hin as [Hin | Hin].
      * apply in_or_app; left. rewrite sweep_children_filter in Hin.
        apply in_map_iff in Hin as (c & <- & Hc).
        apply filter_In in Hc as [Hc _]. apply in_map; assumption.
      * apply in_or_app; right. apply (sweep_nodes_incl gen rs); assumption.
    + apply NoDup_app; auto.
      * rewrite sweep_children_filter. apply NoDup_map_filter; assumption.
      * intros m Hm Hm'. rewrite sweep_children_filter in Hm.
        apply in_map_iff in Hm as (c & <- & Hc).
        apply filter_In in Hc as [Hc _].
        apply (sweep_nodes_incl gen rs) in Hm'.
        apply (NoDup_app_disjoint _ _ (node c) Hnd'); auto.
        apply in_map; assumption.
  - apply Forall_forall. intros m Hm. rewrite Forall_forall in Hlt.
    apply Hlt. apply (sweep_nodes_incl gen rs); assumption.
Qed.

(** Through a refresh the rows of the store keep distinct nodes. *)
Lemma reconcile_nodes_ok (gen : Z) (devices : list XIDeviceInfo)
    (ts : GtkTreeStore) :
  nodes_ok (rows ts) (next_node ts) ->
  nodes_ok (rows (Immediate.reconcile gen devices ts))
           (next_node (Immediate.reconcile gen devices ts)).
Proof.
  intros H. unfold Immediate.reconcile, sweep_store. simpl.
  apply sweep_nodes_ok.
  unfold Immediate.slave_pass.
  apply (fold_left_preserves (Immediate.slave_step gen)
           (fun s => nodes_ok (rows s) (next_node s))).
  - intros s d _. apply slave_step_nodes_ok.
  - apply floating_pass_nodes_ok. unfold master_pass.
    apply (fold_left_preserves (master_step gen)
             (fun s => nodes_ok (rows s) (next_node s))); auto.
    intros s d _. apply master_step_nodes_ok.
Qed.

Lemma refreshes_nodes_ok (lists : list (list XIDeviceInfo)) :
  nodes_ok (rows (snd (refreshes lists))) (next_node (snd (refreshes lists))).
Proof.
  unfold refreshes.
  apply (fold_left_preserves refresh
           (fun s => nodes_ok (rows (snd s)) (next_node (snd s)))).
  - intros s d _ H. apply reconcile_nodes_ok; assumption.
  - split; constructor.
Qed.

(** The between-refreshes state holds after any series of refreshes with
    well-formed device lists. *)
Lemma refreshes_store_ok (lists : list (list XIDeviceInfo)) :
  forallb well_formed lists = true ->
  store_ok (fst (refreshes lists)) (snd (refreshes lists)) = true.
Proof.
  intros Hwf. rewrite forallb_forall in Hwf. unfold refreshes.
  apply (fold_left_preserves refresh
           (fun s => store_ok (fst s) (snd s) = true)).
  - intros s d Hd H. apply reconcile_store_ok; auto.
  - reflexivity.
Qed.

(** [query_devices] returns the store that [reconcile] builds from the
    server's answer, and counts the pass. *)
Lemma query_devices_reconcile (gds : GDeviceSetup) :
  fst (Immediate.query_devices gds)
  = Immediate.reconcile (generation gds + 1) (XIQueryDevice (dpy gds))
      (match treeview gds with
       | Some ts => ts
       | None => gtk_tree_store_new
       end)
  /\ generation (snd (Immediate.query_devices gds)) = generation gds + 1
  /\ dpy (snd (Immediate.query_devices gds)) = dpy gds
  /\ changes (snd (Immediate.query_devices gds)) = changes gds.
Proof. repeat split. Qed.

(** ** The session of the current version *)

Section Session.

Import Immediate.

Lemma query_devices_session_ok (gds : GDeviceSetup) (ts : GtkTreeStore) :
  changes gds = [] ->
  rows_inv (generation gds) (fun _ => True) (fun _ => True) (fun _ _ => True)
           (rows ts) ->
  nodes_ok (rows ts) (next_node ts) ->
  (treeview gds = Some ts
   \/ (treeview gds = None /\ ts = gtk_tree_store_new)) ->
  let ts' := fst (query_devices gds) in
  let gds' := snd (query_devices gds) in
  changes gds' = []
  /\ generation gds' = generation gds + 1
  /\ rows_inv (generation gds') (fun _ => True) (fun _ => True)
              (fun _ _ => True) (rows ts')
  /\ floating_last (generation gds') (rows ts')
  /\ nodes_ok (rows ts') (next_node ts')
  /\ (treeview gds = Some ts -> treeview gds' = Some ts').
Proof.
  intros Hch Hinv Hnodes Htv. unfold query_devices. simpl.
  assert (match treeview gds with
          | Some t => t
          | None => gtk_tree_store_new
          end = ts) as ->
    by (destruct Htv as [-> | [-> ->]]; reflexivity).
  destruct (reconcile_any_list (generation gds) (XIQueryDevice (dpy gds)) ts
              Hinv) as (H1 & H2 & _).
  split; [assumption|]. split; [reflexivity|].
  split; [apply rows_inv_weaken in H1; exact H1|].
  split; [exact H2|].
  split; [apply reconcile_nodes_ok; assumption|].
  intros ->. reflexivity.
Qed.

(** A refresh after the display has been used keeps the session in
    order. *)
Lemma refresh_session_ok (gds : GDeviceSetup) (d : Display) :
  session_ok gds -> session_ok (snd (query_devices (set_dpy d gds))).
Proof.
  intros (Hch & ts & Htv & Hinv & _ & Hnodes).
  destruct (query_devices_session_ok (set_dpy d gds) ts)
    as (H1 & H2 & H3 & H4 & H5 & H6); auto.
  split; [assumption|].
  exists (fst (query_devices (set_dpy d gds))). auto.
Qed.

Lemma main_start_session_ok (d : Display) : session_ok (main_start d).
Proof.
  unfold main_start, get_tree_view.
  set (gds0 := toggle_undo_button false (gds_init d)).
  destruct (query_devices_session_ok gds0 gtk_tree_store_new)
    as (H1 & H2 & H3 & H4 & H5 & _); auto.
  - split; constructor.
  - split; constructor.
  - destruct (query_devices gds0) as [ts gds'] eqn:E. simpl in *.
    split; [assumption|]. exists ts. auto.
Qed.

Lemma handle_session_ok (gds : GDeviceSetup) (e : Event) :
  session_ok gds -> session_ok (handle gds e).
Proof.
  intros Hok. destruct e as [sel dest | answer | iter | response answer_no];
    simpl.
  - unfold signal_dnd_recv.
    destruct (treeview gds) as [model|]; auto.
    destruct sel as [sel_iter|]; auto.
    destruct (row_at model sel_iter) as [s|]; auto.
    destruct ((COL_USE s =? XIMasterPointer) || (COL_USE s =? XIMasterKeyboard));
      auto.
    destruct dest as [[dest_iter pos]|]; auto.
    destruct (top_level_of model dest_iter) as [final_parent|]; auto.
    unfold float_device, change_attachment, send.
    destruct (root_id final_parent =? ID_FLOATING);
      match goal with
      | |- context [if negb ?b then _ else _] => destruct b
      end;
      first [exact Hok | exact (refresh_session_ok gds _ Hok)].
  - unfold signal_new_md. destruct answer; auto.
    exact (refresh_session_ok gds _ Hok).
  - unfold request_remove_master.
    destruct (signal_button_press true 3 (Some iter) gds) as [[b sel] [item|]];
      auto.
    destruct (sensitive item); auto.
    unfold signal_popup_activate.
    destruct (treeview gds) as [model|]; auto.
    destruct sel as [it|]; auto.
    destruct (row_at model it) as [s|]; auto.
    exact (refresh_session_ok gds _ Hok).
  - destruct response; simpl; auto.
    destruct (changes gds); auto.
Qed.

(** Whatever the user and the server do, the session stays in order: in
    particular the current version never has a change waiting. *)
Lemma run_session_ok (d : Display) (events : list Event) :
  session_ok (run d events).
Proof.
  unfold run. apply (fold_left_preserves handle session_ok).
  - intros s e _. apply handle_session_ok.
  - apply main_start_session_ok.
Qed.

End Session.

(** ** The order of the device list *)

Lemma master_ids_perm (l l' : list XIDeviceInfo) (x : Z) :
  Permutation l l' -> In x (master_ids l) -> In x (master_ids l').
Proof.
  intros Hp Hin. apply master_ids_In in Hin as (d & Hd & Hdm & <-).
  apply In_master_ids; auto. apply (Permutation_in _ Hp); assumption.
Qed.

Lemma okr_of_perm (l l' : list XIDeviceInfo) (x : Z) :
  Permutation l l' -> okr_of l x -> okr_of l' x.
Proof.
  intros Hp [-> | Hin]; [left; reflexivity | right].
  apply (master_ids_perm l); assumption.
Qed.

Lemma okc_of_perm (l l' : list XIDeviceInfo) (p c : Z) :
  Permutation l l' -> okc_of l p c -> okc_of l' p c.
Proof.
  intros Hp (d & Hd & H). exists d. split; auto.
  apply (Permutation_in _ Hp); assumption.
Qed.

Lemma well_formed_perm (l l' : list XIDeviceInfo) :
  Permutation l l' -> well_formed l = true -> well_formed l' = true.
Proof.
  intros Hp Hwf. unfold well_formed in *. rewrite forallb_forall in *.
  intros d Hd. apply Permutation_sym in Hp.
  specialize (Hwf d (Permutation_in _ Hp Hd)).
  unfold well_formed_device in *.
  apply andb_true_iff in Hwf as [Hpos H]. apply andb_true_iff. split; auto.
  destruct (is_master d); auto. simpl in *.
  destruct (use d =? XIFloatingSlave); auto.
  apply existsb_exists in H as (m & Hm & Hmm). apply existsb_exists.
  exists m. split; auto. apply Permutation_sym in Hp.
  apply (Permutation_in _ Hp); assumption.
Qed.

Lemma synced_perm (l l' : list XIDeviceInfo) (rs : list Root) :
  Permutation l l' -> synced l rs -> synced l' rs.
Proof.
  intros Hp (Hnd & Hall & Hlast & Hokr & Hokc & Hm & Hs).
  pose proof (Permutation_sym Hp) as Hp'.
  split; [assumption|]. split; [assumption|]. split; [assumption|].
  split; [|split; [|split]].
  - intros r Hr. apply (okr_of_perm l); auto.
  - intros r c Hr Hc. apply (okc_of_perm l); auto.
  - intros d Hd. apply Hm. apply (Permutation_in _ Hp'); assumption.
  - intros d Hd. apply Hs. apply (Permutation_in _ Hp'); assumption.
Qed.

Lemma synced_root_ids (devices : list XIDeviceInfo) (rs : list Root) (p : Z) :
  synced devices rs -> (In p (map root_id rs) <-> okr_of devices p).
Proof.
  intros (_ & _ & (l & f & Hl & Hf) & Hokr & _ & Hm & _). split.
  - intros Hin. apply in_map_iff in Hin as (r & <- & Hr). auto.
  - intros [-> | Hin].
    + rewrite <- Hf. apply in_map. rewrite Hl. apply in_elt.
    + apply master_ids_In in Hin as (d & Hd & Hdm & <-). auto.
Qed.

Lemma In_edges (ts : GtkTreeStore) (p c : Z) :
  In (p, c) (edges ts) <->
  exists r, In r (rows ts) /\ root_id r = p /\ In c (map COL_ID (children r)).
Proof.
  unfold edges. rewrite in_flat_map. split.
  - intros (r & Hr & Hin). apply in_map_iff in Hin as (x & E & Hx).
    inversion E; subst. exists r. repeat split; auto. apply in_map; assumption.
  - intros (r & Hr & <- & Hin). apply in_map_iff in Hin as (x & <- & Hx).
    exists r. split; auto.
    apply (in_map (fun c => (root_id r, COL_ID c))); assumption.
Qed.

Lemma synced_edges (devices : list XIDeviceInfo) (ts : GtkTreeStore) (p c : Z) :
  well_formed devices = true -> synced devices (rows ts) ->
  (In (p, c) (edges ts) <->
   exists d, In d devices /\ is_master d = false /\ deviceid d = c
             /\ parent_id d = p).
Proof.
  intros Hwf (_ & Hall & _ & _ & Hokc & _ & Hs). rewrite In_edges. split.
  - intros (r & Hr & <- & Hin). apply in_map_iff in Hin as (x & <- & Hx).
    destruct (Hokc _ _ Hr Hx) as (d & Hd & Hds & Hid & Hf).
    exists d. repeat split; auto.
    destruct (well_formed_parent _ _ Hwf Hd Hds) as (_ & _ & Huniq).
    symmetry. apply Huniq; auto.
    rewrite Forall_forall in Hall. apply (Hall _ Hr).
  - intros (d & Hd & Hds & <- & <-).
    destruct (Hs _ Hd Hds) as (r & Hr & Hid & Hc). exists r. auto.
Qed.

Lemma NoDup_edges (ts : GtkTreeStore) :
  NoDup (map root_id (rows ts)) ->
  Forall (fun r => NoDup (map COL_ID (children r))) (rows ts) ->
  NoDup (edges ts).
Proof.
  unfold edges. induction (rows ts) as [|r rs IH]; simpl; intros Hnd Hall;
    [constructor|].
  inversion Hnd as [|? ? Hr Hnd']; subst.
  inversion Hall as [|? ? Hc Hall']; subst.
  apply NoDup_app; auto.
  - clear - Hc. induction (children r) as [|c cs IHc]; simpl; [constructor|].
    inversion Hc as [|? ? Hn Hc']; subst. constructor; auto.
    intros Hin. apply Hn. apply in_map_iff in Hin as (x & E & Hx).
    injection E as E'. rewrite <- E'. apply in_map; assumption.
  - intros [p c] Hin Hin'. apply Hr.
    apply in_map_iff in Hin as (x & E & Hx). inversion E; subst.
    apply in_flat_map in Hin' as (r' & Hr' & Hin').
    apply in_map_iff in Hin' as (y & E' & Hy). injection E' as E1 E2.
    rewrite <- E1. apply in_map; assumption.
Qed.

(** ** The event handlers *)

(** C10.  A drop while a master row is selected changes nothing at all in
    the session: no request to the server, no change queued, the tree as
    it was.  Both versions. *)
Theorem drop_of_master_does_nothing (gds : GDeviceSetup) (model : GtkTreeStore)
    (sel : nat) (s : Row) (dest : option (nat * GtkTreeViewDropPosition)) :
  treeview gds = Some model ->
  row_at model sel = Some s ->
  COL_USE s = XIMasterPointer \/ COL_USE s = XIMasterKeyboard ->
  Immediate.signal_dnd_recv (Some sel) dest gds = gds
  /\ Staged.signal_dnd_recv (Some sel) dest gds = gds.
Proof.
  intros Hm Hs Hu.
  unfold Immediate.signal_dnd_recv, Staged.signal_dnd_recv.
  rewrite Hm, Hs. destruct Hu as [-> | ->]; split; reflexivity.
Qed.


(** C5.  A right click on a row with id 2 or 3 followed by "Remove"
    leaves the session as it was, so nothing is sent to the server: the
    row has no menu, or the menu's item cannot be activated. *)
Theorem reserved_master_is_not_removed (gds : GDeviceSetup)
    (model : GtkTreeStore) (iter : nat) (s : Row) :
  treeview gds = Some model ->
  row_at model iter = Some s ->
  COL_ID s = 2 \/ COL_ID s = 3 ->
  Immediate.request_remove_master iter gds = gds
  /\ forall item,
       snd (Immediate.signal_button_press true 3 (Some iter) gds) = Some item ->
       sensitive item = false.
Proof.
  intros Hm Hs Hid.
  unfold Immediate.request_remove_master, Immediate.signal_button_press.
  simpl. rewrite Hm, Hs.
  destruct ((COL_USE s =? XIMasterPointer) || (COL_USE s =? XIMasterKeyboard));
    destruct Hid as [E | E]; rewrite ?E; simpl; split; auto;
    intros item Hitem; inversion Hitem; reflexivity.
Qed.

(** The older version guards other ids: those below 2, and the
    "Floating" row. *)
Lemma old_version_guards_ids_below_two (gds : GDeviceSetup)
    (model : GtkTreeStore) (iter : nat) (s : Row) :
  treeview gds = Some model ->
  row_at model iter = Some s ->
  COL_ID s < 2 \/ COL_USE s = XIFloatingSlave ->
  Staged.request_remove_master iter gds = gds.
Proof.
  intros Hm Hs Hid.
  unfold Staged.request_remove_master, Staged.signal_button_press.
  simpl. rewrite Hm, Hs.
  destruct ((COL_USE s =? XIMasterPointer) || (COL_USE s =? XIMasterKeyboard)
            || (COL_USE s =? XIFloatingSlave)); [|reflexivity].
  assert ((COL_ID s <? 2) || (COL_USE s =? XIFloatingSlave) = true) as E.
  { apply orb_true_iff. destruct Hid as [H | H]; [left | right].
    - apply Z.ltb_lt; assumption.
    - apply Z.eqb_eq; assumption. }
  simpl. rewrite E. reflexivity.
Qed.

(** ** The theorems at work on the small server *)

Import Example.

Lemma reconcile_shows_the_devices_witness :
  store_ok 1 store_before = true
  /\ well_formed devices_after = true
  /\ (forall id,
        In id (device_ids (Immediate.reconcile (1 + 1) devices_after store_before))
        <-> In id (map deviceid devices_after))
  /\ Forall (fun s => s = 1 + 1)
            (generations (Immediate.reconcile (1 + 1) devices_after store_before)).
Proof.
  split; [reflexivity|]. split; [reflexivity|].
  apply (reconcile_shows_the_devices 1 devices_after store_before);
    reflexivity.
Defined.

(** C2 as stated fails: the second refresh of the same list leaves every
    stamp at 2 where the first left it at 1. *)
Lemma second_refresh_advances_the_stamps :
  generations (Immediate.reconcile 1 devices gtk_tree_store_new) = [1; 1; 1; 1]
  /\ generations
       (Immediate.reconcile 2 devices
          (Immediate.reconcile 1 devices gtk_tree_store_new))
     = [2; 2; 2; 2]
  /\ Immediate.reconcile 2 devices
       (Immediate.reconcile 1 devices gtk_tree_store_new)
     <> Immediate.reconcile 1 devices gtk_tree_store_new.
Proof.
  split; [reflexivity|]. split; [reflexivity|].
  intros E. apply (f_equal generations) in E. vm_compute in E. discriminate.
Qed.

Lemma reconcile_twice_witness :
  store_ok 1 store_before = true
  /\ well_formed devices_after = true
  /\ Immediate.reconcile (1 + 2) devices_after
       (Immediate.reconcile (1 + 1) devices_after store_before)
     = restamp (1 + 2) (Immediate.reconcile (1 + 1) devices_after store_before)
  /\ Forall (fun s => s = 1 + 1)
            (generations (Immediate.reconcile (1 + 1) devices_after store_before)).
Proof.
  split; [reflexivity|]. split; [reflexivity|].
  apply (reconcile_twice 1 devices_after store_before); reflexivity.
Defined.

Lemma floating_row_single_and_last_witness :
  exists l f,
    rows (snd (refresh (refreshes [devices_before; devices_after]) devices))
    = l ++ [f]
    /\ root_id f = Immediate.ID_FLOATING
    /\ Forall (fun r => root_id r <> Immediate.ID_FLOATING) l
    /\ Forall (fun r => Forall (fun c => COL_ID c <> Immediate.ID_FLOATING)
                               (children r))
              (rows (snd (refresh (refreshes [devices_before; devices_after])
                                  devices))).
Proof.
  destruct (floating_row_single_and_last [devices_before; devices_after]
              devices) as (l & f & H1 & H2 & H3 & H4).
  exists l, f. split; [exact H1|]. split; [exact H2|]. split; [exact H3|].
  apply H4. reflexivity.
Defined.

(** C7 as stated fails: the mouse is in both lists, below master 2 in the
    first and below master 4 in the second, and its row after the second
    refresh is another node. *)
Lemma moved_slave_gets_a_new_row :
  In 9 (map deviceid devices_before)
  /\ In 9 (map deviceid devices_after)
  /\ nodes_of 9 store_before = [5%nat]
  /\ nodes_of 9 (Immediate.reconcile 2 devices_after store_before) = [7%nat].
Proof. vm_compute. intuition. Qed.

(** C9 as stated fails: two masters that are new to the store appear in
    the order of the list. *)
Lemma new_masters_follow_the_list :
  Permutation [vcp; vck] [vck; vcp]
  /\ root_ids (Immediate.reconcile 1 [vcp; vck] gtk_tree_store_new) = [2; 3; -1]
  /\ root_ids (Immediate.reconcile 1 [vck; vcp] gtk_tree_store_new) = [3; 2; -1].
Proof. split; [apply perm_swap | split; reflexivity]. Qed.



Lemma reserved_master_is_not_removed_witness :
  Immediate.request_remove_master 0 session = session
  /\ forall item,
       snd (Immediate.signal_button_press true 3 (Some 0%nat) session)
       = Some item ->
       sensitive item = false.
Proof.
  apply (reserved_master_is_not_removed session
           (Immediate.reconcile 1 devices gtk_tree_store_new) 0%nat pointer_row).
  - reflexivity.
  - reflexivity.
  - left; reflexivity.
Defined.

Lemma drop_of_master_does_nothing_witness :
  Immediate.signal_dnd_recv (Some 0%nat)
    (Some (2%nat, GTK_TREE_VIEW_DROP_INTO_OR_AFTER)) session = session
  /\ Staged.signal_dnd_recv (Some 0%nat)
       (Some (2%nat, GTK_TREE_VIEW_DROP_INTO_OR_AFTER)) session = session.
Proof.
  apply (drop_of_master_does_nothing session
           (Immediate.reconcile 1 devices gtk_tree_store_new) 0%nat pointer_row).
  - reflexivity.
  - reflexivity.
  - left; reflexivity.
Defined.

(** In the older version master 2 can be removed, and "apply" after a
    drop finds an integer where it expects a change. *)
Lemma old_version_on_the_small_server :
  requests (dpy (Staged.request_remove_master 0 old_session))
  = [[XIRemoveMaster 2 XIFloating None None]]
  /\ Staged.apply true old_session_staged = None.
Proof. split; reflexivity. Qed.

(** ** What holds of every row through a refresh *)

Lemma rows_all_all_rows (Q : Row -> Prop) (rs : list Root) :
  rows_all Q Q rs <-> Forall Q (all_rows rs).
Proof.
  unfold rows_all, all_rows. induction rs as [|r rs IH]; simpl.
  - split; constructor.
  - rewrite Forall_cons_iff, IH. split.
    + intros [[Hr Hc] Hrs]. constructor; auto. apply Forall_app; auto.
    + intros H. inversion H as [|? ? Hr H']; subst.
      apply Forall_app in H' as [Hc Hrs]. auto.
Qed.

Section AllRows.

Variable gen : Z.
Variables Qr Qc : Row -> Prop.

Hypothesis Qr_stamp : forall c, Qr c -> Qr (set_generation gen c).
Hypothesis Qc_stamp : forall c, Qc c -> Qc (set_generation gen c).

Lemma master_step_all (ts : GtkTreeStore) (dev : XIDeviceInfo) :
  (is_master dev = true -> Qr (master_row (next_node ts) gen dev)) ->
  rows_all Qr Qc (rows ts) -> rows_all Qr Qc (rows (master_step gen ts dev)).
Proof.
  intros Hnew Hall. unfold master_step.
  destruct (is_master dev); [|assumption]. specialize (Hnew eq_refl).
  destruct (update_first _ _ (rows ts)) as [rs|] eqn:E; simpl.
  - apply update_first_some in E as (l1 & r & l2 & Hrs & _ & _ & ->).
    unfold rows_all in *. rewrite Hrs in Hall.
    apply Forall_elt_iff in Hall as (H1 & [Hr Hc] & H2).
    apply Forall_elt_iff. split; [assumption | split; [| assumption]].
    split; simpl; auto.
  - unfold rows_all in *. apply Forall_app. split; [assumption|].
    constructor; [|constructor]. split; [exact Hnew | constructor].
Qed.

Lemma floating_pass_all (fid : Z) (ts : GtkTreeStore) :
  Qr (bucket_row fid (next_node ts) gen) ->
  rows_all Qr Qc (rows ts) ->
  rows_all Qr Qc (rows (floating_pass fid gen ts)).
Proof.
  intros Hnew Hall. unfold floating_pass.
  destruct (find_root fid (rows ts)) as [[[before f] after]|] eqn:E; simpl.
  - apply find_root_some in E as (Hrs & _ & _).
    unfold rows_all in *. rewrite Hrs in Hall.
    apply Forall_elt_iff in Hall as (H1 & [Hr Hc] & H2).
    apply Forall_app; split; auto. apply Forall_app; split; auto.
    constructor; [|constructor]. split; simpl; auto.
  - unfold rows_all in *. apply Forall_app. split; [assumption|].
    constructor; [|constructor]. split; [exact Hnew | constructor].
Qed.

Lemma slave_walk_all (found : Z -> bool) (n : nat) (dev : XIDeviceInfo)
    (rs : list Root) :
  Qc (slave_row n gen dev) ->
  rows_all Qr Qc rs -> rows_all Qr Qc (fst (slave_walk found n gen dev rs)).
Proof.
  intros Hnew Hall.
  destruct (slave_walk_cases found n gen dev rs)
    as [[_ ->] | (l1 & r & l2 & -> & _ & _ & ->)]; simpl; auto.
  unfold rows_all in *.
  apply Forall_elt_iff in Hall as (H1 & [Hr Hc] & H2).
  apply Forall_elt_iff. split; [assumption | split; [| assumption]].
  unfold attach.
  destruct (update_first _ _ (children r)) as [cs|] eqn:E; simpl.
  - apply update_first_some in E as (c1 & c & c2 & Hcs & _ & _ & ->).
    split; auto. rewrite Hcs in Hc.
    apply Forall_elt_iff in Hc as (Hc1 & Hx & Hc2).
    apply Forall_elt_iff. auto.
  - split; auto. apply Forall_app. split; auto.
Qed.

Lemma sweep_all (rs : list Root) :
  rows_all Qr Qc rs -> rows_all Qr Qc (sweep gen rs).
Proof.
  unfold rows_all. intros Hall. apply Forall_forall. intros r' Hin.
  apply In_sweep in Hin as (r & Hin & _ & ->).
  rewrite Forall_forall in Hall. destruct (Hall _ Hin) as [Hr Hc].
  split; auto. simpl. apply Forall_forall. intros c Hc'.
  apply In_sweep_children in Hc' as [Hc' _].
  rewrite Forall_forall in Hc. auto.
Qed.

End AllRows.

(** The store never takes a node back. *)
Lemma master_step_next (gen : Z) (ts : GtkTreeStore) (dev : XIDeviceInfo) :
  (next_node ts <= next_node (master_step gen ts dev))%nat.
Proof.
  unfold master_step. destruct (is_master dev); auto.
  destruct (update_first _ _ (rows ts)); simpl; lia.
Qed.

Lemma floating_pass_next (fid gen : Z) (ts : GtkTreeStore) :
  (next_node ts <= next_node (floating_pass fid gen ts))%nat.
Proof.
  unfold floating_pass.
  destruct (find_root fid (rows ts)) as [[[? ?] ?]|]; simpl; lia.
Qed.

Lemma slave_walk_next (found : Z -> bool) (n : nat) (gen : Z)
    (dev : XIDeviceInfo) (rs : list Root) :
  (n <= snd (slave_walk found n gen dev rs))%nat.
Proof.
  destruct (slave_walk_cases found n gen dev rs)
    as [[_ ->] | (l1 & r & l2 & _ & _ & _ & ->)]; simpl; auto.
  unfold attach. destruct (update_first _ _ (children r)); simpl; lia.
Qed.

Section AllRowsPass.

Variable gen : Z.
Variables Qr Qc : Row -> Prop.
Variable devices : list XIDeviceInfo.
Variable n0 : nat.

Hypothesis Qr_stamp : forall c, Qr c -> Qr (set_generation gen c).
Hypothesis Qc_stamp : forall c, Qc c -> Qc (set_generation gen c).
Hypothesis Qr_master :
  forall n d, (n0 <= n)%nat -> In d devices -> is_master d = true ->
              Qr (master_row n gen d).
Hypothesis Qc_slave :
  forall n d, (n0 <= n)%nat -> In d devices -> is_master d = false ->
              Qc (slave_row n gen d).

Let I (s : GtkTreeStore) : Prop :=
  (n0 <= next_node s)%nat /\ rows_all Qr Qc (rows s).

Lemma master_pass_all (ts : GtkTreeStore) :
  I ts -> I (master_pass gen devices ts).
Proof.
  unfold master_pass. apply fold_left_preserves.
  intros s d Hd [Hn Hall]. split.
  - pose proof (master_step_next gen s d). lia.
  - apply master_step_all; auto.
Qed.

Lemma floating_pass_all_next (fid : Z) (ts : GtkTreeStore) :
  (forall n, (n0 <= n)%nat -> Qr (bucket_row fid n gen)) ->
  I ts -> I (floating_pass fid gen ts).
Proof.
  intros Hb [Hn Hall]. split.
  - pose proof (floating_pass_next fid gen ts). lia.
  - apply floating_pass_all; auto.
Qed.

Lemma immediate_slave_pass_all (ts : GtkTreeStore) :
  I ts -> I (Immediate.slave_pass gen devices ts).
Proof.
  unfold Immediate.slave_pass. apply fold_left_preserves.
  intros s d Hd [Hn Hall]. unfold Immediate.slave_step.
  destruct (is_master d) eqn:Hm; [split; assumption|].
  pose proof (slave_walk_all gen Qr Qc Qc_stamp (Immediate.found_master d)
                (next_node s) d (rows s)
                (Qc_slave _ _ Hn Hd Hm) Hall) as H.
  pose proof (slave_walk_next (Immediate.found_master d) (next_node s) gen d
                (rows s)) as H'.
  destruct (slave_walk _ _ _ _ _). simpl in *. split; simpl; [lia | assumption].
Qed.

Lemma staged_slave_pass_all (ts : GtkTreeStore) :
  I ts -> I (Staged.slave_pass gen devices ts).
Proof.
  revert Qr_master Qc_slave. generalize devices as l.
  induction l as [|d l IH]; simpl; intros Hm Hs [Hn Hall];
    [split; assumption|].
  destruct (is_master d) eqn:Hdm.
  - apply IH; [| |split; assumption]; intros; [apply Hm | apply Hs]; auto;
      right; assumption.
  - pose proof (slave_walk_all gen Qr Qc Qc_stamp
                  (fun masterid => masterid =? deviceid d)
                  (next_node ts) d (rows ts)
                  (Hs _ _ Hn (or_introl eq_refl) Hdm) Hall) as H.
    pose proof (slave_walk_next (fun masterid => masterid =? deviceid d)
                  (next_node ts) gen d (rows ts)) as H'.
    destruct (slave_walk _ _ _ _ _). simpl in *. split; simpl; [lia | assumption].
Qed.

Lemma immediate_reconcile_all (ts : GtkTreeStore) :
  (forall n, (n0 <= n)%nat -> Qr (bucket_row Immediate.ID_FLOATING n gen)) ->
  I ts -> rows_all Qr Qc (rows (Immediate.reconcile gen devices ts)).
Proof.
  intros Hb Hts. unfold Immediate.reconcile, sweep_store. simpl.
  apply sweep_all.
  apply immediate_slave_pass_all, floating_pass_all_next, master_pass_all;
    assumption.
Qed.

Lemma staged_reconcile_all (ts : GtkTreeStore) :
  (forall n, (n0 <= n)%nat -> Qr (bucket_row XIFloatingSlave n gen)) ->
  I ts -> rows_all Qr Qc (rows (Staged.reconcile gen devices ts)).
Proof.
  intros Hb Hts. unfold Staged.reconcile, sweep_store. simpl.
  apply sweep_all.
  apply staged_slave_pass_all, floating_pass_all_next, master_pass_all;
    assumption.
Qed.

End AllRowsPass.

(** ** Further properties of the refresh *)

(** X1.  A refresh never rewrites a row: every row of the store it
    returns is a row of the store before with at most the stamp changed,
    or a row it appended on a fresh node, filled from a device of the list
    or as the "Floating" row.  Both versions. *)
Theorem refresh_rows_are_old_or_made (gen : Z) (devices : list XIDeviceInfo)
    (ts : GtkTreeStore) (c : Row) :
  (In c (all_rows (rows (Immediate.reconcile gen devices ts))) ->
   old_or_made Immediate.ID_FLOATING gen devices ts c)
  /\ (In c (all_rows (rows (Staged.reconcile gen devices ts))) ->
      old_or_made XIFloatingSlave gen devices ts c).
Proof.
  assert (forall fid,
            (forall x, old_or_made fid gen devices ts x ->
                       old_or_made fid gen devices ts (set_generation gen x))
            /\ (forall n d, (next_node ts <= n)%nat -> In d devices ->
                  is_master d = true ->
                  old_or_made fid gen devices ts (master_row n gen d))
            /\ (forall n d, (next_node ts <= n)%nat -> In d devices ->
                  is_master d = false ->
                  old_or_made fid gen devices ts (slave_row n gen d))
            /\ (forall n, (next_node ts <= n)%nat ->
                  old_or_made fid gen devices ts (bucket_row fid n gen))
            /\ rows_all (old_or_made fid gen devices ts)
                        (old_or_made fid gen devices ts) (rows ts)) as H.
  { intros fid. split; [|split; [|split; [|split]]].
    - intros x [(c0 & Hc0 & [-> | ->]) | (n & Hn & Hx)].
      + left. exists c0. auto.
      + left. exists c0. auto.
      + right. exists n. split; auto.
        destruct Hx as [(d & Hd & Hm & ->) | [(d & Hd & Hm & ->) | ->]].
        * left. exists d. auto.
        * right; left. exists d. auto.
        * right; right. reflexivity.
    - intros n d Hn Hd Hm. right. exists n. split; auto. left. exists d. auto.
    - intros n d Hn Hd Hm. right. exists n. split; auto.
      right; left. exists d. auto.
    - intros n Hn. right. exists n. auto.
    - apply rows_all_all_rows, Forall_forall. intros c0 Hc0.
      left. exists c0. auto. }
  split; intros Hin.
  - destruct (H Immediate.ID_FLOATING) as (H1 & H2 & H3 & H4 & H5).
    pose proof (immediate_reconcile_all gen _ _ devices (next_node ts)
                  H1 H1 H2 H3 ts H4 (conj (le_n _) H5)) as Hall.
    apply rows_all_all_rows in Hall. rewrite Forall_forall in Hall. auto.
  - destruct (H XIFloatingSlave) as (H1 & H2 & H3 & H4 & H5).
    pose proof (staged_reconcile_all gen _ _ devices (next_node ts)
                  H1 H1 H2 H3 ts H4 (conj (le_n _) H5)) as Hall.
    apply rows_all_all_rows in Hall. rewrite Forall_forall in Hall. auto.
Qed.

Lemma refreshes_uses (lists : list (list XIDeviceInfo)) :
  rows_all (fun c => master_use (COL_USE c) = true
                     \/ COL_USE c = Immediate.ID_FLOATING)
           (fun c => master_use (COL_USE c) = false)
           (rows (snd (refreshes lists))).
Proof.
  unfold refreshes.
  apply (fold_left_preserves refresh
           (fun s => rows_all
                       (fun c => master_use (COL_USE c) = true
                                 \/ COL_USE c = Immediate.ID_FLOATING)
                       (fun c => master_use (COL_USE c) = false)
                       (rows (snd s)))).
  - intros s devices _ Hs. unfold refresh. simpl.
    apply (immediate_reconcile_all (fst s + 1) _ _ devices
             (next_node (snd s))).
    + intros c H; exact H.
    + intros c H; exact H.
    + intros n d _ _ Hm. left. exact Hm.
    + intros n d _ _ Hm. exact Hm.
    + intros n _. right. reflexivity.
    + split; [apply le_n | exact Hs].
  - constructor.
Qed.

(** X2.  After any series of refreshes in the current version, a
    top-level row has the use of a master, or the use -1 of the "Floating"
    row, and a row below the top level never has the use of a master:
    masters are shown at the top and only there. *)
Theorem masters_on_top_slaves_below (lists : list (list XIDeviceInfo))
    (r : Root) :
  In r (rows (snd (refreshes lists))) ->
  (master_use (COL_USE (root_row r)) = true
   \/ COL_USE (root_row r) = Immediate.ID_FLOATING)
  /\ forall c, In c (children r) -> master_use (COL_USE c) = false.
Proof.
  intros Hr. pose proof (refreshes_uses lists) as Hall.
  unfold rows_all in Hall. rewrite Forall_forall in Hall.
  destruct (Hall _ Hr) as [H1 H2]. split; [exact H1|].
  intros c Hc. rewrite Forall_forall in H2. exact (H2 _ Hc).
Qed.

(** ** Where a refresh shows the devices, whatever the list *)

Lemma reconcile_any_list_roots (g : Z) (devices : list XIDeviceInfo)
    (ts : GtkTreeStore) :
  rows_inv g (fun _ => True) (fun _ => True) (fun _ _ => True) (rows ts) ->
  (forall d, In d devices -> is_master d = true ->
     has_root (g + 1) (deviceid d)
              (rows (Immediate.reconcile (g + 1) devices ts)))
  /\ has_root (g + 1) Immediate.ID_FLOATING
              (rows (Immediate.reconcile (g + 1) devices ts)).
Proof.
  intros Hinv.
  assert (rows_inv (g + 1) (fun _ => True) (okr_of devices) (okc_of devices)
            (rows ts)) as Hstart
    by (apply (rows_inv_stale g) with (okr' := fun _ => True)
                                       (okc' := fun _ _ => True); auto; lia).
  destruct (before_sweep_facts (g + 1) devices (fun _ => True) ts I
              (fun _ _ _ => I) Hstart) as (_ & Hm & Hf & _).
  cbv zeta in *. unfold Immediate.reconcile, sweep_store. simpl. split.
  - intros d Hd Hdm. apply sweep_has_root; auto.
  - apply sweep_has_root; assumption.
Qed.

Lemma reconcile_placement (g : Z) (devices : list XIDeviceInfo)
    (ts : GtkTreeStore) :
  rows_inv g (fun _ => True) (fun _ => True) (fun _ _ => True) (rows ts) ->
  let R := Immediate.reconcile (g + 1) devices ts in
  NoDup (root_ids R)
  /\ (forall p, In p (root_ids R)
                <-> p = Immediate.ID_FLOATING \/ In p (master_ids devices))
  /\ (forall p c, In (p, c) (edges R) ->
        exists d, In d devices /\ is_master d = false /\ deviceid d = c
                  /\ Immediate.found_master d p = true).
Proof.
  intros Hinv.
  destruct (reconcile_any_list _ devices _ Hinv) as ([Hnd Hall] & _ & Hgen).
  destruct (reconcile_any_list_roots _ devices _ Hinv) as [Hm Hf].
  cbv zeta in *.
  set (R := Immediate.reconcile (g + 1) devices ts) in *.
  rewrite Forall_forall in Hall, Hgen.
  split; [exact Hnd|]. split.
  - intros p. unfold root_ids. split.
    + intros Hin. apply in_map_iff in Hin as (r & <- & Hr).
      destruct (Hall _ Hr) as (_ & _ & Hokr & _). apply Hokr.
      apply (Hgen _ Hr).
    + intros [-> | Hin].
      * destruct Hf as (r & Hr & <- & _). apply in_map; assumption.
      * apply master_ids_In in Hin as (d & Hd & Hdm & <-).
        destruct (Hm _ Hd Hdm) as (r & Hr & <- & _). apply in_map; assumption.
  - intros p c Hin. apply In_edges in Hin as (r & Hr & <- & Hc).
    apply in_map_iff in Hc as (x & <- & Hx).
    destruct (Hall _ Hr) as (_ & _ & _ & _ & Hcs).
    destruct (Hgen _ Hr) as [_ Hgc].
    rewrite Forall_forall in Hcs, Hgc.
    destruct (Hcs _ Hx) as [_ Hokc]. exact (Hokc (Hgc _ Hx)).
Qed.

(** X3.  After every refresh of the current version, in any series and
    with any device list, the top level shows each master of the list
    once, the "Floating" row, and nothing else; and a row below the top
    level is the row of a slave of the list that the test of the second
    loop relates to its parent: its attachment is the parent's id, or it
    floats and the parent is the "Floating" row. *)
Theorem shown_where_the_server_says (lists : list (list XIDeviceInfo))
    (devices : list XIDeviceInfo) :
  let ts := snd (refresh (refreshes lists) devices) in
  NoDup (root_ids ts)
  /\ (forall p, In p (root_ids ts)
                <-> p = Immediate.ID_FLOATING \/ In p (master_ids devices))
  /\ (forall p c, In (p, c) (edges ts) ->
        exists d, In d devices /\ is_master d = false /\ deviceid d = c
                  /\ Immediate.found_master d p = true).
Proof.
  cbv zeta. unfold refresh. simpl.
  apply (reconcile_placement (fst (refreshes lists)) devices
           (snd (refreshes lists))).
  apply refreshes_inv.
Qed.

(** ** The refresh of the older version *)

Section StagedPass.

Variable g : Z.
Variable devices : list XIDeviceInfo.
Variable ts : GtkTreeStore.

Hypothesis start :
  rows_inv g (fun _ => True) (fun _ => True) (fun _ _ => True) (rows ts).

Let gen := g + 1.
Let okr := fun x : Z => x = XIFloatingSlave \/ In x (master_ids devices).
Let okc := fun p c : Z => p = c.
Let Inv := rows_inv gen (fun _ => True) okr okc.

Lemma staged_slave_pass_inv (s : GtkTreeStore) (l : list XIDeviceInfo) :
  Inv (rows s) -> Inv (rows (Staged.slave_pass gen l s)).
Proof.
  induction l as [|d l IH]; simpl; intros H; auto.
  destruct (is_master d); auto.
  pose proof (slave_walk_inv gen (fun _ => True) okr okc
                (fun masterid => masterid =? deviceid d) (next_node s) d
                (rows s)) as H'.
  destruct (slave_walk _ _ _ _ _). apply H'; auto.
  intros p Hp. apply Z.eqb_eq in Hp. exact Hp.
Qed.

Lemma staged_slave_pass_has_root (s : GtkTreeStore) (l : list XIDeviceInfo)
    (x : Z) :
  has_root gen x (rows s) -> has_root gen x (rows (Staged.slave_pass gen l s)).
Proof.
  induction l as [|d l IH]; simpl; intros H; auto.
  destruct (is_master d); auto.
  pose proof (slave_walk_has_root gen (fun masterid => masterid =? deviceid d)
                (next_node s) d x (rows s) H) as H'.
  destruct (slave_walk _ _ _ _ _). exact H'.
Qed.

Lemma staged_slave_pass_root_rows (s : GtkTreeStore) (l : list XIDeviceInfo) :
  map root_row (rows (Staged.slave_pass gen l s)) = map root_row (rows s).
Proof.
  induction l as [|d l IH]; simpl; auto.
  destruct (is_master d); auto.
  pose proof (slave_walk_root_rows (fun masterid => masterid =? deviceid d)
                (next_node s) gen d (rows s)) as H'.
  destruct (slave_walk _ _ _ _ _). exact H'.
Qed.

Lemma staged_reconcile_facts :
  let rs := rows (Staged.reconcile gen devices ts) in
  Inv rs
  /\ (forall d, In d devices -> is_master d = true ->
        has_root gen (deviceid d) rs)
  /\ has_root gen XIFloatingSlave rs
  /\ (exists l f, rs = l ++ [f] /\ root_id f = XIFloatingSlave)
  /\ Forall (fun r => root_gen r = gen
                      /\ Forall (fun c => COL_GENERATION c = gen) (children r))
            rs.
Proof.
  assert (Inv (rows ts)) as Hstart
    by (apply (rows_inv_stale g) with (okr' := fun _ => True)
                                       (okc' := fun _ _ => True);
        auto; unfold gen; lia).
  assert (Inv (rows (master_pass gen devices ts))) as H1.
  { unfold master_pass.
    apply (fold_left_preserves (master_step gen) (fun s => Inv (rows s)));
      auto.
    intros s d Hd Hs. apply master_step_inv; auto.
    intros Hm. split; [exact I | right; apply In_master_ids; auto]. }
  assert (forall d, In d devices -> is_master d = true ->
            has_root gen (deviceid d) (rows (master_pass gen devices ts)))
    as Hm1.
  { intros d Hd Hm. unfold master_pass.
    apply (fold_left_establishes (master_step gen) (fun _ => True)
             (fun d s => is_master d = true ->
                         has_root gen (deviceid d) (rows s))); auto.
    - intros s d0 _ _ Hm0. apply master_step_stamps; assumption.
    - intros s d0 d' _ _ H Hm0. apply master_step_has_root; auto. }
  set (ts1 := master_pass gen devices ts) in *.
  assert (Inv (rows (floating_pass XIFloatingSlave gen ts1))) as H2
    by (apply floating_pass_inv; auto; left; reflexivity).
  set (ts2 := floating_pass XIFloatingSlave gen ts1) in *.
  assert (exists l f, rows ts2 = l ++ [f] /\ root_id f = XIFloatingSlave
                      /\ root_gen f = gen) as Hlast2.
  { unfold ts2, floating_pass.
    destruct (find_root _ (rows ts1)) as [[[before f] after]|] eqn:E; simpl.
    - apply find_root_some in E as (_ & Hf & _).
      exists (before ++ after), (set_root_generation gen f).
      rewrite <- app_assoc. repeat split; auto.
    - eexists _, _. repeat split. }
  pose proof (staged_slave_pass_inv ts2 devices H2) as H3.
  set (ts3 := Staged.slave_pass gen devices ts2) in *.
  assert (exists l f, rows ts3 = l ++ [f] /\ root_id f = XIFloatingSlave
                      /\ root_gen f = gen) as Hlast3.
  { destruct Hlast2 as (l & f & Hl & Hf & Hg).
    pose proof (staged_slave_pass_root_rows ts2 devices) as Hmap.
    fold ts3 in Hmap. rewrite Hl, map_app in Hmap. simpl in Hmap.
    apply map_eq_app in Hmap as (l' & fs & E & _ & Hfs).
    destruct fs as [|f' [|? ?]]; simpl in Hfs; try discriminate.
    inversion Hfs as [Hrow]. exists l', f'.
    unfold root_id, root_gen in *. rewrite Hrow. auto. }
  cbv zeta. unfold Staged.reconcile, sweep_store. simpl.
  fold ts1. fold ts2. fold ts3.
  split; [|split; [|split; [|split]]].
  - apply sweep_inv; assumption.
  - intros d Hd Hdm. apply sweep_has_root, staged_slave_pass_has_root,
      floating_pass_has_root; auto.
  - apply sweep_has_root, staged_slave_pass_has_root, floating_pass_stamps.
  - destruct Hlast3 as (l & f & Hl & Hf & Hg). rewrite Hl, sweep_app. simpl.
    destruct (Z.ltb_spec (root_gen f) gen); [lia|].
    eexists _, _. split; [reflexivity | exact Hf].
  - apply (sweep_generations _ _ _ _ _ H3).
Qed.

End StagedPass.

Lemma staged_refreshes_inv (lists : list (list XIDeviceInfo)) :
  rows_inv (fst (staged_refreshes lists)) (fun _ => True) (fun _ => True)
           (fun _ _ => True) (rows (snd (staged_refreshes lists))).
Proof.
  unfold staged_refreshes.
  apply (fold_left_preserves staged_refresh
           (fun s => rows_inv (fst s) (fun _ => True) (fun _ => True)
                              (fun _ _ => True) (rows (snd s)))).
  - intros s devices _ Hs. unfold staged_refresh. simpl.
    destruct (staged_reconcile_facts (fst s) devices (snd s) Hs) as (H & _).
    apply rows_inv_weaken in H. exact H.
  - simpl. split; constructor.
Qed.

(** X4.  After every refresh of the older version, in any series and with
    any device list, the top level shows each master of the list once and
    one row with the id 5 that the "Floating" row is given, which comes
    last; nothing else.  A master whose device id is 5 and the "Floating"
    row are therefore one and the same row.  Below the top level a row
    has the id of its parent. *)
Theorem older_version_top_level (lists : list (list XIDeviceInfo))
    (devices : list XIDeviceInfo) :
  let ts := snd (staged_refresh (staged_refreshes lists) devices) in
  NoDup (root_ids ts)
  /\ (forall p, In p (root_ids ts)
                <-> p = XIFloatingSlave \/ In p (master_ids devices))
  /\ (exists l f, rows ts = l ++ [f] /\ root_id f = XIFloatingSlave)
  /\ (forall p c, In (p, c) (edges ts) -> c = p).
Proof.
  cbv zeta. unfold staged_refresh. simpl.
  destruct (staged_reconcile_facts _ devices _ (staged_refreshes_inv lists))
    as ([Hnd Hall] & Hm & Hf & Hlast & Hgen).
  cbv zeta in *.
  set (R := Staged.reconcile (fst (staged_refreshes lists) + 1) devices
              (snd (staged_refreshes lists))) in *.
  rewrite Forall_forall in Hall, Hgen.
  split; [exact Hnd|]. split; [|split; [exact Hlast|]].
  - intros p. unfold root_ids. split.
    + intros Hin. apply in_map_iff in Hin as (r & <- & Hr).
      destruct (Hall _ Hr) as (_ & _ & Hokr & _). apply Hokr.
      apply (Hgen _ Hr).
    + intros [-> | Hin].
      * destruct Hf as (r & Hr & <- & _). apply in_map; assumption.
      * apply master_ids_In in Hin as (d & Hd & Hdm & <-).
        destruct (Hm _ Hd Hdm) as (r & Hr & <- & _). apply in_map; assumption.
  - intros p c Hin. apply In_edges in Hin as (r & Hr & <- & Hc).
    apply in_map_iff in Hc as (x & <- & Hx).
    destruct (Hall _ Hr) as (_ & _ & _ & _ & Hcs).
    destruct (Hgen _ Hr) as [_ Hgc].
    rewrite Forall_forall in Hcs, Hgc.
    destruct (Hcs _ Hx) as [_ Hokc]. symmetry. exact (Hokc (Hgc _ Hx)).
Qed.

(** ** Sessions of the current version *)

Lemma same_but_window_refl (gds : GDeviceSetup) : same_but_window gds gds.
Proof. repeat split. Qed.

(** What one event does to the session once the view is there, the window
    apart: nothing; or one request goes out and, unless the request was a
    drop's and raised an error, one refresh follows it. *)
Lemma immediate_handle_cases (gds : GDeviceSetup) (e : Immediate.Event)
    (model : GtkTreeStore) :
  treeview gds = Some model ->
  same_but_window (Immediate.handle gds e) gds
  \/ exists c,
       immediate_request [c] = true
       /\ (same_but_window (Immediate.handle gds e)
             (set_dpy (XIChangeHierarchy (dpy gds) [c]) gds)
           \/ same_but_window (Immediate.handle gds e)
                (snd (Immediate.query_devices
                        (set_dpy (XIChangeHierarchy (dpy gds) [c]) gds)))).
Proof.
  intros Etv.
  destruct e as [sel dest | answer | iter | response answer_no]; simpl.
  - unfold Immediate.signal_dnd_recv. rewrite Etv.
    destruct sel as [sel_iter|]; [|left; apply same_but_window_refl].
    destruct (row_at model sel_iter) as [s|];
      [|left; apply same_but_window_refl].
    destruct ((COL_USE s =? XIMasterPointer) || (COL_USE s =? XIMasterKeyboard));
      [left; apply same_but_window_refl|].
    destruct dest as [[dest_iter pos]|]; [|left; apply same_but_window_refl].
    destruct (top_level_of model dest_iter) as [final_parent|];
      [|left; apply same_but_window_refl].
    right.
    unfold Immediate.float_device, Immediate.change_attachment, Immediate.send.
    destruct (root_id final_parent =? Immediate.ID_FLOATING) eqn:Efl.
    + exists (XIDetachSlave (COL_ID s)). split; [reflexivity|].
      destruct (negb _); [right | left]; repeat split; simpl; rewrite ?Etv; reflexivity.
    + exists (XIAttachSlave (COL_ID s) (root_id final_parent)).
      split; [simpl; rewrite Efl; reflexivity|].
      destruct (negb _); [right | left]; repeat split; simpl; rewrite ?Etv; reflexivity.
  - destruct answer as [nm|]; simpl; [|left; apply same_but_window_refl].
    right. exists (XIAddMaster nm true true). split; [reflexivity|].
    right. repeat split; simpl; rewrite ?Etv; reflexivity.
  - unfold Immediate.request_remove_master, Immediate.signal_button_press.
    simpl. rewrite Etv.
    destruct (row_at model iter) as [s|] eqn:Es;
      [|left; apply same_but_window_refl].
    destruct ((COL_USE s =? XIMasterPointer) || (COL_USE s =? XIMasterKeyboard));
      [|left; apply same_but_window_refl].
    simpl.
    destruct ((COL_ID s =? 2) || (COL_ID s =? 3)) eqn:Eid; simpl;
      [left; apply same_but_window_refl|].
    unfold Immediate.signal_popup_activate. rewrite Etv, Es.
    right. exists (XIRemoveMaster (COL_ID s) XIAttachToMaster (Some 2) (Some 3)).
    apply orb_false_iff in Eid as [E2 E3].
    split; [simpl; rewrite E2, E3; reflexivity|].
    right. repeat split; simpl; rewrite ?Etv; reflexivity.
  - left. destruct response; simpl; try apply same_but_window_refl.
    + repeat split.
    + destruct (changes gds); apply same_but_window_refl.
Qed.

Lemma refreshes_snoc (lists : list (list XIDeviceInfo))
    (devices : list XIDeviceInfo) :
  refreshes (lists ++ [devices]) = refresh (refreshes lists) devices.
Proof. unfold refreshes. rewrite fold_left_app. reflexivity. Qed.

Lemma answered_later (d : Display) (c : list XIAnyHierarchyChangeInfo)
    (l : list XIDeviceInfo) :
  answered d l -> answered (XIChangeHierarchy d c) l.
Proof.
  intros (h & t & Hreq & Hl). exists h, (t ++ [c]). simpl.
  rewrite Hreq, app_assoc. auto.
Qed.

Lemma answered_now (d : Display) : answered d (XIQueryDevice d).
Proof. exists (requests d), []. rewrite app_nil_r. auto. Qed.

Lemma tree_from_server_window (a b : GDeviceSetup) :
  same_but_window a b -> tree_from_server b -> tree_from_server a.
Proof.
  intros (Hd & _ & Ht & Hg) (lists & Hne & Htv & Hgen & Hans).
  exists lists. rewrite Hd, Ht, Hg. auto.
Qed.

Lemma tree_from_server_sent (gds : GDeviceSetup)
    (c : list XIAnyHierarchyChangeInfo) :
  tree_from_server gds ->
  tree_from_server (set_dpy (XIChangeHierarchy (dpy gds) c) gds).
Proof.
  intros (lists & Hne & Htv & Hgen & Hans).
  exists lists. simpl. repeat split; auto.
  eapply Forall_impl; [|exact Hans]. intros l. apply answered_later.
Qed.

Lemma tree_from_server_refresh (gds : GDeviceSetup) :
  tree_from_server gds ->
  tree_from_server (snd (Immediate.query_devices gds)).
Proof.
  intros (lists & Hne & Htv & Hgen & Hans).
  exists (lists ++ [XIQueryDevice (dpy gds)]).
  rewrite refreshes_snoc. unfold Immediate.query_devices, refresh. simpl.
  rewrite Htv, Hgen. repeat split.
  - destruct lists; discriminate.
  - apply Forall_app. split; [assumption|].
    constructor; [apply answered_now | constructor].
Qed.

Lemma main_start_tree_from_server (d : Display) :
  tree_from_server (Immediate.main_start d).
Proof.
  exists [XIQueryDevice d]. repeat split.
  - discriminate.
  - constructor; [apply answered_now | constructor].
Qed.

Lemma immediate_run_from (gds0 : GDeviceSetup)
    (events : list Immediate.Event) :
  tree_from_server gds0 -> changes gds0 = [] ->
  tree_from_server (fold_left Immediate.handle events gds0)
  /\ changes (fold_left Immediate.handle events gds0) = [].
Proof.
  intros Htree0 Hch0.
  apply (fold_left_preserves Immediate.handle
           (fun gds => tree_from_server gds /\ changes gds = []));
    [|split; assumption].
  intros gds e _ [Htree Hch].
  destruct Htree as (lists & Hne & Htv & Hrest).
  assert (tree_from_server gds) as Htree by (exists lists; auto).
  destruct (immediate_handle_cases gds e _ Htv)
    as [H | (c & _ & [H | H])].
  - split; [eapply tree_from_server_window; eauto|].
    destruct H as (_ & -> & _). assumption.
  - split.
    + eapply tree_from_server_window; [exact H|].
      apply tree_from_server_sent; assumption.
    + destruct H as (_ & -> & _). assumption.
  - split.
    + eapply tree_from_server_window; [exact H|].
      apply tree_from_server_refresh, tree_from_server_sent; assumption.
    + destruct H as (_ & -> & _). assumption.
Qed.

(** X5.  In the current version the tree on the screen is never edited by
    a handler: at every moment of a session it is what a series of
    refreshes of an empty store makes of device lists that the server
    sent in answer on this connection, one refresh per list, and the
    generation is the number of these refreshes (one at least).  The list
    of pending changes is empty throughout. *)
Theorem tree_is_always_the_servers (d : Display)
    (events : list Immediate.Event) :
  tree_from_server (Immediate.run d events)
  /\ changes (Immediate.run d events) = [].
Proof.
  unfold Immediate.run. apply immediate_run_from.
  - apply main_start_tree_from_server.
  - reflexivity.
Qed.

(** X6.  The requests of a session of the current version: every request
    to change the hierarchy carries one change, which is an attachment to
    a row other than "Floating", a detachment, a new master that sends
    core events and is enabled, or the removal of a master other than 2
    and 3 whose slaves go to 2 and 3; and no event makes the program send
    more than one. *)
Theorem one_request_per_event (d : Display) (events : list Immediate.Event) :
  exists l,
    requests (dpy (Immediate.run d events)) = requests d ++ l
    /\ forallb immediate_request l = true
    /\ (List.length l <= List.length events)%nat.
Proof.
  unfold Immediate.run.
  assert (forall events gds0 l0 model,
            treeview gds0 = Some model ->
            requests (dpy gds0) = requests d ++ l0 ->
            forallb immediate_request l0 = true ->
            exists l,
              requests (dpy (fold_left Immediate.handle events gds0))
              = requests d ++ l
              /\ forallb immediate_request l = true
              /\ (List.length l <= List.length l0 + List.length events)%nat) as Hgen.
  { clear events. induction events as [|e events IH];
      intros gds0 l0 model Htv Hreq Hall.
    - exists l0. simpl. repeat split; auto; lia.
    - simpl.
      destruct (immediate_handle_cases gds0 e _ Htv)
        as [H | (c & Hc & H)].
      + destruct H as (Hd & _ & Ht & _).
        destruct (IH (Immediate.handle gds0 e) l0 model) as (l & H1 & H2 & H3);
          try congruence.
        exists l. repeat split; auto; lia.
      + assert (dpy (Immediate.handle gds0 e)
                = XIChangeHierarchy (dpy gds0) [c]
                /\ exists model', treeview (Immediate.handle gds0 e)
                                  = Some model') as [Hd [model' Ht]].
        { destruct H as [H | H]; destruct H as (Hd & _ & Ht & _);
            rewrite Hd, Ht; simpl; rewrite Htv; eauto. }
        destruct (IH (Immediate.handle gds0 e) (l0 ++ [[c]]) model')
          as (l & H1 & H2 & H3); auto.
        * rewrite Hd. simpl. rewrite Hreq, app_assoc. reflexivity.
        * rewrite forallb_app, Hall. simpl in *. rewrite Hc. reflexivity.
        * exists l. repeat split; auto.
          rewrite length_app in H3. simpl in H3. lia. }
  destruct (Hgen events (Immediate.main_start d) [] _ eq_refl) as (l & H);
    auto.
  - simpl. rewrite app_nil_r. reflexivity.
  - exists l. exact H.
Qed.

(** ** The refresh of the older version on a tree with old stamps *)

Lemma stamps_below_rows_all (g : Z) (ts : GtkTreeStore) :
  stamps_below g ts = true
  <-> rows_all (fun c => COL_GENERATION c <= g)
               (fun c => COL_GENERATION c <= g) (rows ts).
Proof.
  unfold stamps_below, generations, rows_all.
  rewrite forallb_forall, Forall_forall. split.
  - intros H r Hr. split.
    + apply Z.leb_le, H, in_flat_map. exists r. split; [assumption|].
      left. reflexivity.
    + apply Forall_forall. intros c Hc.
      apply Z.leb_le, H, in_flat_map. exists r. split; [assumption|].
      right. apply in_map. assumption.
  - intros H z Hz. apply in_flat_map in Hz as (r & Hr & Hz).
    destruct (H r Hr) as [Hrow Hch]. apply Z.leb_le.
    destruct Hz as [<- | Hz]; [exact Hrow|].
    apply in_map_iff in Hz as (c & <- & Hc).
    rewrite Forall_forall in Hch. apply Hch. assumption.
Qed.

Lemma sweep_children_app (gen : Z) (l1 l2 : list Row) :
  sweep_children gen (l1 ++ l2)
  = sweep_children gen l1 ++ sweep_children gen l2.
Proof. rewrite !sweep_children_filter. apply filter_app. Qed.

Lemma sweep_children_stale (gen : Z) (cs : list Row) :
  Forall (fun c => COL_GENERATION c < gen) cs -> sweep_children gen cs = [].
Proof.
  induction 1 as [|c cs Hc _ IH]; simpl; [reflexivity|].
  destruct (Z.ltb_spec (COL_GENERATION c) gen); [assumption | lia].
Qed.

Lemma edges_of_sweep_stale (gen : Z) (rs : list Root) :
  Forall (fun r => Forall (fun c => COL_GENERATION c < gen) (children r)) rs ->
  edges_of (sweep gen rs) = [].
Proof.
  induction 1 as [|r rs Hr _ IH]; simpl; [reflexivity|].
  destruct (root_gen r <? gen); [assumption|].
  simpl. rewrite sweep_children_stale by assumption. simpl. assumption.
Qed.

Lemma attach_after_sweep (n : nat) (gen : Z) (dev : XIDeviceInfo) (r : Root) :
  Forall (fun c => COL_GENERATION c < gen) (children r) ->
  exists c, sweep_children gen (children (fst (attach n gen dev r))) = [c]
            /\ COL_ID c = deviceid dev.
Proof.
  intros Hst. unfold attach.
  destruct (update_first _ _ (children r)) as [cs|] eqn:E; simpl.
  - apply update_first_some in E as (l1 & x & l2 & Hch & _ & Hx & ->).
    rewrite Hch in Hst. apply Forall_app in Hst as [H1 H2].
    inversion H2 as [|? ? _ H3]; subst.
    exists (set_generation gen x).
    rewrite sweep_children_app. simpl.
    rewrite Z.ltb_irrefl, !sweep_children_stale by assumption.
    split; [reflexivity|]. simpl. apply Z.eqb_eq. assumption.
  - eexists. rewrite sweep_children_app. simpl.
    rewrite Z.ltb_irrefl, sweep_children_stale by assumption.
    split; reflexivity.
Qed.

Lemma staged_slave_pass_edges (gen : Z) (devices : list XIDeviceInfo)
    (s : GtkTreeStore) :
  Forall (fun r => Forall (fun c => COL_GENERATION c < gen) (children r))
         (rows s) ->
  let es := edges_of (sweep gen (rows (Staged.slave_pass gen devices s))) in
  (List.length es <= 1)%nat
  /\ forall p c, In (p, c) es ->
       c = p /\ exists d, first_slave devices = Some d /\ deviceid d = c.
Proof.
  intros Hst. cbv zeta. unfold first_slave.
  induction devices as [|d devices IH]; simpl.
  - rewrite edges_of_sweep_stale by assumption. simpl.
    split; [lia | contradiction].
  - destruct (is_master d); simpl; [exact IH|].
    destruct (slave_walk_cases (fun masterid => masterid =? deviceid d)
                (next_node s) gen d (rows s))
      as [[_ ->] | (l1 & r & l2 & Hrows & _ & Hf & ->)]; simpl.
    + rewrite edges_of_sweep_stale by assumption. simpl.
      split; [lia | contradiction].
    + rewrite Hrows in Hst. apply Forall_app in Hst as [H1 H2].
      inversion H2 as [|? ? Hr H3]; subst.
      destruct (attach_after_sweep (next_node s) gen d r Hr) as (c & Hc & Hid).
      change (l1 ++ fst (attach (next_node s) gen d r) :: l2)
        with (l1 ++ [fst (attach (next_node s) gen d r)] ++ l2).
      rewrite !sweep_app. unfold edges_of. rewrite !flat_map_app.
      fold (edges_of (sweep gen l1)). fold (edges_of (sweep gen l2)).
      rewrite (edges_of_sweep_stale gen l1 H1), (edges_of_sweep_stale gen l2 H3).
      rewrite app_nil_r. simpl.
      destruct (root_gen (fst (attach (next_node s) gen d r)) <? gen); simpl.
      * split; [lia | contradiction].
      * rewrite Hc, app_nil_r. simpl. split; [lia|].
        intros p c' [E | []]. injection E as <- <-.
        apply Z.eqb_eq in Hf.
        assert (COL_ID (root_row (fst (attach (next_node s) gen d r)))
                = root_id r) as Hrid.
        { unfold attach. destruct (update_first _ _ _); reflexivity. }
        unfold root_id in *. simpl. rewrite Hrid, Hid, Hf.
        split; [reflexivity|]. eauto.
Qed.

Lemma children_stale_before_walk (g : Z) (devices : list XIDeviceInfo)
    (ts : GtkTreeStore) :
  stamps_below g ts = true ->
  Forall (fun r => Forall (fun c => COL_GENERATION c < g + 1) (children r))
         (rows (floating_pass XIFloatingSlave (g + 1)
                  (master_pass (g + 1) devices ts))).
Proof.
  intros Hst. apply stamps_below_rows_all in Hst.
  assert (rows_all (fun _ => True) (fun c => COL_GENERATION c < g + 1)
            (rows ts)) as H0.
  { unfold rows_all in *. eapply Forall_impl; [|exact Hst].
    intros r [_ Hc]. split; [exact I|].
    eapply Forall_impl; [|exact Hc]. simpl. intros; lia. }
  assert (rows_all (fun _ => True) (fun c => COL_GENERATION c < g + 1)
            (rows (master_pass (g + 1) devices ts))) as H1.
  { unfold master_pass.
    apply (fold_left_preserves (master_step (g + 1))
             (fun s => rows_all (fun _ => True)
                         (fun c => COL_GENERATION c < g + 1) (rows s)));
      auto.
    intros s d _ Hs. apply master_step_all; auto. }
  pose proof (floating_pass_all (g + 1) (fun _ => True)
                (fun c => COL_GENERATION c < g + 1) (fun _ _ => I)
                XIFloatingSlave _ I H1) as H2.
  unfold rows_all in H2. eapply Forall_impl; [|exact H2].
  intros r [_ Hc]. exact Hc.
Qed.

Lemma sweep_stamps_exact (gen : Z) (rs : list Root) (n : nat) :
  rows_all (fun c => COL_GENERATION c <= gen)
           (fun c => COL_GENERATION c <= gen) rs ->
  Forall (fun z => z = gen)
         (generations {| rows := sweep gen rs; next_node := n |}).
Proof.
  intros Hall. unfold rows_all in Hall. rewrite Forall_forall in Hall.
  apply Forall_forall. intros z Hz. unfold generations in Hz. simpl in Hz.
  apply in_flat_map in Hz as (r' & Hr' & Hz).
  apply In_sweep in Hr' as (r & Hr & Hg & ->).
  destruct (Hall _ Hr) as [Hle Hch]. unfold root_gen in *. simpl in Hz.
  destruct Hz as [<- | Hz]; [lia|].
  apply in_map_iff in Hz as (c & <- & Hc).
  apply In_sweep_children in Hc as [Hc Hgc].
  rewrite Forall_forall in Hch. specialize (Hch _ Hc). simpl in Hch. lia.
Qed.

Lemma stamps_rows_all_next (g : Z) (ts : GtkTreeStore) :
  stamps_below g ts = true ->
  (0 <= next_node ts)%nat
  /\ rows_all (fun c => COL_GENERATION c <= g + 1)
              (fun c => COL_GENERATION c <= g + 1) (rows ts).
Proof.
  intros Hst. apply stamps_below_rows_all in Hst. split; [lia|].
  unfold rows_all in *. eapply Forall_impl; [|exact Hst].
  intros r [Hr Hc]. split; [lia|].
  eapply Forall_impl; [|exact Hc]. simpl. intros; lia.
Qed.

Lemma staged_reconcile_stamps (g : Z) (devices : list XIDeviceInfo)
    (ts : GtkTreeStore) :
  stamps_below g ts = true ->
  Forall (fun z => z = g + 1) (generations (Staged.reconcile (g + 1) devices ts)).
Proof.
  intros Hst. unfold Staged.reconcile, sweep_store.
  apply sweep_stamps_exact.
  apply (staged_slave_pass_all (g + 1) _ _ devices 0%nat);
    try (simpl; intros; lia).
  apply floating_pass_all_next; try (simpl; intros; lia).
  apply master_pass_all; try (simpl; intros; lia).
  apply stamps_rows_all_next. assumption.
Qed.

Lemma staged_reconcile_edges (g : Z) (devices : list XIDeviceInfo)
    (ts : GtkTreeStore) :
  stamps_below g ts = true ->
  let R := Staged.reconcile (g + 1) devices ts in
  (List.length (edges R) <= 1)%nat
  /\ forall p c, In (p, c) (edges R) ->
       c = p /\ exists d, first_slave devices = Some d /\ deviceid d = c.
Proof.
  intros Hst.
  exact (staged_slave_pass_edges (g + 1) devices _
           (children_stale_before_walk g devices ts Hst)).
Qed.

(** X7.  The refresh of the older version, on any tree none of whose
    stamps is above the generation: afterwards every stamp is the new
    generation, and there is at most one row below the top level; such a
    row shows the first device of the list that is not a master, and it
    lies below a top-level row with that device's own id.  (The second
    loop compares the master row's id with the device's id and is left
    after the first slave.) *)
Theorem older_version_refresh_leaves_one_child (g : Z)
    (devices : list XIDeviceInfo) (ts : GtkTreeStore) :
  stamps_below g ts = true ->
  let R := Staged.reconcile (g + 1) devices ts in
  Forall (fun z => z = g + 1) (generations R)
  /\ (List.length (edges R) <= 1)%nat
  /\ forall p c, In (p, c) (edges R) ->
       c = p /\ exists d, first_slave devices = Some d /\ deviceid d = c.
Proof.
  intros Hst. cbv zeta. split.
  - apply staged_reconcile_stamps; assumption.
  - apply staged_reconcile_edges; assumption.
Qed.

(** ** Sessions of the older version *)

Lemma Forall_insert_before (Q : Row -> Prop) (sib : nat) (x : Row)
    (cs : list Row) :
  Q x -> Forall Q cs -> Forall Q (insert_before sib x cs).
Proof.
  intros Hx. induction 1 as [|c cs Hc Hcs IH]; simpl; [constructor|].
  destruct (Nat.eqb (node c) sib); repeat (constructor; try assumption).
Qed.

Lemma Forall_insert_after (Q : Row -> Prop) (sib : nat) (x : Row)
    (cs : list Row) :
  Q x -> Forall Q cs -> Forall Q (insert_after sib x cs).
Proof.
  intros Hx. induction 1 as [|c cs Hc Hcs IH]; simpl; [constructor|].
  destruct (Nat.eqb (node c) sib); repeat (constructor; try assumption).
Qed.

Lemma stamps_below_insert (g : Z) (after : bool) (parent : nat)
    (sibling : option nat) (ts : GtkTreeStore) :
  0 <= g -> stamps_below g ts = true ->
  stamps_below g (snd (gtk_tree_store_insert after parent sibling ts)) = true.
Proof.
  intros Hg. rewrite !stamps_below_rows_all. unfold rows_all. simpl.
  intros H. rewrite Forall_forall in *. intros r' Hr'.
  apply in_map_iff in Hr' as (r & <- & Hr). destruct (H _ Hr) as [H1 H2].
  destruct (Nat.eqb _ parent); [|auto]. simpl. split; [assumption|].
  assert (COL_GENERATION (empty_row (next_node ts)) <= g) as Hx
    by (simpl; lia).
  destruct sibling as [s|], after.
  - apply Forall_insert_after; assumption.
  - apply Forall_insert_before; assumption.
  - constructor; assumption.
  - apply Forall_app. split; [assumption|]. constructor; [assumption|constructor].
Qed.

Lemma stamps_below_set (g : Z) (n : nat) (id : Z) (nm : string) (u : Z)
    (ts : GtkTreeStore) :
  stamps_below g ts = true ->
  stamps_below g (set_id_name_use n id nm u ts) = true.
Proof.
  rewrite !stamps_below_rows_all. unfold rows_all. simpl.
  intros H. rewrite Forall_forall in *. intros r' Hr'.
  apply in_map_iff in Hr' as (r & <- & Hr). destruct (H _ Hr) as [H1 H2].
  split; [assumption|]. simpl. rewrite Forall_forall in *.
  intros c' Hc'. apply in_map_iff in Hc' as (c & <- & Hc).
  specialize (H2 _ Hc). destruct (Nat.eqb (node c) n); assumption.
Qed.

Lemma stamps_below_remove (g : Z) (n : nat) (ts : GtkTreeStore) :
  stamps_below g ts = true ->
  stamps_below g (gtk_tree_store_remove n ts) = true.
Proof.
  rewrite !stamps_below_rows_all. unfold rows_all. simpl.
  intros H. rewrite Forall_forall in *. intros r' Hr'.
  apply in_map_iff in Hr' as (r & <- & Hr). apply filter_In in Hr as [Hr _].
  destruct (H _ Hr) as [H1 H2]. split; [assumption|]. simpl.
  rewrite Forall_forall in *. intros c Hc.
  apply filter_In in Hc as [Hc _]. auto.
Qed.

Lemma stamps_below_exact (g : Z) (ts : GtkTreeStore) :
  Forall (fun z => z = g) (generations ts) -> stamps_below g ts = true.
Proof.
  intros H. unfold stamps_below. apply forallb_forall. intros z Hz.
  rewrite Forall_forall in H. apply Z.leb_le. rewrite (H z Hz). lia.
Qed.

Section StagedSession.

Variable d : Display.

(** What holds of the session data of the older version throughout. *)
Let Inv (gds : GDeviceSetup) : Prop :=
  Forall (fun p => p = IntPtr Success) (changes gds)
  /\ (exists l, requests (dpy gds) = requests d ++ l
                /\ forallb staged_request l = true
                /\ (List.length (changes gds) <= List.length l)%nat)
  /\ 0 <= generation gds
  /\ exists ts, treeview gds = Some ts
                /\ stamps_below (generation gds) ts = true.

Lemma staged_inv_sent_refresh (c : XIAnyHierarchyChangeInfo)
    (gds : GDeviceSetup) :
  staged_request [c] = true ->
  Inv gds ->
  Inv (snd (Staged.query_devices
              (set_dpy (XIChangeHierarchy (dpy gds) [c]) gds))).
Proof.
  intros Hc (Hch & (l & Hreq & Hall & Hlen) & Hg & ts & Htv & Hst).
  split; [|split; [|split]].
  - exact Hch.
  - exists (l ++ [[c]]). simpl. rewrite Hreq, <- app_assoc.
    split; [reflexivity|]. rewrite forallb_app, Hall. simpl in *.
    rewrite Hc. split; [reflexivity|]. rewrite length_app. simpl. lia.
  - simpl. lia.
  - simpl. rewrite Htv. eexists. split; [reflexivity|].
    apply stamps_below_exact, staged_reconcile_stamps. assumption.
Qed.

Lemma staged_handle_inv (gds gds' : GDeviceSetup) (e : StagedRun.Event) :
  Inv gds -> StagedRun.handle gds e = Some gds' -> Inv gds'.
Proof.
  intros HI.
  pose proof HI as (Hch & (l & Hreq & Hall & Hlen) & Hg & ts & Htv & Hst).
  destruct e as [sel dest | answer | iter | response answer_no malloc_ok];
    simpl; intros E.
  - injection E as <-. unfold Staged.signal_dnd_recv. rewrite Htv.
    destruct sel as [sel_iter|]; [|exact HI].
    destruct (row_at ts sel_iter) as [s|]; [|exact HI].
    destruct ((COL_USE s =? XIMasterPointer) || (COL_USE s =? XIMasterKeyboard));
      [exact HI|].
    destruct dest as [[dest_iter pos]|]; [|exact HI].
    destruct (top_level_of ts dest_iter) as [final_parent|]; [|exact HI].
    destruct (Staged.role_mismatch _ _); [exact HI|].
    set (after := match pos with
                  | GTK_TREE_VIEW_DROP_BEFORE
                  | GTK_TREE_VIEW_DROP_INTO_OR_BEFORE => false
                  | _ => true
                  end).
    set (sib := if is_top_level ts dest_iter then None else Some dest_iter).
    pose proof (stamps_below_insert (generation gds) after
                  (node (root_row final_parent)) sib ts Hg Hst) as Hins.
    destruct (gtk_tree_store_insert after (node (root_row final_parent)) sib ts)
      as [ins_iter m1].
    simpl in Hins. unfold Staged.change_attachment.
    split; [|split; [|split]]; simpl.
    + apply Forall_app. split; [assumption|]. repeat constructor.
    + exists (l ++ [[XIAttachSlave (COL_ID s) (root_id final_parent)]]).
      rewrite Hreq, <- app_assoc. split; [reflexivity|].
      rewrite forallb_app, Hall. split; [reflexivity|].
      rewrite !length_app. simpl. lia.
    + assumption.
    + eexists. split; [reflexivity|].
      apply stamps_below_remove, stamps_below_set. assumption.
  - injection E as <-. destruct answer as [nm|]; simpl; [|exact HI].
    apply (staged_inv_sent_refresh (XIAddMaster nm true true));
      [reflexivity | exact HI].
  - injection E as <-.
    unfold Staged.request_remove_master, Staged.signal_button_press.
    simpl. rewrite Htv.
    destruct (row_at ts iter) as [s|] eqn:Es; [|exact HI].
    destruct ((COL_USE s =? XIMasterPointer) || (COL_USE s =? XIMasterKeyboard)
              || (COL_USE s =? XIFloatingSlave)); [|exact HI].
    simpl.
    destruct ((COL_ID s <? 2) || (COL_USE s =? XIFloatingSlave)) eqn:Eid; simpl;
      [exact HI|].
    unfold Staged.signal_popup_activate. rewrite Htv, Es.
    apply orb_false_iff in Eid as [E2 _].
    apply (staged_inv_sent_refresh
             (XIRemoveMaster (COL_ID s) XIFloating None None));
      [|exact HI].
    simpl. apply Z.ltb_ge in E2. apply Z.leb_le. assumption.
  - destruct response; simpl in E.
    + injection E as <-. exact HI.
    + unfold Staged.apply in E.
      destruct (changes gds) as [|p ps] eqn:Ech.
      * injection E as <-. exact HI.
      * destruct malloc_ok; simpl in E.
        -- inversion Hch as [|? ? Hp _]; subst. simpl in E. discriminate.
        -- injection E as <-. exact HI.
    + injection E as <-. split; [|split; [|split]]; simpl.
      * constructor.
      * exists l. repeat split; auto. lia.
      * lia.
      * rewrite Htv. eexists. split; [reflexivity|].
        apply stamps_below_exact, staged_reconcile_stamps. assumption.
    + destruct (changes gds); injection E as <-; exact HI.
    + injection E as <-. exact HI.
Qed.

Lemma staged_main_start_inv : Inv (Staged.main_start d).
Proof.
  split; [|split; [|split]]; simpl.
  - constructor.
  - exists []. rewrite app_nil_r. repeat split. lia.
  - lia.
  - eexists. split; [reflexivity|].
    apply stamps_below_exact.
    apply (staged_reconcile_stamps 0 _ gtk_tree_store_new). reflexivity.
Qed.

Lemma staged_run_inv (events : list StagedRun.Event) (gds : GDeviceSetup) :
  StagedRun.run d events = Some gds -> Inv gds.
Proof.
  unfold StagedRun.run. generalize staged_main_start_inv.
  generalize (Staged.main_start d). intros gds0.
  revert gds0. induction events as [|e events IH]; simpl; intros gds0 H0 E.
  - injection E as <-. assumption.
  - destruct (StagedRun.handle gds0 e) as [gds1|] eqn:E1; [|discriminate].
    apply (IH gds1); [|assumption].
    eapply staged_handle_inv; eassumption.
Qed.

Lemma staged_run_facts (events : list StagedRun.Event) (gds : GDeviceSetup) :
  StagedRun.run d events = Some gds ->
  Forall (fun p => p = IntPtr Success) (changes gds)
  /\ (exists l, requests (dpy gds) = requests d ++ l
                /\ forallb staged_request l = true
                /\ (List.length (changes gds) <= List.length l)%nat)
  /\ 0 <= generation gds
  /\ exists ts, treeview gds = Some ts
                /\ stamps_below (generation gds) ts = true.
Proof. exact (staged_run_inv events gds). Qed.

End StagedSession.

(** X8.  In a session of the older version, as far as it gets: every
    request to change the hierarchy carries one change, an attachment, a
    new master or the removal of a master with id 2 or above whose slaves
    are to float (never a detachment); the list of pending changes holds
    nothing but the integer that the attachment request returned, once
    per drop at most; and "apply" with a non-empty list and its array
    allocated reads an element that is no change. *)
Theorem older_version_queue (d : Display) (events : list StagedRun.Event)
    (gds : GDeviceSetup) :
  StagedRun.run d events = Some gds ->
  Forall (fun p => p = IntPtr Success) (changes gds)
  /\ (exists l, requests (dpy gds) = requests d ++ l
                /\ forallb staged_request l = true
                /\ (List.length (changes gds) <= List.length l)%nat)
  /\ (changes gds <> [] -> Staged.apply true gds = None).
Proof.
  intros Hrun.
  destruct (staged_run_facts d events gds Hrun) as (Hch & Hreq & _).
  split; [assumption|]. split; [assumption|].
  intros Hne. unfold Staged.apply.
  destruct (changes gds) as [|p ps]; [contradiction|].
  inversion Hch; subst. reflexivity.
Qed.

(** X9.  In a session of the older version the rows that a drop inserts
    carry no stamp, and no row ever carries a stamp above the generation;
    so whatever the user has arranged, the next refresh leaves at most
    one row below the top level. *)
Theorem older_version_forgets_the_arrangement (d : Display)
    (events : list StagedRun.Event) (gds : GDeviceSetup) :
  StagedRun.run d events = Some gds ->
  (exists ts, treeview gds = Some ts
              /\ stamps_below (generation gds) ts = true)
  /\ (List.length (edges (fst (Staged.query_devices gds))) <= 1)%nat.
Proof.
  intros Hrun.
  destruct (staged_run_facts d events gds Hrun)
    as (_ & _ & _ & ts & Htv & Hst).
  split; [eauto|].
  unfold Staged.query_devices. simpl. rewrite Htv.
  apply staged_reconcile_edges. assumption.
Qed.

(** ** What the requests of the current version name *)

Lemma refreshes_bucket_use (lists : list (list XIDeviceInfo)) :
  Forall (Forall (fun x => 0 <= deviceid x)) lists ->
  rows_all (fun c => COL_ID c = Immediate.ID_FLOATING ->
                     master_use (COL_USE c) = false)
           (fun _ => True) (rows (snd (refreshes lists))).
Proof.
  intros Hpos. rewrite Forall_forall in Hpos. unfold refreshes.
  apply (fold_left_preserves refresh
           (fun s => rows_all
                       (fun c => COL_ID c = Immediate.ID_FLOATING ->
                                 master_use (COL_USE c) = false)
                       (fun _ => True) (rows (snd s)))).
  - intros s devices Hin Hs. unfold refresh. simpl.
    specialize (Hpos _ Hin). rewrite Forall_forall in Hpos.
    apply (immediate_reconcile_all (fst s + 1) _ _ devices
             (next_node (snd s))).
    + intros c H; exact H.
    + intros c H; exact H.
    + intros n d _ Hd _ E. simpl in E. specialize (Hpos _ Hd).
      unfold Immediate.ID_FLOATING in E. lia.
    + intros; exact I.
    + intros n _ _. reflexivity.
    + split; [apply le_n | exact Hs].
  - constructor.
Qed.

Lemma In_all_rows (rs : list Root) (c : Row) :
  In c (all_rows rs)
  <-> exists r, In r rs /\ (c = root_row r \/ In c (children r)).
Proof.
  unfold all_rows. rewrite in_flat_map. split.
  - intros (r & Hr & [<- | Hc]); exists r; auto.
  - intros (r & Hr & [-> | Hc]); exists r; simpl; auto.
Qed.

Lemma row_at_In (ts : GtkTreeStore) (n : nat) (s : Row) :
  row_at ts n = Some s -> In s (all_rows (rows ts)).
Proof. intros H. apply find_some in H as [H _]. exact H. Qed.

Lemma top_level_of_In (ts : GtkTreeStore) (n : nat) (r : Root) :
  top_level_of ts n = Some r -> In r (rows ts).
Proof. intros H. apply find_some in H as [H _]. exact H. Qed.

(** The id of a row on the screen after a refresh is -1 or the id of a
    device of the list. *)
Lemma shown_ids (lists : list (list XIDeviceInfo))
    (devices : list XIDeviceInfo) (s : Row) :
  In s (all_rows (rows (snd (refresh (refreshes lists) devices)))) ->
  COL_ID s = Immediate.ID_FLOATING \/ In (COL_ID s) (map deviceid devices).
Proof.
  intros Hs.
  destruct (reconcile_placement _ devices _ (refreshes_inv lists))
    as (_ & Hroots & Hed).
  cbv zeta in *. unfold refresh in Hs. simpl in Hs. apply In_all_rows in Hs as (r & Hr & [-> | Hc]).
  - destruct (proj1 (Hroots (root_id r))) as [E | Hm].
    + apply in_map; assumption.
    + left. exact E.
    + right. apply master_ids_In in Hm as (d & Hd & _ & E).
      unfold root_id in E. rewrite <- E. apply in_map; assumption.
  - right.
    destruct (Hed (root_id r) (COL_ID s)) as (d & Hd & _ & <- & _).
    + apply In_edges. exists r. repeat split; auto. apply in_map; assumption.
    + apply in_map; assumption.
Qed.

(** X10.  What a request of the current version names, when the tree on
    the screen comes from a series of refreshes, the last of the list
    [devices], and the server numbers its devices from 0: an attachment
    goes to a master of that list, a removal names a master of that list
    other than 2 and 3, and the device attached or detached is a device
    of that list, or has the id -1 of the "Floating" row, which can be
    dragged like any other row that is not a master. *)
Theorem requests_name_the_devices_shown (lists : list (list XIDeviceInfo))
    (devices : list XIDeviceInfo) (gds : GDeviceSetup) (e : Immediate.Event)
    (c : XIAnyHierarchyChangeInfo) :
  treeview gds = Some (snd (refresh (refreshes lists) devices)) ->
  Forall (Forall (fun x => 0 <= deviceid x)) (lists ++ [devices]) ->
  requests (dpy (Immediate.handle gds e)) = requests (dpy gds) ++ [[c]] ->
  match c with
  | XIAttachSlave id new_master =>
      In new_master (master_ids devices)
      /\ (id = Immediate.ID_FLOATING \/ In id (map deviceid devices))
  | XIDetachSlave id =>
      id = Immediate.ID_FLOATING \/ In id (map deviceid devices)
  | XIRemoveMaster id _ _ _ =>
      In id (master_ids devices) /\ id <> 2 /\ id <> 3
  | XIAddMaster _ _ _ => True
  end.
Proof.
  intros Htv Hpos Hsent.
  set (model := snd (refresh (refreshes lists) devices)) in *.
  assert (forall l : list (list XIAnyHierarchyChangeInfo),
            l = l ++ [[c]] -> False) as Hno.
  { intros l E. apply (f_equal (@List.length _)) in E.
    rewrite length_app in E. simpl in E. lia. }
  assert (forall l (c' : XIAnyHierarchyChangeInfo),
            l ++ [[c']] = l ++ [[c]] -> c' = c) as Hsame.
  { intros l c' E. apply app_inv_head in E. congruence. }
  destruct (reconcile_placement _ devices _ (refreshes_inv lists))
    as (_ & Hroots & _).
  cbv zeta in Hroots.
  change (Immediate.reconcile (fst (refreshes lists) + 1) devices
            (snd (refreshes lists))) with model in Hroots.
  destruct e as [sel dest | answer | iter | response answer_no];
    simpl in Hsent.
  - unfold Immediate.signal_dnd_recv in Hsent. rewrite Htv in Hsent.
    destruct sel as [sel_iter|]; [|destruct (Hno _ Hsent)].
    destruct (row_at model sel_iter) as [s|] eqn:Es;
      [|destruct (Hno _ Hsent)].
    destruct ((COL_USE s =? XIMasterPointer) || (COL_USE s =? XIMasterKeyboard));
      [destruct (Hno _ Hsent)|].
    destruct dest as [[dest_iter pos]|]; [|destruct (Hno _ Hsent)].
    destruct (top_level_of model dest_iter) as [final_parent|] eqn:Ep;
      [|destruct (Hno _ Hsent)].
    apply row_at_In, shown_ids in Es.
    apply top_level_of_In in Ep.
    unfold Immediate.float_device, Immediate.change_attachment, Immediate.send
      in Hsent.
    destruct (Z.eqb_spec (root_id final_parent) Immediate.ID_FLOATING)
      as [Efl | Efl];
      destruct (negb _); simpl in Hsent; apply Hsame in Hsent; subst c;
      try exact Es.
    + split; [|exact Es].
      destruct (proj1 (Hroots (root_id final_parent))) as [E | Hm]; auto.
      * apply in_map; assumption.
      * contradiction.
    + split; [|exact Es].
      destruct (proj1 (Hroots (root_id final_parent))) as [E | Hm]; auto.
      * apply in_map; assumption.
      * contradiction.
  - destruct answer as [nm|]; simpl in Hsent; [|destruct (Hno _ Hsent)].
    apply Hsame in Hsent. subst c. exact I.
  - unfold Immediate.request_remove_master, Immediate.signal_button_press
      in Hsent.
    simpl in Hsent. rewrite Htv in Hsent.
    destruct (row_at model iter) as [s|] eqn:Es; [|destruct (Hno _ Hsent)].
    destruct ((COL_USE s =? XIMasterPointer) || (COL_USE s =? XIMasterKeyboard))
      eqn:Euse; [|destruct (Hno _ Hsent)].
    simpl in Hsent.
    destruct ((COL_ID s =? 2) || (COL_ID s =? 3)) eqn:Eid; simpl in Hsent;
      [destruct (Hno _ Hsent)|].
    unfold Immediate.signal_popup_activate in Hsent.
    rewrite Htv, Es in Hsent. simpl in Hsent.
    apply Hsame in Hsent. subst c.
    apply orb_false_iff in Eid as [E2 E3].
    apply Z.eqb_neq in E2, E3. split; [|split; assumption].
    apply row_at_In, In_all_rows in Es as (r & Hr & Hs).
    pose proof (refreshes_uses (lists ++ [devices])) as Huse.
    pose proof (refreshes_bucket_use (lists ++ [devices]) Hpos) as Hbu.
    rewrite refreshes_snoc in Huse, Hbu. fold model in Huse, Hbu.
    unfold rows_all in Huse, Hbu. rewrite Forall_forall in Huse, Hbu.
    destruct (Huse _ Hr) as [_ Hch]. destruct (Hbu _ Hr) as [Hb _].
    destruct Hs as [-> | Hc].
    + destruct (proj1 (Hroots (root_id r))) as [E | Hm]; auto.
      * apply in_map; assumption.
      * specialize (Hb E). unfold master_use in Hb. congruence.
    + rewrite Forall_forall in Hch. specialize (Hch _ Hc).
      unfold master_use in Hch. simpl in Hch. congruence.
  - destruct response; simpl in Hsent; try destruct (Hno _ Hsent).
    destruct (changes gds); destruct (Hno _ Hsent).
Qed.

(** ** The change list *)

(** X11.  The copy loop of [apply] gets through the list exactly when
    every element is the address of a change, and the array then holds
    these changes in the order of the list. *)
Theorem gather_reads_changes_only (l : list gpointer)
    (cs : list XIAnyHierarchyChangeInfo) :
  gather l = Some cs <-> l = map ChangePtr cs.
Proof.
  revert cs. induction l as [|p l IH]; intros cs; simpl.
  - split.
    + intros E. injection E as <-. reflexivity.
    + destruct cs; [reflexivity | discriminate].
  - destruct p as [c | z].
    + destruct (gather l) as [cs'|].
      * split.
        -- intros E. injection E as <-. simpl. f_equal.
           apply IH. reflexivity.
        -- destruct cs as [|c0 cs]; [discriminate|]. simpl.
           intros E. injection E as -> E. apply IH in E.
           injection E as ->. reflexivity.
      * split; [discriminate|].
        destruct cs as [|c0 cs]; [discriminate|]. simpl.
        intros E. injection E as _ E. apply IH in E. discriminate.
    + split; [discriminate|].
      destruct cs; discriminate.
Qed.

(** X12.  In the current version nothing is ever put on the list of
    pending changes, so "close" ends the loop at any moment of a session
    and whatever the answer to the question about unapplied changes would
    be: the question is never asked. *)
Theorem close_ends_the_loop (d : Display) (events : list Immediate.Event)
    (answer_no : bool) :
  Immediate.main_response GTK_RESPONSE_CLOSE answer_no (Immediate.run d events)
  = (Immediate.run d events, false).
Proof.
  destruct (immediate_run_from (Immediate.main_start d) events
              (main_start_tree_from_server d) eq_refl) as [_ Hch].
  fold (Immediate.run d events) in Hch.
  simpl. rewrite Hch. reflexivity.
Qed.

(** ** The drop of the older version, on the tree *)

Lemma find_exists {A : Type} (p : A -> bool) (l : list A) (x : A) :
  In x l -> p x = true -> exists y, find p l = Some y.
Proof.
  induction l as [|a l IH]; simpl; [contradiction|].
  intros Hin Hp. destruct (p a) eqn:Ea; [eauto|].
  destruct Hin as [-> | Hin]; [congruence | auto].
Qed.

Lemma find_all_false {A : Type} (p : A -> bool) (l : list A) :
  (forall x, In x l -> p x = false) -> find p l = None.
Proof.
  induction l as [|a l IH]; simpl; intros H; [reflexivity|].
  rewrite (H a) by auto. apply IH. intros x Hx. apply H. auto.
Qed.

Lemma find_unique {A : Type} (p : A -> bool) (l : list A) (x : A) :
  In x l -> p x = true -> (forall y, In y l -> p y = true -> y = x) ->
  find p l = Some x.
Proof.
  intros Hin Hp Huniq.
  destruct (find_exists p l x Hin Hp) as [y Hy]. rewrite Hy. f_equal.
  apply find_some in Hy as [H1 H2]. auto.
Qed.

Lemma In_insert_before (sib : nat) (x : Row) (cs : list Row) :
  existsb (fun c => Nat.eqb (node c) sib) cs = true ->
  In x (insert_before sib x cs).
Proof.
  induction cs as [|c cs IH]; simpl; [discriminate|].
  destruct (Nat.eqb (node c) sib); simpl; auto.
Qed.

Lemma In_insert_after (sib : nat) (x : Row) (cs : list Row) :
  existsb (fun c => Nat.eqb (node c) sib) cs = true ->
  In x (insert_after sib x cs).
Proof.
  induction cs as [|c cs IH]; simpl; [discriminate|].
  destruct (Nat.eqb (node c) sib); simpl; auto.
Qed.

Lemma insert_before_In (sib : nat) (x c : Row) (cs : list Row) :
  In c (insert_before sib x cs) -> c = x \/ In c cs.
Proof.
  induction cs as [|c0 cs IH]; simpl; [contradiction|].
  destruct (Nat.eqb (node c0) sib); simpl; intuition.
Qed.

Lemma insert_after_In (sib : nat) (x c : Row) (cs : list Row) :
  In c (insert_after sib x cs) -> c = x \/ In c cs.
Proof.
  induction cs as [|c0 cs IH]; simpl; [contradiction|].
  destruct (Nat.eqb (node c0) sib); simpl; intuition.
Qed.

Lemma is_top_level_false (ts : GtkTreeStore) (n : nat) (r : Root) :
  is_top_level ts n = false -> In r (rows ts) ->
  Nat.eqb (node (root_row r)) n = false.
Proof.
  unfold is_top_level. intros H Hr.
  destruct (Nat.eqb (node (root_row r)) n) eqn:E; [|reflexivity].
  rewrite <- H. symmetry. apply existsb_exists. eauto.
Qed.

Lemma filter_all {A : Type} (p : A -> bool) (l : list A) :
  (forall x, In x l -> p x = true) -> filter p l = l.
Proof.
  induction l as [|a l IH]; simpl; intros H; [reflexivity|].
  rewrite (H a) by auto. f_equal. apply IH. intros x Hx. apply H. auto.
Qed.

Section StagedDrop.

Variable model : GtkTreeStore.
Variables sel dest : nat.
Variable after : bool.
Variable s : Row.
Variable final_parent : Root.
Variables (id : Z) (nm : string) (u : Z).

Hypothesis nodes_below :
  Forall (fun m => (m < next_node model)%nat) (nodes (rows model)).
Hypothesis sel_row : row_at model sel = Some s.
Hypothesis sel_below : is_top_level model sel = false.
Hypothesis dest_top : top_level_of model dest = Some final_parent.

Let n := next_node model.
Let sib := if is_top_level model dest then None else Some dest.
Let place (cs : list Row) : list Row :=
  match sib, after with
  | None, false => cs ++ [empty_row n]
  | None, true => empty_row n :: cs
  | Some s, false => insert_before s (empty_row n) cs
  | Some s, true => insert_after s (empty_row n) cs
  end.
Let upd (c : Row) : Row :=
  if Nat.eqb (node c) n
  then {| node := node c; COL_ID := id; COL_NAME := nm; COL_USE := u;
          COL_ICON := COL_ICON c; COL_GENERATION := COL_GENERATION c |}
  else c.
Let F (r : Root) : Root :=
  set_children
    (filter (fun c => negb (Nat.eqb (node c) sel))
       (map upd
          (children (if Nat.eqb (node (root_row r)) (node (root_row final_parent))
                     then set_children (place (children r)) r
                     else r)))) r.
Let new_row : Row :=
  {| node := n; COL_ID := id; COL_NAME := nm; COL_USE := u;
     COL_ICON := None; COL_GENERATION := 0 |}.
Let m3 : GtkTreeStore :=
  gtk_tree_store_remove sel
    (set_id_name_use n id nm u
       (snd (gtk_tree_store_insert after (node (root_row final_parent)) sib
               model))).

Lemma drop_rows : rows m3 = map F (rows model).
Proof.
  unfold m3, gtk_tree_store_remove, set_id_name_use, gtk_tree_store_insert.
  simpl. rewrite filter_all.
  - rewrite !map_map. apply map_ext_in. intros r Hr. unfold F.
    destruct (Nat.eqb (node (root_row r)) (node (root_row final_parent)));
      reflexivity.
  - intros r' Hr'. apply in_map_iff in Hr' as (r1 & <- & Hr1).
    apply in_map_iff in Hr1 as (r & <- & Hr).
    pose proof (is_top_level_false model sel r sel_below Hr) as E.
    destruct (Nat.eqb (node (root_row r)) (node (root_row final_parent)));
      simpl; rewrite E; reflexivity.
Qed.

Lemma drop_node_below (c : Row) :
  In c (all_rows (rows model)) -> (node c < n)%nat.
Proof.
  intros Hc. rewrite Forall_forall in nodes_below.
  apply nodes_below. unfold nodes. apply in_map. assumption.
Qed.

Lemma drop_sel_below : (sel < n)%nat.
Proof.
  apply find_some in sel_row as [Hin Hn]. apply Nat.eqb_eq in Hn.
  rewrite <- Hn. apply drop_node_below. assumption.
Qed.

Lemma place_In (cs : list Row) (c : Row) :
  In c (place cs) -> c = empty_row n \/ In c cs.
Proof.
  unfold place. destruct sib as [sb|], after; simpl.
  - apply insert_after_In.
  - apply insert_before_In.
  - intuition.
  - rewrite in_app_iff. simpl. intuition.
Qed.

Lemma In_place : In (empty_row n) (place (children final_parent)).
Proof.
  pose proof dest_top as Hd. apply find_some in Hd as [Hfp Hp].
  unfold place, sib.
  destruct (is_top_level model dest) eqn:Et.
  - destruct after; simpl; auto. apply in_or_app. right. left. reflexivity.
  - rewrite (is_top_level_false model dest final_parent Et Hfp) in Hp.
    simpl in Hp.
    destruct after; [apply In_insert_after | apply In_insert_before];
      assumption.
Qed.

(** A row of the new tree with the new node is the new row, and it lies
    below a row on the node of the target. *)
Lemma drop_new_child (r : Root) (c : Row) :
  In r (rows model) -> In c (children (F r)) -> node c = n ->
  c = new_row
  /\ node (root_row r) = node (root_row final_parent).
Proof.
  intros Hr Hc Hn. unfold F in Hc. simpl in Hc.
  apply filter_In in Hc as [Hc _]. apply in_map_iff in Hc as (c0 & <- & Hc0).
  assert (node (upd c0) = node c0) as Hnode
    by (unfold upd; destruct (Nat.eqb (node c0) n); reflexivity).
  rewrite Hnode in Hn.
  assert (forall c1, In c1 (children r) -> node c1 = n -> False) as Hold.
  { intros c1 Hc1 E.
    assert ((node c1 < n)%nat) as Hlt.
    { apply drop_node_below, In_all_rows. exists r. auto. }
    lia. }
  destruct (Nat.eqb (node (root_row r)) (node (root_row final_parent))) eqn:E.
  - simpl in Hc0. apply place_In in Hc0 as [-> | Hc0].
    + split; [|apply Nat.eqb_eq; assumption].
      unfold upd. simpl. rewrite Nat.eqb_refl. reflexivity.
    + destruct (Hold _ Hc0 Hn).
  - destruct (Hold _ Hc0 Hn).
Qed.

Lemma drop_new_row_in : In new_row (children (F final_parent)).
Proof.
  unfold F. simpl. rewrite Nat.eqb_refl. simpl.
  apply filter_In. split.
  - apply in_map_iff. exists (empty_row n). split; [|apply In_place].
    unfold upd. simpl. rewrite Nat.eqb_refl. reflexivity.
  - simpl. pose proof drop_sel_below as Hlt.
    destruct (Nat.eqb_spec n sel); [lia | reflexivity].
Qed.

Lemma drop_facts :
  map root_row (rows m3) = map root_row (rows model)
  /\ row_at m3 sel = None
  /\ row_at m3 n = Some new_row
  /\ exists r, top_level_of m3 n = Some r
               /\ node (root_row r) = node (root_row final_parent).
Proof.
  pose proof dest_top as Hd. apply find_some in Hd as [Hfp _].
  split; [|split; [|split]].
  - rewrite drop_rows, map_map. apply map_ext. intros r. reflexivity.
  - unfold row_at. apply find_all_false. intros c Hc.
    rewrite drop_rows in Hc. apply In_all_rows in Hc as (r' & Hr' & Hc).
    apply in_map_iff in Hr' as (r & <- & Hr).
    destruct Hc as [-> | Hc].
    + simpl. apply (is_top_level_false model sel r sel_below Hr).
    + unfold F in Hc. simpl in Hc. apply filter_In in Hc as [_ Hc].
      apply negb_true_iff. assumption.
  - unfold row_at. apply find_unique.
    + rewrite drop_rows. apply In_all_rows. exists (F final_parent).
      split; [apply in_map; assumption|]. right. apply drop_new_row_in.
    + simpl. apply Nat.eqb_refl.
    + intros c Hc Hn. apply Nat.eqb_eq in Hn.
      rewrite drop_rows in Hc. apply In_all_rows in Hc as (r' & Hr' & Hc).
      apply in_map_iff in Hr' as (r & <- & Hr).
      destruct Hc as [-> | Hc].
      * simpl in Hn.
        assert ((node (root_row r) < n)%nat) as Hlt.
        { apply drop_node_below, In_all_rows. exists r. auto. }
        lia.
      * apply (drop_new_child r c Hr Hc Hn).
  - unfold top_level_of. rewrite drop_rows.
    destruct (find_exists
                (fun r => Nat.eqb (node (root_row r)) n
                          || existsb (fun c => Nat.eqb (node c) n) (children r))
                (map F (rows model)) (F final_parent)) as [r Hfind].
    + apply in_map; assumption.
    + apply orb_true_iff. right. apply existsb_exists. exists new_row.
      split; [apply drop_new_row_in | apply Nat.eqb_refl].
    + exists r. split; [assumption|].
      apply find_some in Hfind as [Hin Hp].
      apply in_map_iff in Hin as (r0 & <- & Hr0).
      apply orb_true_iff in Hp as [Hp | Hp].
      * simpl in Hp. apply Nat.eqb_eq in Hp.
        assert ((node (root_row r0) < n)%nat) as Hlt.
        { apply drop_node_below, In_all_rows. exists r0. auto. }
        lia.
      * apply existsb_exists in Hp as (c & Hc & Hn). apply Nat.eqb_eq in Hn.
        apply (drop_new_child r0 c Hr0 Hc Hn).
Qed.

End StagedDrop.

(** X13.  A drop in the older version that passes the checks, of a row
    below the top level, on a tree whose nodes are all below the store's
    next node: the top-level rows stay as they are, the dragged row is
    gone, and a new row with its id, name and use but no icon and no
    stamp lies below the top-level row that the drop was aimed at. *)
Theorem older_version_drop_moves_the_row (gds : GDeviceSetup)
    (model : GtkTreeStore) (sel dest : nat) (pos : GtkTreeViewDropPosition)
    (s : Row) (final_parent : Root) :
  treeview gds = Some model ->
  Forall (fun m => (m < next_node model)%nat) (nodes (rows model)) ->
  row_at model sel = Some s ->
  is_top_level model sel = false ->
  master_use (COL_USE s) = false ->
  top_level_of model dest = Some final_parent ->
  Staged.role_mismatch (COL_USE s) (COL_USE (root_row final_parent)) = false ->
  exists m3,
    treeview (Staged.signal_dnd_recv (Some sel) (Some (dest, pos)) gds)
    = Some m3
    /\ map root_row (rows m3) = map root_row (rows model)
    /\ row_at m3 sel = None
    /\ row_at m3 (next_node model)
       = Some {| node := next_node model; COL_ID := COL_ID s;
                 COL_NAME := COL_NAME s; COL_USE := COL_USE s;
                 COL_ICON := None; COL_GENERATION := 0 |}
    /\ exists r, top_level_of m3 (next_node model) = Some r
                 /\ node (root_row r) = node (root_row final_parent).
Proof.
  intros Htv Hnodes Hsel Hbelow Huse Hdest Hrole.
  unfold Staged.signal_dnd_recv. rewrite Htv, Hsel.
  unfold master_use in Huse. rewrite Huse, Hdest, Hrole.
  eexists. split; [reflexivity|].
  exact (drop_facts model sel dest
           (match pos with
            | GTK_TREE_VIEW_DROP_BEFORE
            | GTK_TREE_VIEW_DROP_INTO_OR_BEFORE => false
            | _ => true
            end) s final_parent (COL_ID s) (COL_NAME s) (COL_USE s)
           Hnodes Hsel Hbelow Hdest).
Qed.

(** ** The buttons of the older version *)

Lemma staged_handle_buttons (gds gds' : GDeviceSetup) (e : StagedRun.Event) :
  treeview gds <> None ->
  apply_sensitive (window gds) = cancel_sensitive (window gds)
  /\ (apply_sensitive (window gds) = true -> changes gds <> []) ->
  StagedRun.handle gds e = Some gds' ->
  treeview gds' <> None
  /\ apply_sensitive (window gds') = cancel_sensitive (window gds')
  /\ (apply_sensitive (window gds') = true -> changes gds' <> []).
Proof.
  intros Htv HI.
  destruct e as [sel dest | answer | iter | response answer_no malloc_ok];
    simpl; intros E.
  - injection E as <-. unfold Staged.signal_dnd_recv.
    destruct (treeview gds) as [ts|] eqn:Ets; [|contradiction].
    assert (Some ts <> None) as Hs by discriminate.
    destruct sel as [sel_iter|]; [|rewrite Ets; auto].
    destruct (row_at ts sel_iter) as [s|]; [|rewrite Ets; auto].
    destruct ((COL_USE s =? XIMasterPointer) || (COL_USE s =? XIMasterKeyboard));
      [rewrite Ets; auto|].
    destruct dest as [[dest_iter pos]|]; [|rewrite Ets; auto].
    destruct (top_level_of ts dest_iter) as [final_parent|];
      [|rewrite Ets; auto].
    destruct (Staged.role_mismatch _ _); [rewrite Ets; auto|].
    destruct (gtk_tree_store_insert _ _ _ ts) as [ins_iter m1].
    simpl. split; [discriminate|]. split; [reflexivity|].
    intros _ Hnil. apply app_eq_nil in Hnil as [_ Hnil]. discriminate.
  - injection E as <-. destruct answer as [nm|]; simpl; [|auto].
    destruct (treeview gds); [|contradiction].
    split; [discriminate | exact HI].
  - injection E as <-.
    unfold Staged.request_remove_master, Staged.signal_button_press.
    simpl.
    destruct (treeview gds) as [ts|] eqn:Ets; [|contradiction].
    assert (Some ts <> None) as Hs by discriminate.
    destruct (row_at ts iter) as [s|] eqn:Es; [|rewrite Ets; auto].
    destruct ((COL_USE s =? XIMasterPointer) || (COL_USE s =? XIMasterKeyboard)
              || (COL_USE s =? XIFloatingSlave)); [|rewrite Ets; auto].
    simpl.
    destruct ((COL_ID s <? 2) || (COL_USE s =? XIFloatingSlave)); simpl;
      [rewrite Ets; auto|].
    unfold Staged.signal_popup_activate. rewrite Ets, Es. simpl.
    rewrite Ets. split; [discriminate | exact HI].
  - destruct response; simpl in E.
    + injection E as <-. auto.
    + destruct (Staged.apply malloc_ok gds) as [g1|] eqn:Ea; [|discriminate].
      injection E as <-. simpl. split.
      * unfold Staged.apply in Ea. destruct (changes gds).
        -- injection Ea as <-. assumption.
        -- destruct (negb malloc_ok).
           ++ injection Ea as <-. assumption.
           ++ destruct (gather _); [|discriminate].
              injection Ea as <-. simpl.
              destruct (treeview gds); [discriminate | contradiction].
      * split; [reflexivity | discriminate].
    + injection E as <-. simpl. split.
      * destruct (treeview gds); [discriminate | contradiction].
      * split; [reflexivity | discriminate].
    + assert (gds' = gds) as ->
        by (destruct (changes gds); injection E as <-; reflexivity).
      auto.
    + injection E as <-. auto.
Qed.

(** What one event does to the buttons. *)
Lemma staged_handle_window (gds gds' : GDeviceSetup) (e : StagedRun.Event) :
  StagedRun.handle gds e = Some gds' ->
  match e with
  | StagedRun.Drop _ _ =>
      gds' = gds
      \/ (exists p, changes gds' = changes gds ++ [p])
         /\ apply_sensitive (window gds') = true
         /\ cancel_sensitive (window gds') = true
  | StagedRun.Respond GTK_RESPONSE_APPLY _ _
  | StagedRun.Respond GTK_RESPONSE_CANCEL _ _ =>
      apply_sensitive (window gds') = false
      /\ cancel_sensitive (window gds') = false
  | _ => window gds' = window gds
  end.
Proof.
  destruct e as [sel dest | answer | iter | response answer_no malloc_ok];
    simpl; intros E.
  - injection E as <-. unfold Staged.signal_dnd_recv.
    destruct (treeview gds) as [ts|]; [|auto].
    destruct sel as [sel_iter|]; [|auto].
    destruct (row_at ts sel_iter) as [s|]; [|auto].
    destruct ((COL_USE s =? XIMasterPointer) || (COL_USE s =? XIMasterKeyboard));
      [auto|].
    destruct dest as [[dest_iter pos]|]; [|auto].
    destruct (top_level_of ts dest_iter) as [final_parent|]; [|auto].
    destruct (Staged.role_mismatch _ _); [auto|].
    destruct (gtk_tree_store_insert _ _ _ ts) as [ins_iter m1].
    right. simpl. split; [eexists; reflexivity | split; reflexivity].
  - injection E as <-. destruct answer as [nm|]; reflexivity.
  - injection E as <-.
    unfold Staged.request_remove_master, Staged.signal_button_press. simpl.
    destruct (treeview gds) as [ts|] eqn:Ets; [|reflexivity].
    destruct (row_at ts iter) as [s|] eqn:Es; [|reflexivity].
    destruct ((COL_USE s =? XIMasterPointer) || (COL_USE s =? XIMasterKeyboard)
              || (COL_USE s =? XIFloatingSlave)); [|reflexivity].
    simpl.
    destruct ((COL_ID s <? 2) || (COL_USE s =? XIFloatingSlave)); simpl;
      [reflexivity|].
    unfold Staged.signal_popup_activate. rewrite Ets, Es. reflexivity.
  - destruct response; simpl in E.
    + injection E as <-. reflexivity.
    + destruct (Staged.apply malloc_ok gds); [|discriminate].
      injection E as <-. split; reflexivity.
    + injection E as <-. split; reflexivity.
    + destruct (changes gds); injection E as <-; reflexivity.
    + injection E as <-. reflexivity.
Qed.

(** X14.  In a session of the older version, as far as it runs, "apply"
    and "cancel" are sensitive together, and they are sensitive only
    while the list of pending changes is not empty; and of the events
    that can follow, a drop that goes through (one that queues an
    element) makes both sensitive, a drop that does not leaves the
    session as it is, the "apply" and "cancel" turns make both
    insensitive, and every other event leaves the window as it is. *)
Theorem older_version_buttons (d : Display) (events : list StagedRun.Event)
    (gds : GDeviceSetup) :
  StagedRun.run d events = Some gds ->
  apply_sensitive (window gds) = cancel_sensitive (window gds)
  /\ (apply_sensitive (window gds) = true -> changes gds <> [])
  /\ forall e gds',
       StagedRun.handle gds e = Some gds' ->
       match e with
       | StagedRun.Drop _ _ =>
           gds' = gds
           \/ (exists p, changes gds' = changes gds ++ [p])
              /\ apply_sensitive (window gds') = true
              /\ cancel_sensitive (window gds') = true
       | StagedRun.Respond GTK_RESPONSE_APPLY _ _
       | StagedRun.Respond GTK_RESPONSE_CANCEL _ _ =>
           apply_sensitive (window gds') = false
           /\ cancel_sensitive (window gds') = false
       | _ => window gds' = window gds
       end.
Proof.
  intros Hrun.
  assert (apply_sensitive (window gds) = cancel_sensitive (window gds)
          /\ (apply_sensitive (window gds) = true -> changes gds <> []))
    as [H1 H2].
  { revert Hrun. unfold StagedRun.run.
    assert (treeview (Staged.main_start d) <> None
            /\ apply_sensitive (window (Staged.main_start d))
               = cancel_sensitive (window (Staged.main_start d))
            /\ (apply_sensitive (window (Staged.main_start d)) = true ->
                changes (Staged.main_start d) <> [])) as H0.
    { simpl. split; [discriminate|]. split; [reflexivity | discriminate]. }
    revert H0. generalize (Staged.main_start d). intros gds0.
    revert gds0. induction events as [|e events IH]; simpl;
      intros gds0 (Htv & HI) E.
    - injection E as <-. exact HI.
    - destruct (StagedRun.handle gds0 e) as [gds1|] eqn:E1; [|discriminate].
      apply (IH gds1); [|assumption].
      exact (staged_handle_buttons gds0 gds1 e Htv HI E1). }
  split; [exact H1|]. split; [exact H2|].
  intros e gds'. apply staged_handle_window.
Qed.

(** ** These theorems at work on the small server *)

Import Example2.

Lemma masters_on_top_slaves_below_witness :
  In floating_row (rows (snd (refreshes [devices_before])))
  /\ (master_use (COL_USE (root_row floating_row)) = true
      \/ COL_USE (root_row floating_row) = Immediate.ID_FLOATING)
  /\ forall c, In c (children floating_row) -> master_use (COL_USE c) = false.
Proof.
  assert (In floating_row (rows (snd (refreshes [devices_before])))) as Hin
    by (vm_compute; tauto).
  split; [exact Hin|].
  exact (masters_on_top_slaves_below [devices_before] floating_row Hin).
Defined.

Lemma older_version_refresh_leaves_one_child_witness :
  stamps_below 1 staged_tree = true
  /\ Forall (fun z => z = 1 + 1)
            (generations (Staged.reconcile (1 + 1) devices staged_tree))
  /\ (List.length (edges (Staged.reconcile (1 + 1) devices staged_tree)) <= 1)%nat
  /\ forall p c,
       In (p, c) (edges (Staged.reconcile (1 + 1) devices staged_tree)) ->
       c = p /\ exists d, first_slave devices = Some d /\ deviceid d = c.
Proof.
  split; [reflexivity|].
  apply (older_version_refresh_leaves_one_child 1 devices staged_tree).
  reflexivity.
Defined.

Lemma older_version_queue_witness :
  StagedRun.run (display false) staged_events = Some old_session_staged
  /\ Forall (fun p => p = IntPtr Success) (changes old_session_staged)
  /\ (exists l,
        requests (dpy old_session_staged) = requests (display false) ++ l
        /\ forallb staged_request l = true
        /\ (List.length (changes old_session_staged) <= List.length l)%nat)
  /\ (changes old_session_staged <> [] ->
      Staged.apply true old_session_staged = None).
Proof.
  split; [reflexivity|].
  apply (older_version_queue (display false) staged_events old_session_staged).
  reflexivity.
Defined.

Lemma older_version_forgets_the_arrangement_witness :
  StagedRun.run (display false) staged_events = Some old_session_staged
  /\ (exists ts, treeview old_session_staged = Some ts
                 /\ stamps_below (generation old_session_staged) ts = true)
  /\ (List.length (edges (fst (Staged.query_devices old_session_staged))) <= 1)%nat.
Proof.
  split; [reflexivity|].
  apply (older_version_forgets_the_arrangement (display false) staged_events
           old_session_staged).
  reflexivity.
Defined.

Lemma requests_name_the_devices_shown_witness :
  treeview session = Some (snd (refresh (refreshes []) devices))
  /\ Forall (Forall (fun x => 0 <= deviceid x)) ([] ++ [devices])
  /\ requests (dpy (Immediate.handle session mouse_drop))
     = requests (dpy session) ++ [[XIAttachSlave 9 3]]
  /\ In 3 (master_ids devices)
  /\ (9 = Immediate.ID_FLOATING \/ In 9 (map deviceid devices)).
Proof.
  assert (Forall (Forall (fun x => 0 <= deviceid x)) ([] ++ [devices])) as Hpos
    by (repeat constructor; simpl; lia).
  split; [reflexivity|]. split; [exact Hpos|]. split; [reflexivity|].
  exact (requests_name_the_devices_shown [] devices session mouse_drop
           (XIAttachSlave 9 3) eq_refl Hpos eq_refl).
Defined.

Lemma older_version_drop_moves_the_row_witness :
  treeview old_session_staged = Some staged_tree
  /\ Forall (fun m => (m < next_node staged_tree)%nat) (nodes (rows staged_tree))
  /\ row_at staged_tree 3 = Some dragged_row
  /\ is_top_level staged_tree 3 = false
  /\ master_use (COL_USE dragged_row) = false
  /\ top_level_of staged_tree 0 = Some target_root
  /\ Staged.role_mismatch (COL_USE dragged_row) (COL_USE (root_row target_root))
     = false
  /\ exists m3,
       treeview (Staged.signal_dnd_recv (Some 3%nat)
                   (Some (0%nat, GTK_TREE_VIEW_DROP_INTO_OR_AFTER))
                   old_session_staged)
       = Some m3
       /\ map root_row (rows m3) = map root_row (rows staged_tree)
       /\ row_at m3 3 = None
       /\ row_at m3 (next_node staged_tree)
          = Some {| node := next_node staged_tree; COL_ID := COL_ID dragged_row;
                    COL_NAME := COL_NAME dragged_row;
                    COL_USE := COL_USE dragged_row;
                    COL_ICON := None; COL_GENERATION := 0 |}
       /\ exists r, top_level_of m3 (next_node staged_tree) = Some r
                    /\ node (root_row r) = node (root_row target_root).
Proof.
  assert (Forall (fun m => (m < next_node staged_tree)%nat)
                 (nodes (rows staged_tree))) as Hnodes
    by (vm_compute; repeat constructor).
  split; [reflexivity|]. split; [exact Hnodes|].
  split; [reflexivity|]. split; [reflexivity|]. split; [reflexivity|].
  split; [reflexivity|]. split; [reflexivity|].
  exact (older_version_drop_moves_the_row old_session_staged staged_tree
           3%nat 0%nat GTK_TREE_VIEW_DROP_INTO_OR_AFTER dragged_row target_root
           eq_refl Hnodes eq_refl eq_refl eq_refl eq_refl eq_refl).
Defined.

Lemma older_version_buttons_witness :
  StagedRun.run (display false) staged_events = Some old_session_staged
  /\ apply_sensitive (window old_session_staged) = true
  /\ cancel_sensitive (window old_session_staged) = true
  /\ changes old_session_staged <> []
  /\ apply_sensitive
       (window (Staged.signal_dnd_recv (Some 3%nat)
                  (Some (0%nat, GTK_TREE_VIEW_DROP_INTO_OR_AFTER))
                  old_session_staged)) = true.
Proof.
  destruct (older_version_buttons (display false) staged_events
              old_session_staged eq_refl) as (H1 & H2 & H3).
  split; [reflexivity|]. split; [reflexivity|]. split; [reflexivity|].
  split; [apply H2; reflexivity|].
  destruct (H3 (StagedRun.Drop (Some 3%nat)
                  (Some (0%nat, GTK_TREE_VIEW_DROP_INTO_OR_AFTER)))
               _ eq_refl) as [E | (_ & Ha & _)].
  - apply (f_equal changes) in E. vm_compute in E. discriminate.
  - exact Ha.
Defined.

(** ** "cancel" and "apply" *)

Import Example.

(** C4.  The older version at work where the claim puts it: the server
    always reports the mouse, device 9, below master 2 and accepts every
    request; the "Floating" row is dropped on master 3 and the dialog
    answers "cancel".  The drop's request has gone to the server when the
    drop was queued, what is queued is the integer the request returned,
    and after "cancel", with the list empty again and one more refresh
    run, the tree has no row for device 9, below master 2 or anywhere. *)
Theorem cancel_does_not_show_the_slave :
  (forall h, XIQueryDevice_reply (display false) h = devices)
  /\ In mouse devices /\ is_master mouse = false /\ parent_id mouse = 2
  /\ StagedRun.run (display false) drop_events = Some old_session_staged
  /\ changes old_session_staged = [IntPtr Success]
  /\ requests (dpy old_session_staged) = [[XIAttachSlave 5 3]]
  /\ exists gds',
       StagedRun.run (display false) cancel_events = Some gds'
       /\ changes gds' = []
       /\ requests (dpy gds') = [[XIAttachSlave 5 3]]
       /\ generation gds' = generation old_session_staged + 1
       /\ option_map root_ids (treeview gds') = Some [2; 3; 5]
       /\ option_map edges (treeview gds') = Some []
       /\ option_map (nodes_of 9) (treeview gds') = Some [].
Proof.
  split; [reflexivity|].
  split; [right; right; left; reflexivity|].
  split; [reflexivity|]. split; [reflexivity|].
  split; [reflexivity|]. split; [reflexivity|]. split; [reflexivity|].
  eexists. split; [reflexivity|]. repeat split.
Qed.



(** ** The order of the top level after a refresh *)

Lemma mem_In (x : Z) (l : list Z) : mem x l = true <-> In x l.
Proof.
  unfold mem. rewrite existsb_exists. split.
  - intros (y & Hy & E). apply Z.eqb_eq in E. subst. assumption.
  - intros H. exists x. split; [assumption | apply Z.eqb_refl].
Qed.

Lemma mem_false (x : Z) (l : list Z) : mem x l = false <-> ~ In x l.
Proof.
  rewrite <- mem_In. destruct (mem x l); split; intros H;
    congruence.
Qed.

Lemma filter_none {A : Type} (p : A -> bool) (l : list A) :
  (forall x, In x l -> p x = false) -> filter p l = [].
Proof.
  induction l as [|a l IH]; simpl; intros H; [reflexivity|].
  rewrite (H a) by auto. apply IH. intros x Hx. apply H. auto.
Qed.

Lemma map_filter_comm {A B : Type} (f : A -> B) (q : B -> bool) (l : list A) :
  map f (filter (fun x => q (f x)) l) = filter q (map f l).
Proof.
  induction l as [|a l IH]; simpl; [reflexivity|].
  destruct (q (f a)); simpl; rewrite IH; reflexivity.
Qed.

Lemma master_pass_root_ids (gen : Z) (devices : list XIDeviceInfo)
    (ts : GtkTreeStore) :
  NoDup (master_ids devices) ->
  root_ids (master_pass gen devices ts)
  = root_ids ts
    ++ filter (fun x => negb (mem x (root_ids ts))) (master_ids devices).
Proof.
  unfold master_pass, master_ids. revert ts.
  induction devices as [|d devices IH]; intros ts Hnd; simpl.
  - rewrite app_nil_r. reflexivity.
  - simpl in Hnd. unfold master_step at 2.
    destruct (is_master d) eqn:Hm; simpl in *.
    + inversion Hnd as [|? ? Hnew Hnd']; subst.
      destruct (update_first _ _ (rows ts)) as [rs|] eqn:E.
      * apply update_first_some in E as (l1 & x & l2 & Hrows & _ & Hx & ->).
        apply Z.eqb_eq in Hx.
        rewrite IH by assumption. unfold root_ids. simpl.
        rewrite Hrows, map_root_id_stamp.
        assert (mem (deviceid d) (map root_id (l1 ++ x :: l2)) = true) as Hin.
        { apply mem_In. rewrite <- Hx. apply in_map, in_elt. }
        rewrite Hin. reflexivity.
      * apply update_first_none in E. rewrite Forall_forall in E.
        assert (mem (deviceid d) (root_ids ts) = false) as Hout.
        { apply mem_false. intros Hin. unfold root_ids in Hin.
          apply in_map_iff in Hin as (r & Hr & Hin).
          specialize (E _ Hin). simpl in E. apply Z.eqb_neq in E. auto. }
        rewrite Hout. simpl. rewrite IH by assumption.
        unfold root_ids, append_root. simpl. rewrite map_app. simpl.
        rewrite <- app_assoc. simpl. f_equal. f_equal.
        apply filter_ext_in. intros y Hy. f_equal.
        unfold mem. rewrite existsb_app. unfold root_id at 2. simpl.
        destruct (Z.eqb_spec y (deviceid d)) as [-> | _];
          [contradiction|].
        rewrite !orb_false_r. reflexivity.
    + apply IH. assumption.
Qed.

Lemma floating_pass_root_ids (fid gen : Z) (ts : GtkTreeStore) :
  NoDup (root_ids ts) ->
  root_ids (floating_pass fid gen ts)
  = filter (fun x => negb (x =? fid)) (root_ids ts) ++ [fid].
Proof.
  unfold floating_pass, root_ids. intros Hnd.
  destruct (find_root fid (rows ts)) as [[[before f] after]|] eqn:E; simpl.
  - apply find_root_some in E as (Hrows & Hf & Hb).
    rewrite Hrows in *. rewrite !map_app in *. simpl in *.
    rewrite filter_app. simpl. rewrite Hf, Z.eqb_refl. simpl.
    rewrite <- app_assoc.
    apply NoDup_remove_2 in Hnd. rewrite Hf in Hnd.
    rewrite !filter_all;
      [rewrite root_id_set_root_generation, Hf; reflexivity | |].
    + intros x Hx. apply negb_true_iff, Z.eqb_neq. intros ->.
      apply Hnd. apply in_or_app. right. assumption.
    + intros x Hx. apply negb_true_iff, Z.eqb_neq. intros ->.
      apply Hnd. apply in_or_app. left. assumption.
  - apply find_root_none in E. rewrite map_app. simpl. f_equal.
    symmetry. apply filter_all. intros x Hx.
    apply in_map_iff in Hx as (r & <- & Hr). rewrite Forall_forall in E.
    apply negb_true_iff, Z.eqb_neq. auto.
Qed.

Lemma reconcile_root_ids (g : Z) (devices : list XIDeviceInfo)
    (ts : GtkTreeStore) :
  store_ok g ts = true -> well_formed devices = true ->
  NoDup (master_ids devices) ->
  root_ids (Immediate.reconcile (g + 1) devices ts)
  = top_level_after devices ts.
Proof.
  intros Hok Hwf Hndm.
  destruct (slave_pass_facts g devices ts Hok Hwf)
    as ([Hnd Hall] & Hm & Hfl & _ & _).
  cbv zeta in *.
  set (ts1 := master_pass (g + 1) devices ts) in *.
  set (ts2 := floating_pass Immediate.ID_FLOATING (g + 1) ts1) in *.
  set (rs3 := rows (Immediate.slave_pass (g + 1) devices ts2)) in *.
  assert (NoDup (root_ids ts)) as Hnd0.
  { unfold store_ok in Hok. apply andb_true_iff in Hok as [Hok _].
    apply distinct_NoDup. assumption. }
  set (new := filter (fun x => negb (mem x (root_ids ts))) (master_ids devices)).
  assert (root_ids ts1 = root_ids ts ++ new) as H1
    by (apply master_pass_root_ids; assumption).
  assert (NoDup (root_ids ts1)) as Hnd1.
  { rewrite H1. apply NoDup_app; auto.
    - apply NoDup_filter. assumption.
    - intros x Hx Hx'. apply filter_In in Hx' as [_ Hx'].
      apply negb_true_iff, mem_false in Hx'. contradiction. }
  assert (map root_id rs3
          = filter (fun x => negb (x =? Immediate.ID_FLOATING)) (root_ids ts1)
            ++ [Immediate.ID_FLOATING]) as H3.
  { rewrite <- (floating_pass_root_ids Immediate.ID_FLOATING (g + 1) ts1 Hnd1).
    fold ts2.
    unfold root_ids, root_id, rs3.
    rewrite <- (map_map root_row COL_ID), slave_pass_root_rows, map_map.
    reflexivity. }
  (* the rows the sweep keeps are those whose id the list accepts *)
  assert (forall r, In r rs3 ->
            negb (root_gen r <? g + 1)
            = mem (root_id r) (master_ids devices)
              || (root_id r =? Immediate.ID_FLOATING)) as Hkeep.
  { intros r Hr. rewrite Forall_forall in Hall.
    destruct (Hall _ Hr) as (_ & Hle & Hokr & _).
    destruct (Z.ltb_spec (root_gen r) (g + 1)) as [Hlt | Hge]; simpl.
    - symmetry. apply orb_false_iff. split.
      + apply mem_false. intros Hin.
        apply master_ids_In in Hin as (d & Hd & Hdm & Hid).
        destruct (Hm _ Hd Hdm) as (r' & Hr' & Hid' & Hg').
        assert (r' = r) as -> by (apply (NoDup_map_eq root_id rs3); auto; congruence).
        lia.
      + apply Z.eqb_neq. intros Hid.
        destruct Hfl as (r' & Hr' & Hid' & Hg').
        assert (r' = r) as -> by (apply (NoDup_map_eq root_id rs3); auto; congruence).
        lia.
    - symmetry. apply orb_true_iff.
      destruct Hokr as [E | Hin]; [lia | right; apply Z.eqb_eq; assumption |].
      left. apply mem_In. assumption. }
  unfold Immediate.reconcile, sweep_store, root_ids. simpl.
  fold ts1. fold ts2. fold rs3.
  rewrite sweep_filter, map_map. simpl.
  rewrite (filter_ext_in _ _ _ Hkeep).
  change (fun x : Root => root_id (set_children _ x)) with root_id.
  rewrite (map_filter_comm root_id
             (fun x => mem x (master_ids devices)
                       || (x =? Immediate.ID_FLOATING))).
  rewrite H3, H1, !filter_app. simpl. unfold top_level_after. fold new.
  rewrite <- !app_assoc. f_equal; [|f_equal].
  - apply filter_ext_in. intros x Hx. apply filter_In in Hx as [_ Hx].
    apply negb_true_iff in Hx. rewrite Hx, orb_false_r. reflexivity.
  - assert (forall x, In x new ->
              In x (master_ids devices) /\ x <> Immediate.ID_FLOATING) as Hnew.
    { intros x Hx. apply filter_In in Hx as [Hx _]. split; [assumption|].
      apply master_ids_In in Hx as (d & Hd & _ & <-).
      pose proof (well_formed_positive _ _ Hwf Hd).
      unfold Immediate.ID_FLOATING. lia. }
    rewrite (filter_all (fun x => negb (x =? Immediate.ID_FLOATING)) new).
    + apply filter_all. intros x Hx. apply orb_true_iff. left.
      apply mem_In, Hnew, Hx.
    + intros x Hx. apply negb_true_iff, Z.eqb_neq, Hnew, Hx.
  - rewrite orb_true_r. reflexivity.
Qed.

Lemma master_ids_Permutation (l l' : list XIDeviceInfo) :
  Permutation l l' -> Permutation (master_ids l) (master_ids l').
Proof.
  unfold master_ids. induction 1 as [| x l l' _ IH | x y l | l l' l'' _ IH1 _ IH2];
    simpl.
  - constructor.
  - destruct (is_master x); simpl; [constructor|]; assumption.
  - destruct (is_master x), (is_master y); simpl;
      first [apply perm_swap | apply Permutation_refl].
  - eapply Permutation_trans; eassumption.
Qed.

(** C9, as the code has it.  Two orders of the same device list give
    trees with the same top-level ids and the same pairs of parent and
    child ids; when the store showed the devices already, so that the
    pass appends nothing, they give the same tree; and the top level is,
    for either order, the rows that stay, in the order they had, then the
    masters that are new to the tree, in the order of the list, then
    "Floating". *)
Theorem reconcile_of_permuted_list (g : Z) (devices devices' : list XIDeviceInfo)
    (ts : GtkTreeStore) :
  store_ok g ts = true -> well_formed devices = true ->
  Permutation devices devices' ->
  Permutation (root_ids (Immediate.reconcile (g + 1) devices ts))
              (root_ids (Immediate.reconcile (g + 1) devices' ts))
  /\ Permutation (edges (Immediate.reconcile (g + 1) devices ts))
                 (edges (Immediate.reconcile (g + 1) devices' ts))
  /\ (synced devices (rows ts) ->
      Immediate.reconcile (g + 1) devices' ts
      = Immediate.reconcile (g + 1) devices ts)
  /\ (NoDup (master_ids devices) ->
      root_ids (Immediate.reconcile (g + 1) devices ts)
      = top_level_after devices ts
      /\ root_ids (Immediate.reconcile (g + 1) devices' ts)
         = top_level_after devices' ts).
Proof.
  intros Hok Hwf Hp.
  pose proof (well_formed_perm _ _ Hp Hwf) as Hwf'.
  pose proof (reconcile_synced g devices ts Hok Hwf) as Hs.
  pose proof (reconcile_synced g devices' ts Hok Hwf') as Hs'.
  split; [|split; [|split]].
  - apply NoDup_Permutation; try apply Hs; try apply Hs'.
    intros p. unfold root_ids.
    rewrite (synced_root_ids _ _ p Hs), (synced_root_ids _ _ p Hs').
    split; [apply okr_of_perm | apply okr_of_perm, Permutation_sym]; auto.
  - apply NoDup_Permutation.
    + destruct Hs as (Hnd & Hall & _). apply NoDup_edges; auto.
      eapply Forall_impl; [|exact Hall]. intros r [_ H]; exact H.
    + destruct Hs' as (Hnd & Hall & _). apply NoDup_edges; auto.
      eapply Forall_impl; [|exact Hall]. intros r [_ H]; exact H.
    + intros [p c].
      rewrite (synced_edges devices _ p c Hwf Hs),
              (synced_edges devices' _ p c Hwf' Hs').
      split; intros (d & Hd & H); exists d; split; auto.
      * apply (Permutation_in _ Hp); assumption.
      * apply (Permutation_in _ (Permutation_sym Hp)); assumption.
  - intros Hsy.
    rewrite (reconcile_on_synced g devices ts Hok Hwf Hsy).
    apply reconcile_on_synced; auto. apply (synced_perm devices); auto.
  - intros Hnd. split.
    + apply reconcile_root_ids; assumption.
    + apply reconcile_root_ids; try assumption.
      apply (Permutation_NoDup (master_ids_Permutation _ _ Hp)). assumption.
Qed.

(** ** Where the rows below the top level come from *)

Section ChildOrigin.

Variable ts0 : GtkTreeStore.
Variable gen : Z.

Let I (s : GtkTreeStore) : Prop :=
  (next_node ts0 <= next_node s)%nat /\ Forall (child_origin ts0) (rows s).

Lemma child_origin_stamp (r : Root) :
  child_origin ts0 r -> child_origin ts0 (set_root_generation gen r).
Proof. intros H c Hc. exact (H c Hc). Qed.

Lemma child_origin_sub (r : Root) (cs : list Row) :
  child_origin ts0 r ->
  (forall c, In c cs ->
     (exists c0, In c0 (children r) /\ COL_ID c0 = COL_ID c
                 /\ node c0 = node c)
     \/ (next_node ts0 <= node c)%nat) ->
  child_origin ts0 (set_children cs r).
Proof.
  intros H Hsub c Hc. simpl in Hc.
  destruct (Hsub c Hc) as [(c0 & Hc0 & Hid & Hn) | Hnew]; [|right; exact Hnew].
  destruct (H c0 Hc0) as [(r0 & c1 & Hr0 & Hrid & Hc1 & Hid1) | Hnew].
  - left. exists r0, c1. repeat split; auto. congruence.
  - right. rewrite <- Hn. exact Hnew.
Qed.

Lemma master_step_origin (s : GtkTreeStore) (dev : XIDeviceInfo) :
  I s -> I (master_step gen s dev).
Proof.
  intros [Hn Hall]. split; [pose proof (master_step_next gen s dev); lia|].
  unfold master_step. destruct (is_master dev); [|assumption].
  destruct (update_first _ _ (rows s)) as [rs|] eqn:E; simpl.
  - apply update_first_some in E as (l1 & x & l2 & Hrows & _ & _ & ->).
    rewrite Hrows in Hall. apply Forall_elt_iff in Hall as (H1 & Hx & H2).
    apply Forall_elt_iff. repeat split; auto.
  - apply Forall_app. split; [assumption|].
    constructor; [|constructor]. intros c [].
Qed.

Lemma floating_pass_origin (fid : Z) (s : GtkTreeStore) :
  I s -> I (floating_pass fid gen s).
Proof.
  intros [Hn Hall]. split; [pose proof (floating_pass_next fid gen s); lia|].
  unfold floating_pass.
  destruct (find_root fid (rows s)) as [[[before f] after]|] eqn:E; simpl.
  - apply find_root_some in E as (Hrows & _ & _).
    rewrite Hrows in Hall. apply Forall_elt_iff in Hall as (H1 & Hx & H2).
    apply Forall_app. split; [assumption|].
    apply Forall_app. split; [assumption|].
    constructor; [|constructor]. apply child_origin_stamp. assumption.
  - apply Forall_app. split; [assumption|].
    constructor; [|constructor]. intros c [].
Qed.

Lemma attach_origin (n : nat) (dev : XIDeviceInfo) (r : Root) :
  (next_node ts0 <= n)%nat -> child_origin ts0 r ->
  child_origin ts0 (fst (attach n gen dev r)).
Proof.
  intros Hn H. unfold attach.
  destruct (update_first _ _ (children r)) as [cs|] eqn:E; simpl.
  - apply update_first_some in E as (l1 & x & l2 & Hch & _ & _ & ->).
    apply child_origin_sub; [assumption|].
    intros c Hc. left. rewrite Hch.
    apply in_app_or in Hc as [Hc | [<- | Hc]].
    + exists c. repeat split. apply in_or_app. left. assumption.
    + exists x. repeat split. apply in_elt.
    + exists c. repeat split. apply in_or_app. right. right. assumption.
  - apply child_origin_sub; [assumption|].
    intros c Hc. apply in_app_or in Hc as [Hc | [<- | []]].
    + left. exists c. auto.
    + right. exact Hn.
Qed.

Lemma slave_step_origin (s : GtkTreeStore) (dev : XIDeviceInfo) :
  I s -> I (Immediate.slave_step gen s dev).
Proof.
  intros [Hn Hall]. unfold Immediate.slave_step.
  destruct (is_master dev); [split; assumption|].
  pose proof (slave_walk_next (Immediate.found_master dev) (next_node s) gen
                dev (rows s)) as Hnext.
  destruct (slave_walk_cases (Immediate.found_master dev) (next_node s) gen
              dev (rows s))
    as [[_ E] | (l1 & r & l2 & Hrows & _ & _ & E)];
    rewrite E in *; simpl in *.
  - split; assumption.
  - split; [simpl; lia|]. simpl.
    rewrite Hrows in Hall. apply Forall_elt_iff in Hall as (H1 & Hx & H2).
    apply Forall_elt_iff. repeat split; auto.
    apply attach_origin; assumption.
Qed.

Lemma sweep_origin (rs : list Root) :
  Forall (child_origin ts0) rs -> Forall (child_origin ts0) (sweep gen rs).
Proof.
  intros Hall. rewrite Forall_forall in *. intros r' Hr'.
  apply In_sweep in Hr' as (r & Hr & _ & ->).
  apply child_origin_sub; [auto|].
  intros c Hc. apply In_sweep_children in Hc as [Hc _].
  left. exists c. auto.
Qed.

Lemma reconcile_origin (devices : list XIDeviceInfo) :
  Forall (child_origin ts0) (rows (Immediate.reconcile gen devices ts0)).
Proof.
  unfold Immediate.reconcile, sweep_store. simpl.
  apply sweep_origin.
  assert (I ts0) as H0.
  { split; [apply le_n|]. apply Forall_forall. intros r Hr c Hc.
    left. exists r, c. auto. }
  assert (I (master_pass gen devices ts0)) as H1.
  { unfold master_pass.
    apply (fold_left_preserves (master_step gen) I); auto.
    intros s d _. apply master_step_origin. }
  assert (I (floating_pass Immediate.ID_FLOATING gen
               (master_pass gen devices ts0))) as H2
    by (apply floating_pass_origin; assumption).
  unfold Immediate.slave_pass.
  apply (fold_left_preserves (Immediate.slave_step gen) I); auto.
  intros s d _. apply slave_step_origin.
Qed.

End ChildOrigin.

(** ** Rows that stay and rows that move *)

(** A top-level row whose id is still a master of the list, or the
    "Floating" row, is the same row after the refresh, re-stamped; and so
    is every row below it whose device the list still reports below that
    parent. *)
Lemma kept_row_is_restamped (g : Z) (devices : list XIDeviceInfo)
    (ts : GtkTreeStore) (r : Root) :
  store_ok g ts = true -> well_formed devices = true ->
  In r (rows ts) ->
  (root_id r = Immediate.ID_FLOATING \/ In (root_id r) (master_ids devices)) ->
  exists r',
    In r' (rows (Immediate.reconcile (g + 1) devices ts))
    /\ root_row r' = set_generation (g + 1) (root_row r)
    /\ forall c d,
         In c (children r) -> In d devices -> is_master d = false ->
         deviceid d = COL_ID c -> parent_id d = root_id r ->
         In (set_generation (g + 1) c) (children r').
Proof.
  intros Hok Hwf Hr Hokr.
  destruct (slave_pass_facts g devices ts Hok Hwf)
    as ([Hnd Hall] & Hm & Hfl & _ & Hs).
  pose proof (before_sweep_kept (g + 1) r devices ts Hr)
    as (r3 & Hr3 & Hrow & Hcs).
  cbv zeta in *.
  set (rs3 := rows (Immediate.slave_pass (g + 1) devices
                      (floating_pass Immediate.ID_FLOATING (g + 1)
                         (master_pass (g + 1) devices ts)))) in *.
  (* what the store held before the pass is stale *)
  assert (root_gen r <= g
          /\ forall c, In c (children r) -> COL_GENERATION c <= g)
    as [Hgr Hgc].
  { unfold store_ok in Hok. apply andb_true_iff in Hok as [_ Hok].
    rewrite forallb_forall in Hok. specialize (Hok _ Hr).
    unfold root_ok in Hok. repeat rewrite andb_true_iff in Hok.
    destruct Hok as [[[H1 _] _] H2]. apply Z.leb_le in H1. split; auto.
    intros c Hc. rewrite forallb_forall in H2. apply Z.leb_le. auto. }
  assert (root_id r3 = root_id r) as Hid3
    by (unfold root_id; destruct Hrow as [-> | ->]; reflexivity).
  (* the top-level row was stamped *)
  assert (has_root (g + 1) (root_id r) rs3) as (x & Hx & Hxid & Hxg).
  { destruct Hokr as [-> | Hin]; auto.
    apply master_ids_In in Hin as (d & Hd & Hdm & <-). auto. }
  assert (x = r3) as ->
    by (apply (NoDup_map_eq root_id rs3); auto; congruence).
  assert (root_row r3 = set_generation (g + 1) (root_row r)) as Hrow'.
  { destruct Hrow as [E | E]; auto.
    unfold root_gen in *. rewrite E in Hxg. lia. }
  exists (set_children (sweep_children (g + 1) (children r3)) r3).
  split; [|split].
  - unfold Immediate.reconcile, sweep_store. simpl. fold rs3.
    apply In_sweep. exists r3. repeat split; auto. lia.
  - exact Hrow'.
  - intros c d Hc Hd Hds Hdid Hpar. simpl. apply In_sweep_children.
    split; [|simpl; lia].
    destruct (Hcs _ Hc) as [Hin | Hin]; auto. exfalso.
    destruct (Hs _ Hd Hds) as (y & Hy & Hyid & _ & c' & Hc' & Hcid & Hcg).
    assert (y = r3) as ->
      by (apply (NoDup_map_eq root_id rs3); auto; congruence).
    rewrite Forall_forall in Hall.
    destruct (Hall _ Hr3) as (_ & _ & _ & Hndc & _).
    assert (c' = c) as ->
      by (apply (NoDup_map_eq COL_ID (children r3)); auto; congruence).
    specialize (Hgc _ Hc). lia.
Qed.

(** In a store that shows the devices of a well-formed list with distinct
    ids, a device id is shown below one top-level id only. *)
Lemma synced_one_parent (devices0 : list XIDeviceInfo) (ts : GtkTreeStore)
    (r r0 : Root) (c c0 : Row) :
  well_formed devices0 = true -> NoDup (map deviceid devices0) ->
  synced devices0 (rows ts) ->
  In r (rows ts) -> In c (children r) ->
  In r0 (rows ts) -> In c0 (children r0) ->
  COL_ID c0 = COL_ID c -> root_id r0 = root_id r.
Proof.
  intros Hwf Hnd (_ & Hall & _ & _ & Hokc & _) Hr Hc Hr0 Hc0 Hid.
  rewrite Forall_forall in Hall.
  destruct (Hokc r c Hr Hc) as (d & Hd & Hds & Hdid & Hf).
  destruct (Hokc r0 c0 Hr0 Hc0) as (d0 & Hd0 & Hd0s & Hd0id & Hf0).
  assert (d0 = d) as ->
    by (apply (NoDup_map_eq deviceid devices0); auto; congruence).
  destruct (well_formed_parent devices0 d Hwf Hd Hds) as (_ & _ & Hp).
  rewrite (Hp _ Hf (proj1 (Hall _ Hr))), (Hp _ Hf0 (proj1 (Hall _ Hr0))).
  reflexivity.
Qed.

(** C7, as the code has it.  A top-level row whose id is still a master
    of the list, or the "Floating" row, is the same row after the refresh,
    re-stamped, and so is every row below it whose device the list still
    reports below that parent.  A slave that the tree, showing the list
    before, has below one parent and that the list reports below another
    is not shown below its former parent any more, and is shown below its
    new parent by a row on a node the store had not handed out.  (Device
    ids are distinct within each list.) *)
Theorem rows_keep_their_node (g : Z) (devices : list XIDeviceInfo)
    (ts : GtkTreeStore) :
  store_ok g ts = true -> well_formed devices = true ->
  (forall r,
     In r (rows ts) ->
     (root_id r = Immediate.ID_FLOATING
      \/ In (root_id r) (master_ids devices)) ->
     exists r',
       In r' (rows (Immediate.reconcile (g + 1) devices ts))
       /\ root_row r' = set_generation (g + 1) (root_row r)
       /\ forall c d,
            In c (children r) -> In d devices -> is_master d = false ->
            deviceid d = COL_ID c -> parent_id d = root_id r ->
            In (set_generation (g + 1) c) (children r'))
  /\ (forall devices0 r c d,
        well_formed devices0 = true -> NoDup (map deviceid devices0) ->
        synced devices0 (rows ts) ->
        NoDup (map deviceid devices) ->
        In r (rows ts) -> In c (children r) ->
        In d devices -> is_master d = false ->
        deviceid d = COL_ID c -> parent_id d <> root_id r ->
        (forall r1,
           In r1 (rows (Immediate.reconcile (g + 1) devices ts)) ->
           root_id r1 = root_id r ->
           ~ In (COL_ID c) (map COL_ID (children r1)))
        /\ exists r2 c2,
             In r2 (rows (Immediate.reconcile (g + 1) devices ts))
             /\ root_id r2 = parent_id d
             /\ In c2 (children r2)
             /\ COL_ID c2 = COL_ID c
             /\ COL_GENERATION c2 = g + 1
             /\ (next_node ts <= node c2)%nat).
Proof.
  intros Hok Hwf. split.
  - intros r Hr Hokr. apply kept_row_is_restamped; assumption.
  - intros devices0 r c d Hwf0 Hnd0 Hsy0 Hndd Hr Hc Hd Hds Hid Hpar.
    pose proof (reconcile_synced g devices ts Hok Hwf)
      as (_ & HallR & _ & _ & HokcR & _).
    rewrite Forall_forall in HallR.
    destruct (well_formed_parent devices d Hwf Hd Hds) as (_ & _ & Hp).
    split.
    + intros r1 Hr1 Hrid Hin. apply in_map_iff in Hin as (x & Hx & Hxin).
      destruct (HokcR r1 x Hr1 Hxin) as (d2 & Hd2 & Hd2s & Hd2id & Hfound).
      assert (d2 = d) as ->
        by (apply (NoDup_map_eq deviceid devices); auto; congruence).
      apply Hpar. rewrite <- Hrid. symmetry.
      apply Hp; [assumption | apply (HallR _ Hr1)].
    + destruct (reconcile_facts g devices ts Hok Hwf)
        as (_ & _ & _ & _ & Hs & _).
      destruct (Hs d Hd Hds)
        as (r2 & Hr2 & Hr2id & _ & c2 & Hc2 & Hc2id & Hc2g).
      exists r2, c2. repeat split; auto; try congruence.
      pose proof (reconcile_origin ts (g + 1) devices) as Horig.
      rewrite Forall_forall in Horig.
      destruct (Horig r2 Hr2 c2 Hc2)
        as [(r0 & c0 & Hr0 & Hr0id & Hc0 & Hc0id) | Hnew]; [|exact Hnew].
      exfalso. apply Hpar.
      rewrite <- Hr2id, <- Hr0id.
      apply (synced_one_parent devices0 ts r r0 c c0); auto. congruence.
Qed.

(** ** These theorems at work on the small server *)

Lemma rows_keep_their_node_witness :
  store_ok 1 store_before = true
  /\ well_formed devices_after = true
  /\ (exists r',
        In r' (rows (Immediate.reconcile (1 + 1) devices_after store_before))
        /\ root_row r' = set_generation (1 + 1) (root_row floating_row)
        /\ forall c d,
             In c (children floating_row) -> In d devices_after ->
             is_master d = false -> deviceid d = COL_ID c ->
             parent_id d = root_id floating_row ->
             In (set_generation (1 + 1) c) (children r'))
  /\ (forall r1,
        In r1 (rows (Immediate.reconcile (1 + 1) devices_after store_before)) ->
        root_id r1 = root_id pointer_root_before ->
        ~ In (COL_ID mouse_row_before) (map COL_ID (children r1)))
  /\ exists r2 c2,
       In r2 (rows (Immediate.reconcile (1 + 1) devices_after store_before))
       /\ root_id r2 = parent_id mouse_moved
       /\ In c2 (children r2)
       /\ COL_ID c2 = COL_ID mouse_row_before
       /\ COL_GENERATION c2 = 1 + 1
       /\ (next_node store_before <= node c2)%nat.
Proof.
  destruct (rows_keep_their_node 1 devices_after store_before
              eq_refl eq_refl) as [Hstay Hmove].
  split; [reflexivity|]. split; [reflexivity|]. split.
  - apply (Hstay floating_row).
    + vm_compute. do 4 right. left. reflexivity.
    + left. reflexivity.
  - apply (Hmove devices_before pointer_root_before mouse_row_before
             mouse_moved).
    + reflexivity.
    + apply distinct_NoDup. reflexivity.
    + exact (reconcile_synced 0 devices_before gtk_tree_store_new
               eq_refl eq_refl).
    + apply distinct_NoDup. reflexivity.
    + left. reflexivity.
    + left. reflexivity.
    + do 4 right. left. reflexivity.
    + reflexivity.
    + reflexivity.
    + discriminate.
Defined.

Lemma reconcile_of_permuted_list_witness :
  store_ok 1 store_before = true
  /\ well_formed devices_before = true
  /\ Permutation devices_before (rev devices_before)
  /\ synced devices_before (rows store_before)
  /\ NoDup (master_ids devices_before)
  /\ Immediate.reconcile (1 + 1) (rev devices_before) store_before
     = Immediate.reconcile (1 + 1) devices_before store_before
  /\ root_ids (Immediate.reconcile (0 + 1) devices_before gtk_tree_store_new)
     = [2; 3; 4; 5; -1]
  /\ root_ids (Immediate.reconcile (0 + 1) (rev devices_before)
                 gtk_tree_store_new)
     = [5; 4; 3; 2; -1].
Proof.
  assert (synced devices_before (rows store_before)) as Hsy
    by exact (reconcile_synced 0 devices_before gtk_tree_store_new
                eq_refl eq_refl).
  assert (NoDup (master_ids devices_before)) as Hnd
    by (apply distinct_NoDup; reflexivity).
  destruct (reconcile_of_permuted_list 1 devices_before (rev devices_before)
              store_before eq_refl eq_refl (Permutation_rev _))
    as (_ & _ & Hsame & _).
  destruct (reconcile_of_permuted_list 0 devices_before (rev devices_before)
              gtk_tree_store_new eq_refl eq_refl (Permutation_rev _))
    as (_ & _ & _ & Horder).
  split; [reflexivity|]. split; [reflexivity|].
  split; [apply Permutation_rev|]. split; [exact Hsy|]. split; [exact Hnd|].
  split; [exact (Hsame Hsy)|].
  exact (Horder Hnd).
Defined.

